(** * Network-averaged neutron counts: a shallow embedding

    The development follows the three Python modules of the repository:
    [coscal/correct_data.py], [datahandling/import_data.py] and
    [datahandling/average_data.py].

    Number model.  NumPy's [float64] values are embedded as extended real
    numbers: a finite value [Fin r] carries a real number, and the three
    non-finite values [PInf], [NInf] and [NaN] are kept apart, because the
    code treats a missing value ([NaN]) differently from every other value
    ([np.nansum], [np.isnan], [np.interp]).  Arithmetic on finite values is
    exact real arithmetic; rounding, overflow and signed zeros are outside
    this model.  It serves the statements about structure: which entries
    are marked, which rows are kept, which exception is raised.

    Where a statement is about the very value a formula returns, the
    formula is embedded a second time over binary64 numbers with rounded
    operations (module [Binary64]).

    Errors.  Every Python exception is a value of [exn]; a function that can
    raise returns a [result]. *)

From Stdlib Require Import Reals Lra Lia List String Ascii ZArith Bool Sorted Permutation.
From Stdlib Require Import SpecFloat.
Import ListNotations.

Open Scope string_scope.
Open Scope R_scope.

(* ================================================================== *)
(** * Exceptions and the error monad *)
(* ================================================================== *)

Inductive exn : Type :=
| KeyError (key : string)
| ValueError (msg : string)
| NameError (name : string)
| UnboundLocalError (name : string)
| IndexError (msg : string)
| TypeError (msg : string)
| AxisError
| ZeroDivisionError
| OSError (path : string)
| EOFError
| SystemExit (code : Z)
| OverflowError.

Inductive result (A : Type) : Type :=
| Ok (a : A)
| Err (e : exn).

Arguments Ok {A} a.
Arguments Err {A} e.

Definition bind {A B : Type} (c : result A) (k : A -> result B) : result B :=
  match c with
  | Ok a => k a
  | Err e => Err e
  end.

Notation "x <- c ;; k" := (bind c (fun x => k))
  (at level 61, c at next level, right associativity).

Definition is_ok {A : Type} (c : result A) : bool :=
  match c with Ok _ => true | Err _ => false end.

(** [for x in xs: acc = body(acc, x)], stopping at the first exception. *)
Fixpoint for_each {A S : Type} (body : S -> A -> result S) (xs : list A) (s : S)
  : result S :=
  match xs with
  | [] => Ok s
  | x :: xs' => s' <- body s x ;; for_each body xs' s'
  end.

(* ================================================================== *)
(** * Python dictionaries with string keys

    An association list in insertion order; assigning to an existing key
    replaces the value in place, as a Python [dict] does. *)
(* ================================================================== *)

Definition dict (A : Type) : Type := list (string * A).

Fixpoint dict_find {A : Type} (k : string) (d : dict A) : option A :=
  match d with
  | [] => None
  | (k', v) :: d' => if String.eqb k k' then Some v else dict_find k d'
  end.

(** [d[k]] *)
Definition dict_get {A : Type} (k : string) (d : dict A) : result A :=
  match dict_find k d with
  | Some v => Ok v
  | None => Err (KeyError k)
  end.

(** [d[k] = v] *)
Fixpoint dict_set {A : Type} (k : string) (v : A) (d : dict A) : dict A :=
  match d with
  | [] => [(k, v)]
  | (k', v') :: d' =>
      if String.eqb k k' then (k', v) :: d' else (k', v') :: dict_set k v d'
  end.

Definition dict_keys {A : Type} (d : dict A) : list string := map fst d.

(* ================================================================== *)
(** * The number model *)
(* ================================================================== *)

Inductive float : Type :=
| Fin (r : R)
| PInf
| NInf
| NaN.

Definition Rltb (x y : R) : bool := if Rlt_dec x y then true else false.
Definition Rleb (x y : R) : bool := if Rle_dec x y then true else false.
Definition Reqb (x y : R) : bool := if Req_dec_T x y then true else false.

(** Sign of a real number, as a [comparison] against zero. *)
Definition Rsgn (r : R) : comparison :=
  if Rlt_dec r 0 then Lt else if Rlt_dec 0 r then Gt else Eq.

Definition sgn_mul (a b : comparison) : comparison :=
  match a, b with
  | Eq, _ | _, Eq => Eq
  | Lt, Lt | Gt, Gt => Gt
  | _, _ => Lt
  end.

(** The non-finite value of a given sign; sign [Eq] is the indeterminate
    form. *)
Definition inf_of_sign (c : comparison) : float :=
  match c with Lt => NInf | Gt => PInf | Eq => NaN end.

Definition fsign (x : float) : comparison :=
  match x with
  | Fin r => Rsgn r
  | PInf => Gt
  | NInf => Lt
  | NaN => Eq
  end.

Definition isnan (x : float) : bool :=
  match x with NaN => true | _ => false end.

Definition fopp (x : float) : float :=
  match x with
  | Fin r => Fin (- r)
  | PInf => NInf
  | NInf => PInf
  | NaN => NaN
  end.

Definition fadd (x y : float) : float :=
  match x, y with
  | NaN, _ | _, NaN => NaN
  | Fin a, Fin b => Fin (a + b)
  | PInf, NInf | NInf, PInf => NaN
  | PInf, _ | _, PInf => PInf
  | NInf, _ | _, NInf => NInf
  end.

Definition fsub (x y : float) : float := fadd x (fopp y).

Definition fmul (x y : float) : float :=
  match x, y with
  | NaN, _ | _, NaN => NaN
  | Fin a, Fin b => Fin (a * b)
  | _, _ => inf_of_sign (sgn_mul (fsign x) (fsign y))
  end.

Definition fdiv (x y : float) : float :=
  match x, y with
  | NaN, _ | _, NaN => NaN
  | Fin a, Fin b =>
      if Req_dec_T b 0 then inf_of_sign (Rsgn a) else Fin (a / b)
  | Fin _, _ => Fin 0
  | _, Fin b => inf_of_sign (sgn_mul (fsign x) (if Rlt_dec b 0 then Lt else Gt))
  | _, _ => NaN
  end.

Definition fsqrt (x : float) : float :=
  match x with
  | Fin a => if Rlt_dec a 0 then NaN else Fin (sqrt a)
  | PInf => PInf
  | _ => NaN
  end.

Definition fexp (x : float) : float :=
  match x with
  | Fin a => Fin (exp a)
  | PInf => PInf
  | NInf => Fin 0
  | NaN => NaN
  end.

(** [x ** n] for a literal natural exponent. *)
Fixpoint fpow (x : float) (n : nat) : float :=
  match n with
  | O => Fin 1
  | S k => fmul x (fpow x k)
  end.

(** [x < y]; every comparison with [NaN] is false. *)
Definition flt (x y : float) : bool :=
  match x, y with
  | NaN, _ | _, NaN => false
  | Fin a, Fin b => Rltb a b
  | NInf, NInf | PInf, _ | _, NInf => false
  | _, _ => true
  end.

Definition feq (x y : float) : bool :=
  match x, y with
  | Fin a, Fin b => Reqb a b
  | PInf, PInf | NInf, NInf => true
  | _, _ => false
  end.

Definition fle (x y : float) : bool := flt x y || feq x y.
Definition fgt (x y : float) : bool := flt y x.
Definition fge (x y : float) : bool := fle y x.

Definition of_nat (n : nat) : float := Fin (INR n).
Definition of_Z (z : Z) : float := Fin (IZR z).

(* ================================================================== *)
(** * NumPy arrays and the NumPy functions the code calls *)
(* ================================================================== *)

(** A zero-, one- or two-dimensional array.  [make_data_dict] produces
    one-dimensional arrays and [np.vstack] two-dimensional ones, so the
    dimension is part of the data. *)
Inductive ndarray : Type :=
| Scalar (x : float)
| Arr1 (v : list float)
| Arr2 (m : list (list float)).

(** Element-wise combination of two lists of equal length. *)
Fixpoint zip_with {A B C : Type} (f : A -> B -> C) (xs : list A) (ys : list B)
  : option (list C) :=
  match xs, ys with
  | [], [] => Some []
  | x :: xs', y :: ys' =>
      match zip_with f xs' ys' with
      | Some zs => Some (f x y :: zs)
      | None => None
      end
  | _, _ => None
  end.

Fixpoint zip_with2 {A B C : Type} (f : A -> B -> C)
  (xs : list (list A)) (ys : list (list B)) : option (list (list C)) :=
  match xs, ys with
  | [], [] => Some []
  | x :: xs', y :: ys' =>
      match zip_with f x y, zip_with2 f xs' ys' with
      | Some z, Some zs => Some (z :: zs)
      | _, _ => None
      end
  | _, _ => None
  end.

Definition nd_map (f : float -> float) (a : ndarray) : ndarray :=
  match a with
  | Scalar x => Scalar (f x)
  | Arr1 v => Arr1 (map f v)
  | Arr2 m => Arr2 (map (map f) m)
  end.

Definition broadcast_error : exn :=
  ValueError "operands could not be broadcast together".

Definition lift_shape {A : Type} (o : option A) : result A :=
  match o with Some a => Ok a | None => Err broadcast_error end.

(** A binary universal function.  A scalar combines with every array and
    two arrays of the same shape combine element by element; the stretching
    of an axis of length one against a longer axis is not modelled and is
    reported as a shape error. *)
Definition nd_map2 (f : float -> float -> float) (a b : ndarray)
  : result ndarray :=
  match a, b with
  | Scalar x, _ => Ok (nd_map (f x) b)
  | _, Scalar y => Ok (nd_map (fun x => f x y) a)
  | Arr1 v, Arr1 w => v' <- lift_shape (zip_with f v w) ;; Ok (Arr1 v')
  | Arr2 m, Arr2 n => m' <- lift_shape (zip_with2 f m n) ;; Ok (Arr2 m')
  | Arr1 v, Arr2 n =>
      m' <- lift_shape (zip_with2 f (map (fun _ => v) n) n) ;; Ok (Arr2 m')
  | Arr2 m, Arr1 w =>
      m' <- lift_shape (zip_with2 f m (map (fun _ => w) m)) ;; Ok (Arr2 m')
  end.

Definition nan_to_zero (x : float) : float := if isnan x then Fin 0 else x.

(** Sum of a one-dimensional array, missing values counting as zero. *)
Definition nansum1 (v : list float) : float :=
  fold_left fadd (map nan_to_zero v) (Fin 0).

Definition count_not_nan1 (v : list float) : nat :=
  List.length (filter (fun x => negb (isnan x)) v).

(** Element-wise sum of two rows; the rows of an array have equal length. *)
Definition row_add (acc row : list float) : list float :=
  map (fun p => fadd (fst p) (snd p)) (combine acc row).

Definition row_count (acc : list nat) (row : list float) : list nat :=
  map (fun p => (fst p + (if isnan (snd p) then 0 else 1))%nat) (combine acc row).

Definition ncols (m : list (list float)) : nat :=
  match m with [] => O | r :: _ => List.length r end.

(** [np.nansum(a, axis=0)]: missing values are replaced by zero and the
    rows are added up, one after the other. *)
Definition nansum_axis0 (a : ndarray) : result ndarray :=
  match a with
  | Scalar _ => Err AxisError
  | Arr1 v => Ok (Scalar (nansum1 v))
  | Arr2 m =>
      Ok (Arr1 (fold_left (fun acc row => row_add acc (map nan_to_zero row))
                          m (repeat (Fin 0) (ncols m))))
  end.

(** [np.count_nonzero(~np.isnan(a), axis=0)] *)
Definition count_not_nan_axis0 (a : ndarray) : result ndarray :=
  match a with
  | Scalar _ => Err AxisError
  | Arr1 v => Ok (Scalar (of_nat (count_not_nan1 v)))
  | Arr2 m =>
      Ok (Arr1 (map of_nat (fold_left row_count m (repeat O (ncols m)))))
  end.

(** All elements of an array, in row-major order. *)
Definition nd_flat (a : ndarray) : list float :=
  match a with
  | Scalar x => [x]
  | Arr1 v => v
  | Arr2 m => List.concat m
  end.

(** [np.nanmean] of a one-dimensional collection: the sum of the values
    that are not missing over their number (not a number when there is
    none). *)
Definition nanmean (v : list float) : float :=
  fdiv (nansum1 v) (of_nat (count_not_nan1 v)).

(** [a[0:k]] on an array: the first [k] entries along the first axis; a
    zero-dimensional value cannot be indexed. *)
Definition nd_head (k : nat) (a : ndarray) : result ndarray :=
  match a with
  | Scalar _ => Err (IndexError "invalid index to scalar variable.")
  | Arr1 v => Ok (Arr1 (firstn k v))
  | Arr2 m => Ok (Arr2 (firstn k m))
  end.

(** [np.vstack((a, b))] for the two shapes the aggregator stacks: the rows
    of [a] followed by the row [b]. *)
Definition vstack (a : ndarray) (b : list float) : result ndarray :=
  let rows := match a with
              | Scalar x => [[x]]
              | Arr1 v => [v]
              | Arr2 m => m
              end in
  if forallb (fun r => Nat.eqb (List.length r) (List.length b)) rows
  then Ok (Arr2 (rows ++ [b]))
  else Err (ValueError "all the input array dimensions except for the concatenation axis must match exactly").

(** Insertion sort of values that are not missing. *)
Fixpoint insert_sorted (x : float) (l : list float) : list float :=
  match l with
  | [] => [x]
  | y :: l' => if fle x y then x :: y :: l' else y :: insert_sorted x l'
  end.

Definition sort_floats (l : list float) : list float :=
  fold_right insert_sorted [] l.

(** The integer part of a non-negative real number, as a position. *)
Definition floor_nat (r : R) : nat := Z.to_nat (Int_part r).

(** [np.percentile(a, q)] with the default linear method: the value at
    the virtual position [(n - 1) * q / 100] of the sorted data, linearly
    interpolated between the two neighbouring entries.  A missing value
    anywhere makes the percentile missing; an empty array has no entry to
    take and raises [IndexError]. *)
Definition percentile (a : list float) (q : R) : result float :=
  if negb (Rleb 0 q && Rleb q 100)
  then Err (ValueError "Percentiles must be in the range [0, 100]")
  else if existsb isnan a then Ok NaN
  else match sort_floats a with
       | [] => Err (IndexError "index -1 is out of bounds for axis 0 with size 0")
       | (x0 :: _) as sorted =>
           let n := List.length sorted in
           let virtual := INR (n - 1) * (q / 100) in
           let i := floor_nat virtual in
           let gamma := virtual - INR i in
           let below := nth i sorted x0 in
           let above := nth (Nat.min (S i) (n - 1)) sorted x0 in
           Ok (fadd below (fmul (fsub above below) (Fin gamma)))
       end.

(** One interpolated value of [np.interp]: [xp] is increasing; left of
    the first sample point the first value is returned, right of the last
    one the last value, and in between the line through the two
    neighbouring samples is evaluated. *)
Fixpoint interp_at (x : float) (xp fp : list float) (prev : option (float * float))
  : float :=
  match xp, fp with
  | x1 :: xp', f1 :: fp' =>
      if flt x x1 then
        match prev with
        | None => f1
        | Some (x0, f0) =>
            let slope := fdiv (fsub f1 f0) (fsub x1 x0) in
            fadd (fmul slope (fsub x x0)) f0
        end
      else if feq x x1 then f1
      else interp_at x xp' fp' (Some (x1, f1))
  | _, _ =>
      match prev with
      | Some (_, f0) => f0
      | None => NaN
      end
  end.

(** [np.interp(x, xp, fp)]; an empty array of sample points is an error. *)
Definition np_interp (x xp fp : list float) : result (list float) :=
  match xp with
  | [] => Err (ValueError "array of sample points is empty")
  | _ :: _ =>
      if Nat.eqb (List.length xp) (List.length fp)
      then Ok (map (fun xi => if isnan xi then xi else interp_at xi xp fp None) x)
      else Err (ValueError "fp and xp are not of the same length.")
  end.

Declare Scope float_scope.
Delimit Scope float_scope with fl.
Bind Scope float_scope with float.
Infix "+" := fadd : float_scope.
Infix "-" := fsub : float_scope.
Infix "*" := fmul : float_scope.
Infix "/" := fdiv : float_scope.
Infix "**" := fpow (at level 30, right associativity) : float_scope.

(* ================================================================== *)
(** * Data frames

    A time series is an ordered sequence of rows, each a timestamp (the
    index, in nanoseconds) with one value per column. *)
(* ================================================================== *)

Record DataFrame : Type := mkDataFrame {
  df_columns : list string;
  df_rows : list (Z * list float)
}.

(** [data.index] *)
Definition df_index (df : DataFrame) : list Z := map fst (df_rows df).

(** [len(data)] *)
Definition df_len (df : DataFrame) : nat := List.length (df_rows df).

(** [data.empty]: some axis has length zero. *)
Definition df_empty (df : DataFrame) : bool :=
  match df_rows df, df_columns df with
  | [], _ | _, [] => true
  | _, _ => false
  end.

Fixpoint position (k : string) (ks : list string) : option nat :=
  match ks with
  | [] => None
  | k' :: ks' =>
      if String.eqb k k' then Some O
      else match position k ks' with
           | Some n => Some (S n)
           | None => None
           end
  end.

(** [data[key].values] *)
Definition df_col (key : string) (df : DataFrame) : result (list float) :=
  match position key (df_columns df) with
  | Some pos => Ok (map (fun r => nth pos (snd r) NaN) (df_rows df))
  | None => Err (KeyError key)
  end.

Fixpoint set_nth {A : Type} (n : nat) (x : A) (l : list A) : list A :=
  match n, l with
  | _, [] => []
  | O, _ :: l' => x :: l'
  | S n', y :: l' => y :: set_nth n' x l'
  end.

(** [data[key] = values]: an existing column is overwritten, a new one is
    added on the right; the values must be as many as the rows. *)
Definition df_set_col (key : string) (values : list float) (df : DataFrame)
  : result DataFrame :=
  match position key (df_columns df) with
  | Some pos =>
      rows <- match zip_with (fun r x => (fst r, set_nth pos x (snd r)))
                              (df_rows df) values with
              | Some rows => Ok rows
              | None => Err (ValueError "Length of values does not match length of index")
              end ;;
      Ok (mkDataFrame (df_columns df) rows)
  | None =>
      rows <- match zip_with (fun r x => (fst r, (snd r ++ [x])%list))
                              (df_rows df) values with
              | Some rows => Ok rows
              | None => Err (ValueError "Length of values does not match length of index")
              end ;;
      Ok (mkDataFrame (df_columns df ++ [key]) rows)
  end.

(** Every row holds one value per column. *)
Definition well_formed (df : DataFrame) : Prop :=
  Forall (fun r => List.length (snd r) = List.length (df_columns df)) (df_rows df).

(** Element-wise product of two series of one data frame. *)
Definition series_mul (a b : list float) : result (list float) :=
  lift_shape (zip_with fmul a b).

(* ================================================================== *)
(** * [coscal/correct_data.py] *)
(* ================================================================== *)

Module CorrectData.

(** [10 ** z] *)
Definition ten_pow (z : Z) : float := Fin (powerRZ 10 z).

Definition attenuation_length (pressure rigidity : float) : float :=
  let c_0 := (Fin 5.4196 * ten_pow (-3))%fl in
  let c_1 := (Fin 2.2082 * ten_pow (-4))%fl in
  let c_2 := (Fin (-5.1952) * ten_pow (-7))%fl in
  let c_3 := (Fin 7.2062 * ten_pow (-6))%fl in
  let c_4 := (Fin (-1.9702) * ten_pow (-6))%fl in
  let c_5 := (Fin (-9.8334) * ten_pow (-9))%fl in
  let c_6 := (Fin 3.4201 * ten_pow (-9))%fl in
  let c_7 := (Fin 4.9898 * ten_pow (-12))%fl in
  let c_8 := (Fin (-1.7192) * ten_pow (-12))%fl in
  let depth := (pressure * Fin 0.981)%fl in
  let beta := (c_0
               + c_1 * rigidity
               + c_2 * rigidity ** 2
               + (c_3 + c_4 * rigidity) * depth
               + (c_5 + (c_6 * rigidity)) * depth ** 2
               + (c_7 + c_8 * rigidity) * (depth ** 3))%fl in
  beta.

Definition pressure_correction (pressure : list float) (rigidity : float)
  : list float :=
  let p_0 := nanmean pressure in
  let pressure_diff := map (fun p => (p - p_0)%fl) pressure in
  let mass_attenuation_length := attenuation_length p_0 rigidity in
  let exponent := map (fun d => (d * mass_attenuation_length)%fl) pressure_diff in
  let pressure_corr := map fexp exponent in
  pressure_corr.

Definition humidity_correction (humidity : list float) : list float :=
  let mean_hum := nanmean humidity in
  let hum_change := map (fun h => (h - mean_hum)%fl) humidity in
  let hum_corr := map (fun c => (Fin 1 + (Fin 0.0054 * c))%fl) hum_change in
  hum_corr.

Definition set_corr_keys (operator : string) : result (dict (option string)) :=
  if String.eqb "COSMOS-US" operator then
    Ok [("p_corr", Some "PRESS"); ("h_corr", None)]
  else if String.eqb "COSMOS-UK" operator then
    Ok [("p_corr", Some "PA"); ("h_corr", Some "Q")]
  else Err (KeyError (operator ++ " is not a valid operator key")).

Definition get_corr_factors (data : DataFrame) (key_dict : dict (option string))
  (station_rigidity : float) : result (dict (list float)) :=
  p_key <- dict_get "p_corr" key_dict ;;
  p_corr <- match p_key with
            | Some k => col <- df_col k data ;;
                        Ok (pressure_correction col station_rigidity)
            | None => Ok (repeat (Fin 1) (df_len data))
            end ;;
  h_key <- dict_get "h_corr" key_dict ;;
  h_corr <- match h_key with
            | Some k => col <- df_col k data ;; Ok (humidity_correction col)
            | None => Ok (repeat (Fin 1) (df_len data))
            end ;;
  Ok [("p_corr", p_corr); ("h_corr", h_corr)].

Definition apply_corrections (data : DataFrame) (operator : string)
  (station_rigidity : float) (data_keys : list string) : result DataFrame :=
  correction_key_dict <- set_corr_keys operator ;;
  correction_factors <- get_corr_factors data correction_key_dict station_rigidity ;;
  for_each (fun data key =>
              col <- df_col key data ;;
              p_corr <- dict_get "p_corr" correction_factors ;;
              col_p <- series_mul col p_corr ;;
              h_corr <- dict_get "h_corr" correction_factors ;;
              col_ph <- series_mul col_p h_corr ;;
              df_set_col key col_ph data)
           data_keys data.

End CorrectData.

(* ================================================================== *)
(** * The correction formulas in binary64

    Where a statement is about the very value a formula returns, the
    numbers are binary64 numbers and every operation rounds to nearest,
    ties to even, as the hardware does.  The routines that come from a
    library ([pow] behind [**], [np.exp], [np.nanmean]) are gathered in
    one record, so that the statements hold for whatever they return. *)
(* ================================================================== *)

Module Binary64.

Definition prec : Z := 53.
Definition emax : Z := 1024.

Definition b64_add : spec_float -> spec_float -> spec_float := SFadd prec emax.
Definition b64_sub : spec_float -> spec_float -> spec_float := SFsub prec emax.
Definition b64_mul : spec_float -> spec_float -> spec_float := SFmul prec emax.
Definition b64_div : spec_float -> spec_float -> spec_float := SFdiv prec emax.

Declare Scope b64_scope.
Delimit Scope b64_scope with b64.
Bind Scope b64_scope with spec_float.
Infix "+" := b64_add : b64_scope.
Infix "-" := b64_sub : b64_scope.
Infix "*" := b64_mul : b64_scope.
Infix "/" := b64_div : b64_scope.
Notation "- x" := (SFopp x) : b64_scope.

(** A Python [int] used as a float. *)
Definition of_int (z : Z) : spec_float := binary_normalize prec emax z 0 false.

(** The decimal literal with the given digits, the last [decimals] of
    them after the point (or, in scientific notation, the digits times
    ten to the minus [decimals]): the binary64 number nearest to it.
    Digits and power of ten are whole numbers that binary64 holds
    exactly, so one rounded division gives it. *)
Definition literal (digits : Z) (decimals : nat) : spec_float :=
  (of_int digits / of_int (10 ^ Z.of_nat decimals))%b64.

(** The whole number a float stands for, when it stands for one. *)
Definition exact_int (y : spec_float) : option Z :=
  match y with
  | S754_zero _ => Some 0%Z
  | S754_finite s m e =>
      if (0 <=? e)%Z then Some (cond_Zopp s (Zpos m * 2 ^ e))
      else if (Zpos m mod 2 ^ (- e) =? 0)%Z
           then Some (cond_Zopp s (Zpos m / 2 ^ (- e)))
           else None
  | _ => None
  end.

Definition is_nan (x : spec_float) : bool :=
  match x with S754_nan => true | _ => false end.

Definition is_finite (x : spec_float) : bool :=
  match x with S754_zero _ | S754_finite _ _ _ => true | _ => false end.

Record Libm : Type := mkLibm {
  (** C [pow], which [**] calls on floats *)
  libm_pow : spec_float -> spec_float -> spec_float;
  (** [np.exp] of a finite number other than zero *)
  libm_exp : spec_float -> spec_float;
  (** [np.nanmean] of a series *)
  np_nanmean : list spec_float -> spec_float
}.

Section Corrections.

Variable L : Libm.

Local Notation "x ** y" := (libm_pow L x y) (at level 30, right associativity).

(** [np.exp]: the values at zero, at the infinities and at a missing
    value are fixed by the standard; the others are the library's. *)
Definition np_exp (x : spec_float) : spec_float :=
  match x with
  | S754_zero _ => of_int 1
  | S754_infinity false => x
  | S754_infinity true => S754_zero false
  | S754_nan => S754_nan
  | S754_finite _ _ _ => libm_exp L x
  end.

Definition attenuation_length (pressure rigidity : spec_float) : spec_float :=
  let c_0 := (literal 54196 4 * (of_int 10 ** of_int (-3)))%b64 in
  let c_1 := (literal 22082 4 * (of_int 10 ** of_int (-4)))%b64 in
  let c_2 := (- literal 51952 4 * (of_int 10 ** of_int (-7)))%b64 in
  let c_3 := (literal 72062 4 * (of_int 10 ** of_int (-6)))%b64 in
  let c_4 := (- literal 19702 4 * (of_int 10 ** of_int (-6)))%b64 in
  let c_5 := (- literal 98334 4 * (of_int 10 ** of_int (-9)))%b64 in
  let c_6 := (literal 34201 4 * (of_int 10 ** of_int (-9)))%b64 in
  let c_7 := (literal 49898 4 * (of_int 10 ** of_int (-12)))%b64 in
  let c_8 := (- literal 17192 4 * (of_int 10 ** of_int (-12)))%b64 in
  let depth := (pressure * literal 981 3)%b64 in
  let beta := (c_0
               + c_1 * rigidity
               + c_2 * rigidity ** of_int 2
               + (c_3 + c_4 * rigidity) * depth
               + (c_5 + (c_6 * rigidity)) * depth ** of_int 2
               + (c_7 + c_8 * rigidity) * (depth ** of_int 3))%b64 in
  beta.

Definition pressure_correction (pressure : list spec_float) (rigidity : spec_float)
  : list spec_float :=
  let p_0 := np_nanmean L pressure in
  let pressure_diff := map (fun p => (p - p_0)%b64) pressure in
  let mass_attenuation_length := attenuation_length p_0 rigidity in
  let exponent := map (fun d => (d * mass_attenuation_length)%b64) pressure_diff in
  let pressure_corr := map np_exp exponent in
  pressure_corr.

Definition humidity_correction (humidity : list spec_float) : list spec_float :=
  let mean_hum := np_nanmean L humidity in
  let hum_change := map (fun h => (h - mean_hum)%b64) humidity in
  let hum_corr := map (fun c => (of_int 1 + (literal 54 4 * c))%b64) hum_change in
  hum_corr.

End Corrections.

(** ** Reference routines

    Each returns the binary64 number nearest to the exact result. *)

(** [pow(x, y)] for a whole exponent: the exact power, rounded once.
    Other exponents do not occur in the module and are answered by a
    missing value. *)
Definition pow_nearest (x y : spec_float) : spec_float :=
  match exact_int y with
  | None => S754_nan
  | Some Z0 => of_int 1
  | Some n =>
      let odd := Z.odd n in
      match x with
      | S754_nan => S754_nan
      | S754_zero s =>
          if (0 <? n)%Z then S754_zero (s && odd) else S754_infinity (s && odd)
      | S754_infinity s =>
          if (0 <? n)%Z then S754_infinity (s && odd) else S754_zero (s && odd)
      | S754_finite s m e =>
          let power := S754_finite (s && odd) (Pos.pow m (Z.to_pos (Z.abs n)))
                                   (e * Z.abs n) in
          if (0 <? n)%Z then (power * S754_finite false 1 0)%b64
          else (S754_finite false 1 0 / power)%b64
      end
  end.

(** [exp(x)]: the argument is halved until it is below one in magnitude,
    thirty terms of the series are added up exactly, the sum is squared
    back exactly and the result is rounded once. *)
Definition exp_nearest (x : spec_float) : spec_float :=
  match x with
  | S754_finite s m e =>
      let magnitude := (Zpos (digits2_pos m) + e)%Z in
      if (10 <? magnitude)%Z then (if s then S754_zero false else S754_infinity false)
      else
        let halvings := Z.max 0 magnitude in
        let e' := (e - halvings)%Z in
        let num := cond_Zopp s (Zpos m * 2 ^ Z.max e' 0) in
        let den := (2 ^ Z.max (- e') 0)%Z in
        let '(p, q) := fold_right (fun k '(p, q) => (k * den * q + num * p, k * den * q)%Z)
                                  (1%Z, 1%Z) (map Z.of_nat (seq 1 30)) in
        match (p ^ 2 ^ halvings)%Z, (q ^ 2 ^ halvings)%Z with
        | Zpos p', Zpos q' => (S754_finite false p' 0 / S754_finite false q' 0)%b64
        | _, _ => S754_nan
        end
  | _ => x
  end.

(** The mean of the values that are not missing, added from left to
    right, as NumPy adds fewer than eight numbers. *)
Definition mean_in_order (v : list spec_float) : spec_float :=
  let present := filter (fun x => negb (is_nan x)) v in
  (fold_left b64_add present (S754_zero false)
   / of_int (Z.of_nat (List.length present)))%b64.

Definition reference : Libm := mkLibm pow_nearest exp_nearest mean_in_order.

End Binary64.

(* ================================================================== *)
(** * The world outside the repository

    The file system, the console and the pandas readers and resamplers
    are external collaborators.  They are gathered in one record, so that
    every statement about the repository's code holds for whatever they
    do. *)
(* ================================================================== *)

(** A table as [pd.read_table] returns it, with the date column parsed:
    the name of that column and the rows, each with its date. *)
Record RawTable : Type := mkRawTable {
  raw_date_key : string;
  raw_frame : DataFrame
}.

(** The station metadata table: its text columns and its numeric columns. *)
Record MetaTable : Type := mkMetaTable {
  meta_text : dict (list string);
  meta_numbers : dict (list float)
}.

Record World : Type := mkWorld {
  (** [os.path.exists(path)], from a working directory *)
  os_path_exists : string -> string -> bool;
  (** [os.chdir(path)]: the new working directory *)
  os_chdir : string -> string -> result string;
  (** [pd.read_table(filename, sep=..., parse_dates=...)] of a data file *)
  pd_read_table : string -> string -> string -> list (list nat) -> result RawTable;
  (** [pd.read_table(filename, sep=...)] of the metadata file *)
  pd_read_meta : string -> string -> string -> result MetaTable;
  (** [data.resample(freq).nearest()] *)
  pd_resample_nearest : string -> DataFrame -> result DataFrame;
  (** [data.resample(freq).agg(resampler_dict)] *)
  pd_resample_agg : string -> dict string -> DataFrame -> result DataFrame;
  (** the lines typed at the console; [None] is the end of the input *)
  stdin : nat -> option string
}.

(* ================================================================== *)
(** * [datahandling/import_data.py] *)
(* ================================================================== *)

Module ImportData.

Record ImportKeys : Type := mkImportKeys {
  date_key : string;
  ind : list (list nat);
  separator : string
}.

(** The double quote character. *)
Definition dq : string := String (ascii_of_nat 34) EmptyString.

Definition set_keys_and_parser (operator : string) : result ImportKeys :=
  if String.eqb operator "COSMOS-UK" then
    Ok (mkImportKeys "DATE_TIME" [[2%nat]] ",")
  else if String.eqb operator "COSMOS-US" then
    Ok (mkImportKeys "Date_Time" [[0%nat; 1%nat]] "\s+")
  else if String.eqb operator "NMDB" then
    Ok (mkImportKeys "DateTime" [[0%nat]] ";")
  else if String.eqb operator "COSMOS-Av" then
    Ok (mkImportKeys "Time" [[0%nat]] ",")
  else Err (KeyError ("%s is an invalid operator. Operator keys must be one of "
                      ++ dq ++ "COSMOS-UK" ++ dq ++ ", " ++ dq ++ "COSMOS-US" ++ dq ++ ", "
                      ++ dq ++ "NMDB" ++ dq ++ ", or " ++ dq ++ "COSMOS-Av" ++ dq)).

(** [data.index[0] <= start_date and data.index[-1] >= stop_date] *)
Definition date_valid (data : DataFrame) (start_date stop_date : Z) : result bool :=
  match df_index data with
  | [] => Err (IndexError "index 0 is out of bounds for axis 0 with size 0")
  | (first :: _) as idx =>
      if (first <=? start_date)%Z && (last idx first >=? stop_date)%Z
      then Ok true
      else Ok false
  end.

(** The number of leading timestamps that satisfy [p]: on a sorted index
    this is the position pandas finds by bisection. *)
Fixpoint count_while (p : Z -> bool) (idx : list Z) : nat :=
  match idx with
  | [] => O
  | t :: idx' => if p t then S (count_while p idx') else O
  end.

(** [data[start_date:stop_date]] on a sorted datetime index: rows are
    selected by label, from the first row at or after [start_date] up to
    and including the last row at or before [stop_date]. *)
Definition label_slice (data : DataFrame) (start_date stop_date : Z) : DataFrame :=
  let lo := count_while (fun t => (t <? start_date)%Z) (df_index data) in
  let hi := count_while (fun t => (t <=? stop_date)%Z) (df_index data) in
  mkDataFrame (df_columns data) (skipn lo (firstn hi (df_rows data))).

Definition slice_data_for_dates (data : DataFrame) (start stop : Z)
  : result (DataFrame * bool) :=
  let start_date := start in
  let stop_date := stop in
  ok <- date_valid data start stop ;;
  if ok then
    let sliced_data := label_slice data start_date stop_date in
    if df_empty sliced_data then Ok (data, false)
    else Ok (sliced_data, true)
  else Ok (data, false).

(** Stable insertion of a row by its date. *)
Fixpoint insert_row (r : Z * list float) (rows : list (Z * list float))
  : list (Z * list float) :=
  match rows with
  | [] => [r]
  | r' :: rows' =>
      if (fst r <? fst r')%Z then r :: r' :: rows' else r' :: insert_row r rows'
  end.

(** [data.sort_values(by=[date_key], inplace=True)], for a table in which
    no data column bears the name of a date column: the rows are put in
    the order of their dates when [by_key] names the date column, and
    there is no column to sort by otherwise. *)
Definition sort_values (by_key : string) (t : RawTable) : result RawTable :=
  if String.eqb by_key (raw_date_key t) then
    Ok (mkRawTable (raw_date_key t)
          (mkDataFrame (df_columns (raw_frame t))
             (fold_left (fun acc r => insert_row r acc) (df_rows (raw_frame t)) [])))
  else Err (KeyError by_key).

Definition import_neutron_data (w : World) (cwd filename operator : string)
  (start stop : option Z) : result (DataFrame * bool) :=
  import_dict <- set_keys_and_parser operator ;;
  data <- pd_read_table w cwd filename (separator import_dict) (ind import_dict) ;;
  data <- sort_values (date_key import_dict) data ;;
  if match df_rows (raw_frame data) with [] => true | _ => false end then
    Ok (raw_frame data, false)
  else
    let data := raw_frame data in
    match start with
    | Some start =>
        match stop with
        | Some stop => slice_data_for_dates data start stop
        | None =>
            (* [date_valid] compares the last timestamp with [None] only
               when the first timestamp is not after the start *)
            match df_index data with
            | [] => Err (IndexError "index 0 is out of bounds for axis 0 with size 0")
            | first :: _ =>
                if (first <=? start)%Z
                then Err (TypeError "'>=' not supported between instances of 'Timestamp' and 'NoneType'")
                else Ok (data, false)
            end
        end
    | None => Ok (data, true)
    end.

End ImportData.

(* ================================================================== *)
(** * [pd.Timedelta] on frequency strings

    A duration is a whole number of nanoseconds that fits 64 bits.  The
    strings modelled are a whole number followed by a unit abbreviation,
    the form the code uses (['3600s'], ['0T']).  The other forms that
    pandas reads (fractions, several components, unit names written out)
    are outside the model, which reports them as a [ValueError]: a
    statement about a frequency holds for the strings read here. *)
(* ================================================================== *)

Definition is_digit (c : ascii) : bool :=
  (48 <=? nat_of_ascii c)%nat && (nat_of_ascii c <=? 57)%nat.

Fixpoint leading_number (s : string) (acc : option Z) : option Z * string :=
  match s with
  | String c s' =>
      if is_digit c
      then leading_number s'
             (Some (10 * match acc with Some n => n | None => 0 end
                    + Z.of_nat (nat_of_ascii c - 48))%Z)
      else (acc, s)
  | EmptyString => (acc, s)
  end.

Definition unit_nanoseconds (u : string) : option Z :=
  if String.eqb u "ns" then Some 1%Z
  else if String.eqb u "us" then Some 1000%Z
  else if String.eqb u "ms" then Some 1000000%Z
  else if String.eqb u "s" || String.eqb u "S" then Some 1000000000%Z
  else if String.eqb u "T" || String.eqb u "min" || String.eqb u "m"
  then Some 60000000000%Z
  else if String.eqb u "h" || String.eqb u "H" then Some 3600000000000%Z
  else if String.eqb u "D" || String.eqb u "d" then Some 86400000000000%Z
  else None.

(** The largest duration: [2^63 - 1] nanoseconds. *)
Definition Timedelta_max : Z := 9223372036854775807.

(** [pd.Timedelta] of a whole number followed by a unit.  The parser
    reads the number as a float, so a number beyond [2^53] is first
    rounded to the nearest binary64 number; the duration is kept in
    nanoseconds in 64 bits, and one that does not fit raises
    [OverflowError]. *)
Definition Timedelta (s : string) : result Z :=
  match leading_number s None with
  | (Some n, u) =>
      match unit_nanoseconds u with
      | Some k =>
          match Binary64.exact_int (Binary64.of_int n) with
          | Some n' =>
              if (n' * k <=? Timedelta_max)%Z then Ok (n' * k)%Z
              else Err OverflowError
          | None => Err OverflowError
          end
      | None => Err (ValueError "invalid unit abbreviation")
      end
  | (None, _) => Err (ValueError "unit abbreviation w/o a number")
  end.

(** Python's [a > b] on strings: lexicographic order of the characters. *)
Definition str_gt (a b : string) : bool := String.ltb b a.

(* ================================================================== *)
(** * [datahandling/average_data.py] *)
(* ================================================================== *)

Module AverageData.

(** ** The path prompt *)

(** The state of the loop of [check_path_exists]: still in the loop, with
    the current [ret_path] and the number of console lines read so far;
    out of the loop through [break]; or ended by an exception. *)
Inductive prompt_state : Type :=
| Prompting (ret_path : string) (pos : nat)
| Returned (ret_path : string) (pos : nat)
| Raised (e : exn).

(** One pass through the body of [while True]. *)
Definition check_path_step (w : World) (cwd path ret_path : string) (pos : nat)
  : prompt_state :=
  if os_path_exists w cwd path then Returned ret_path pos
  else match stdin w pos with
       | None => Raised EOFError
       | Some line =>
           let ret_path := line in
           if String.eqb path "exit" then Raised (SystemExit 2)
           else Prompting ret_path (S pos)
       end.

Fixpoint check_path_loop (fuel : nat) (w : World) (cwd path ret_path : string)
  (pos : nat) : prompt_state :=
  match fuel with
  | O => Prompting ret_path pos
  | S fuel' =>
      match check_path_step w cwd path ret_path pos with
      | Prompting ret_path' pos' => check_path_loop fuel' w cwd path ret_path' pos'
      | st => st
      end
  end.

(** [check_path_exists(path)], run for at most [fuel] passes. *)
Definition check_path_exists (fuel : nat) (w : World) (cwd path : string) (pos : nat)
  : prompt_state :=
  let ret_path := path in
  check_path_loop fuel w cwd path ret_path pos.

(** ** Operator tables *)

Inductive pyval : Type :=
| PStr (s : string)
| PInt (z : Z).

Definition as_str (v : pyval) : result string :=
  match v with
  | PStr s => Ok s
  | PInt _ => Err (TypeError "expected str")
  end.

Definition as_int (v : pyval) : result Z :=
  match v with
  | PInt z => Ok z
  | PStr _ => Err (TypeError "expected int")
  end.

Definition tab : string := String (ascii_of_nat 9) EmptyString.

Definition get_other_keys (operator : string) : dict pyval :=
  let ret_dict := [] in
  if String.eqb "COSMOS-US" operator then
    dict_set "extension" (PStr ".txt")
      (dict_set "length_mod" (PInt 0)
         (dict_set "name_column" (PStr "SiteName")
            (dict_set "meta_sep" (PStr tab) ret_dict)))
  else if String.eqb "COSMOS-UK" operator then
    dict_set "extension" (PStr ".csv")
      (dict_set "length_mod" (PInt 1)
         (dict_set "name_column" (PStr "SITE_ID")
            (dict_set "meta_sep" (PStr ",") ret_dict)))
  else ret_dict.

Definition get_data_keys (operator : string) : result (list string) :=
  if String.eqb "COSMOS-US" operator then Ok ["MOD"; "UNMO"]
  else if String.eqb "COSMOS-UK" operator then Ok ["CTS_MOD"]
  else if String.eqb "NMDB" operator then Ok ["counts"]
  else Err (KeyError (operator ++ " is not a valid operator")).

Definition get_error_keys (operator : string) : result (list string) :=
  if String.eqb "COSMOS-US" operator then Ok ["E_MOD"; "E_UNMO"]
  else if String.eqb "COSMOS-UK" operator then Ok ["E_CTS_MOD"]
  else Err (KeyError (operator ++ " is not a valid operator")).

Definition get_resampler_dict (operator : string) : result (dict string) :=
  if String.eqb operator "NMDB" then
    Ok [("counts", "sum")]
  else if String.eqb operator "COSMOS-US" then
    Ok [("MOD", "sum"); ("UNMO", "sum"); ("PRESS", "mean"); ("TEM", "mean");
        ("RH", "mean"); ("BATT", "mean")]
  else if String.eqb operator "COSMOS-UK" then
    Ok [("CTS_MOD", "sum"); ("CTS_MOD2", "sum"); ("CTS_BARE", "sum");
        ("PA", "mean"); ("Q", "mean"); ("CTS_MOD_QCFLAG", "sum");
        ("CTS_MOD2_QCFLAG", "sum"); ("CTS_BARE_QCFLAG", "sum");
        ("PA_QCFLAG", "sum"); ("Q_QCFLAG", "sum")]
  else Err (UnboundLocalError "ret_dict").

Definition get_qc_dict : dict string :=
  [("CTS_MOD", "CTS_MOD_QCFLAG"); ("CTS_MOD2", "CTS_MOD2_QCFLAG");
   ("CTS_BARE", "CTS_BARE_QCFLAG"); ("PA", "PA_QCFLAG"); ("Q", "Q_QCFLAG")].

(** ** Resampling *)

(** [large_td % small_td == pd.Timedelta('0T')] *)
Definition is_multiple (large_td small_td : Z) : result bool :=
  zero <- Timedelta "0T" ;;
  if (small_td =? 0)%Z then Err ZeroDivisionError
  else Ok ((large_td mod small_td) =? zero)%Z.

Definition resample_data (w : World) (data : DataFrame)
  (operator original_frequency new_frequency : string) : result DataFrame :=
  original_frequency_td <- Timedelta original_frequency ;;
  new_frequency_td <- Timedelta new_frequency ;;
  if (original_frequency_td =? new_frequency_td)%Z then
    pd_resample_nearest w new_frequency data
  else if str_gt new_frequency original_frequency then
    multiple <- is_multiple new_frequency_td original_frequency_td ;;
    if multiple then
      resampler_dict <- get_resampler_dict operator ;;
      pd_resample_agg w new_frequency resampler_dict data
    else Err (ValueError "New frequency must be a multiple of the original frequency")
  else Err (ValueError "New frequency must be = n * original frequency for n an int > 0").

(** ** Quality control, outliers and gaps *)

(** [data.mask(flags > 0)[key]] *)
Definition mask_flagged (values flags : list float) : result (list float) :=
  lift_shape (zip_with (fun v f => if fgt f (Fin 0) then NaN else v) values flags).

Definition qc_check_data (data : DataFrame) : result DataFrame :=
  let qc_dict := get_qc_dict in
  for_each (fun data key =>
              flag_key <- dict_get key qc_dict ;;
              flags <- df_col flag_key data ;;
              values <- df_col key data ;;
              masked <- mask_flagged values flags ;;
              df_set_col key masked data)
           (dict_keys qc_dict) data.

Definition outliers_to_nans (data : list float) (min_percentile max_percentile : R)
  : result (list float) :=
  min_value <- percentile data min_percentile ;;
  max_value <- percentile data max_percentile ;;
  Ok (map (fun x => if fgt x max_value || flt x min_value then NaN else x) data).

(** The positions of an array at which [p] holds. *)
Fixpoint positions_from (i : nat) (p : float -> bool) (data : list float) : list nat :=
  match data with
  | [] => []
  | x :: data' =>
      if p x then i :: positions_from (S i) p data'
      else positions_from (S i) p data'
  end.

(** [data[np.isnan(data)] = values]: the missing entries receive the
    values, in order. *)
Fixpoint assign_nans (data values : list float) : list float :=
  match data with
  | [] => []
  | x :: data' =>
      if isnan x then
        match values with
        | v :: values' => v :: assign_nans data' values'
        | [] => x :: assign_nans data' []
        end
      else x :: assign_nans data' values
  end.

Definition interp_nans (data : list float) : result (list float) :=
  let is_nan := positions_from 0 isnan in
  let is_not_nan := positions_from 0 (fun x => negb (isnan x)) in
  let x_nan := map of_nat (is_nan data) in
  let x_valid := map of_nat (is_not_nan data) in
  let y_valid := filter (fun x => negb (isnan x)) data in
  values <- np_interp x_nan x_valid y_valid ;;
  Ok (assign_nans data values).

Definition handle_outliers_interp (data : DataFrame) (keys : list string)
  (min_percentile max_percentile : R) : result DataFrame :=
  for_each (fun data key =>
              col <- df_col key data ;;
              col <- outliers_to_nans col min_percentile max_percentile ;;
              data <- df_set_col key col data ;;
              col <- df_col key data ;;
              col <- interp_nans col ;;
              df_set_col key col data)
           keys data.

(** ** Combining the stations *)

(** [xs[i]] *)
Definition item {A : Type} (xs : list A) (i : nat) : result A :=
  match nth_error xs i with
  | Some x => Ok x
  | None => Err (IndexError "index out of bounds")
  end.

Definition make_data_dict (data : DataFrame) (keys : list string)
  : result (dict ndarray) :=
  for_each (fun data_dict key =>
              col <- df_col key data ;;
              Ok (dict_set key (Arr1 col) data_dict))
           keys [].

Definition average_each_key (data_dict : dict ndarray) (keys : list string)
  : result (dict ndarray) :=
  for_each (fun average key =>
              a <- dict_get key data_dict ;;
              summed <- nansum_axis0 a ;;
              a <- dict_get key data_dict ;;
              num_not_nan <- count_not_nan_axis0 a ;;
              ratio <- nd_map2 fdiv (nd_map fsqrt summed) summed ;;
              err <- nd_map2 fmul ratio (Scalar (Fin 100)) ;;
              let average := dict_set ("E_" ++ key) err average in
              mean <- nd_map2 fdiv summed num_not_nan ;;
              Ok (dict_set key mean average))
           keys [].

Definition calculate_poisson_percentage (data_dict : dict ndarray)
  (error_keys data_keys : list string) : result (dict ndarray) :=
  for_each (fun error_dict i =>
              data_key <- item data_keys i ;;
              a <- dict_get data_key data_dict ;;
              summed_data <- nansum_axis0 a ;;
              ratio <- nd_map2 fdiv (nd_map fsqrt summed_data) summed_data ;;
              err <- nd_map2 fmul ratio (Scalar (Fin 100)) ;;
              error_key <- item error_keys i ;;
              Ok (dict_set error_key err error_dict))
           (seq 0 (List.length error_keys)) [].

Definition convert_to_rel_change (data : ndarray) : result ndarray :=
  head <- nd_head 48 data ;;
  let data_mean := nanmean (nd_flat head) in
  change <- nd_map2 fsub data (Scalar data_mean) ;;
  ratio <- nd_map2 fdiv change (Scalar data_mean) ;;
  nd_map2 fmul ratio (Scalar (Fin 100)).

Definition normalise_std (std_array data_array : ndarray) : result ndarray :=
  ratio <- nd_map2 fdiv std_array data_array ;;
  nd_map2 fmul ratio (Scalar (Fin 100)).

Definition dict_to_rel_change (data_dict : dict ndarray) (keys : list string)
  : result (dict ndarray) :=
  for_each (fun rel_change key =>
              data <- dict_get key data_dict ;;
              rc <- convert_to_rel_change data ;;
              let rel_change := dict_set key rc rel_change in
              std <- dict_get (key ++ "_std") data_dict ;;
              data <- dict_get key data_dict ;;
              ns <- normalise_std std data ;;
              Ok (dict_set (key ++ "_std") ns rel_change))
           keys [].

(** ** The aggregator *)

Record Contributing : Type := mkContributing {
  cs_name : list string;
  cs_rigidity : list float
}.

(** The local variables of [average_neutron_data] that the station loop
    updates.  [all_data] and [index] are bound only once a station has
    been accepted: until then they hold [None]. *)
Record LoopState : Type := mkLoopState {
  contributing_stations : Contributing;
  first_station : bool;
  all_data : option (dict ndarray);
  index : option (list Z)
}.

Record FinalTable : Type := mkFinalTable {
  ft_index : list Z;
  ft_columns : dict ndarray
}.

(** A run either finishes, with a value or an exception, or is still
    waiting at the path prompt when the fuel is spent. *)
Inductive outcome (A : Type) : Type :=
| Finished (r : result A)
| StillPrompting.

Arguments Finished {A} r.
Arguments StillPrompting {A}.

(** Reading a local variable. *)
Definition local {A : Type} (name : string) (v : option A) : result A :=
  match v with
  | Some a => Ok a
  | None => Err (UnboundLocalError name)
  end.

(** The expression [coscal.apply_corrections].  The module binds
    [apply_corrections] through
    [from coscal.correct_data import apply_corrections] and binds the name
    [coscal] nowhere, so looking the name up raises [NameError]. *)
Definition coscal_apply_corrections
  : result (DataFrame -> string -> float -> list string -> result DataFrame) :=
  Err (NameError "coscal").

Definition default_rigidity_range : dict float := [("min", Fin 0); ("max", Fin 20)].
Definition default_frequency : string := "3600s".

Section StationLoop.

Variable w : World.
Variables cwd operator : string.
Variables start_date stop_date : Z.
Variable rigidity_range : dict float.
Variables original_frequency new_frequency : string.
Variable excluded_stations : list string.
Variable other_keys : dict pyval.
Variable length : float.
Variable data_keys : list string.
Variable names : list string.
Variable rigidity_list : list float.

(** The body of [for i in range(0, len(names))]; [continue] leaves the
    state as it is. *)
Definition station_step (st : LoopState) (i : nat) : result LoopState :=
  name <- item names i ;;
  if existsb (String.eqb name) excluded_stations then Ok st
  else
    extension <- bind (dict_get "extension" other_keys) as_str ;;
    let filename := name ++ extension in
    rigidity <- item rigidity_list i ;;
    rmin <- dict_get "min" rigidity_range ;;
    rmax <- dict_get "max" rigidity_range ;;
    if negb (fge rigidity rmin && fle rigidity rmax) then Ok st
    else
      imported <- ImportData.import_neutron_data w cwd filename operator
                    (Some start_date) (Some stop_date) ;;
      let (station_data, valid) := (imported : DataFrame * bool) in
      if valid && negb (df_empty station_data) then
        station_data <- resample_data w station_data operator
                          original_frequency new_frequency ;;
        if negb (feq (of_nat (List.length (df_index station_data))) length)
        then Ok st
        else
          station_data <- (if String.eqb "COSMOS-UK" operator
                           then qc_check_data station_data
                           else Ok station_data) ;;
          apply_corrections <- coscal_apply_corrections ;;
          station_data <- apply_corrections station_data operator rigidity data_keys ;;
          station_data <- handle_outliers_interp station_data data_keys 1 97 ;;
          let cs := mkContributing
                      (cs_name (contributing_stations st) ++ [name])
                      (cs_rigidity (contributing_stations st) ++ [rigidity]) in
          if first_station st then
            all_data <- make_data_dict station_data data_keys ;;
            Ok (mkLoopState cs false (Some all_data) (Some (df_index station_data)))
          else
            all_data0 <- local "all_data" (all_data st) ;;
            all_data <- for_each
                          (fun all_data key =>
                             a <- dict_get key all_data ;;
                             col <- df_col key station_data ;;
                             stacked <- vstack a col ;;
                             Ok (dict_set key stacked all_data))
                          data_keys all_data0 ;;
            Ok (mkLoopState cs (first_station st) (Some all_data) (index st))
      else Ok st.

(** The four ways in which the loop passes over station [i]. *)
Inductive skipped (i : nat) : Prop :=
| excluded_by_name (name : string) :
    item names i = Ok name ->
    existsb (String.eqb name) excluded_stations = true ->
    skipped i
| outside_rigidity_range (name extension : string) (rigidity rmin rmax : float) :
    item names i = Ok name ->
    existsb (String.eqb name) excluded_stations = false ->
    dict_get "extension" other_keys = Ok (PStr extension) ->
    item rigidity_list i = Ok rigidity ->
    dict_get "min" rigidity_range = Ok rmin ->
    dict_get "max" rigidity_range = Ok rmax ->
    fge rigidity rmin && fle rigidity rmax = false ->
    skipped i
| invalid_import (name extension : string) (rigidity rmin rmax : float)
    (station_data : DataFrame) (valid : bool) :
    item names i = Ok name ->
    existsb (String.eqb name) excluded_stations = false ->
    dict_get "extension" other_keys = Ok (PStr extension) ->
    item rigidity_list i = Ok rigidity ->
    dict_get "min" rigidity_range = Ok rmin ->
    dict_get "max" rigidity_range = Ok rmax ->
    fge rigidity rmin && fle rigidity rmax = true ->
    ImportData.import_neutron_data w cwd (name ++ extension) operator
      (Some start_date) (Some stop_date) = Ok (station_data, valid) ->
    valid && negb (df_empty station_data) = false ->
    skipped i
| length_mismatch (name extension : string) (rigidity rmin rmax : float)
    (station_data resampled : DataFrame) :
    item names i = Ok name ->
    existsb (String.eqb name) excluded_stations = false ->
    dict_get "extension" other_keys = Ok (PStr extension) ->
    item rigidity_list i = Ok rigidity ->
    dict_get "min" rigidity_range = Ok rmin ->
    dict_get "max" rigidity_range = Ok rmax ->
    fge rigidity rmin && fle rigidity rmax = true ->
    ImportData.import_neutron_data w cwd (name ++ extension) operator
      (Some start_date) (Some stop_date) = Ok (station_data, true) ->
    df_empty station_data = false ->
    resample_data w station_data operator original_frequency new_frequency
      = Ok resampled ->
    feq (of_nat (List.length (df_index resampled))) length = false ->
    skipped i.

End StationLoop.

Definition initial_state : LoopState :=
  mkLoopState (mkContributing [] []) true None None.

(** What follows the two path checks. *)
Definition average_after_checks (w : World) (cwd operator : string)
  (metafile_name : string) (other_keys : dict pyval)
  (start_date stop_date : Z) (rigidity_range : dict float)
  (original_frequency new_frequency : string) (excluded_stations : list string)
  : result (FinalTable * Contributing) :=
  meta_sep <- bind (dict_get "meta_sep" other_keys) as_str ;;
  station_info <- pd_read_meta w cwd metafile_name meta_sep ;;
  name_column <- bind (dict_get "name_column" other_keys) as_str ;;
  names <- dict_get name_column (meta_text station_info) ;;
  rigidity_list <- dict_get "CutoffRigidity" (meta_numbers station_info) ;;
  data_keys <- get_data_keys operator ;;
  error_keys <- get_error_keys operator ;;
  new_frequency_td <- Timedelta new_frequency ;;
  span <- (if (new_frequency_td =? 0)%Z then Err ZeroDivisionError
           else Ok (Fin (IZR (stop_date - start_date) / IZR new_frequency_td))) ;;
  length_mod <- bind (dict_get "length_mod" other_keys) as_int ;;
  let length := (span + of_Z length_mod)%fl in
  st <- for_each
          (station_step w cwd operator start_date stop_date rigidity_range
             original_frequency new_frequency excluded_stations other_keys
             length data_keys names rigidity_list)
          (seq 0 (List.length names)) initial_state ;;
  all_data <- local "all_data" (all_data st) ;;
  average <- average_each_key all_data data_keys ;;
  rel_change <- dict_to_rel_change average data_keys ;;
  index <- local "index" (index st) ;;
  let final_df := mkFinalTable index rel_change in
  Ok (final_df, contributing_stations st).

Definition average_neutron_data (fuel : nat) (w : World) (cwd folder_path operator : string)
  (start_date stop_date : Z) (rigidity_range : dict float)
  (original_frequency new_frequency : string) (excluded_stations : list string)
  : outcome (FinalTable * Contributing) :=
  let metafile_name := "station_info.txt" in
  match check_path_exists fuel w cwd folder_path 0 with
  | Prompting _ _ => StillPrompting
  | Raised e => Finished (Err e)
  | Returned folder_path pos =>
      match os_chdir w cwd folder_path with
      | Err e => Finished (Err e)
      | Ok cwd =>
          let other_keys := get_other_keys operator in
          match check_path_exists fuel w cwd metafile_name pos with
          | Prompting _ _ => StillPrompting
          | Raised e => Finished (Err e)
          | Returned metafile_name _ =>
              Finished (average_after_checks w cwd operator metafile_name other_keys
                          start_date stop_date rigidity_range
                          original_frequency new_frequency excluded_stations)
          end
      end
  end.

End AverageData.

(* ================================================================== *)
(** * The combine step, as the specification words it

    Per timestamp: the sum of the values of the contributing stations
    that are not missing, their number, the mean as the sum over the
    number, and the Poisson percentage error of the sum. *)
(* ================================================================== *)

Module CombineSpec.

(** The values of all stations at timestamp [j]. *)
Definition column (j : nat) (ensemble : list (list float)) : list float :=
  map (fun row => nth j row NaN) ensemble.

Definition present (v : list float) : list float :=
  filter (fun x => negb (isnan x)) v.

Definition summed_counts (v : list float) : float :=
  fold_left fadd (present v) (Fin 0).

Definition contributors (v : list float) : nat := List.length (present v).

Definition mean (v : list float) : float :=
  (summed_counts v / of_nat (contributors v))%fl.

Definition poisson_percentage (v : list float) : float :=
  (fsqrt (summed_counts v) / summed_counts v * Fin 100)%fl.

(** Every station row has [n] samples, and there is at least one row. *)
Definition rectangular (n : nat) (ensemble : list (list float)) : Prop :=
  ensemble <> [] /\ Forall (fun row => List.length row = n) ensemble.

End CombineSpec.

(* ================================================================== *)
(** * The attenuation-length polynomial, as the specification words it *)
(* ================================================================== *)

Module CorrectSpec.
Import Binary64.

(** The nine constants of the attenuation-length polynomial. *)
Record Coefficients : Type := mkCoefficients {
  c0 : spec_float; c1 : spec_float; c2 : spec_float;
  c3 : spec_float; c4 : spec_float; c5 : spec_float;
  c6 : spec_float; c7 : spec_float; c8 : spec_float
}.

(** [c0 + c1 R + c2 R^2 + (c3 + c4 R) D + (c5 + c6 R) D^2 + (c7 + c8 R) D^3]
    with [D = P0 * 0.981]. *)
Definition polynomial (L : Libm) (c : Coefficients) (P0 R : spec_float) : spec_float :=
  let D := (P0 * literal 981 3)%b64 in
  (c0 c
   + c1 c * R
   + c2 c * libm_pow L R (of_int 2)
   + (c3 c + c4 c * R) * D
   + (c5 c + c6 c * R) * libm_pow L D (of_int 2)
   + (c7 c + c8 c * R) * libm_pow L D (of_int 3))%b64.

(** The literal constants [5.4196e-3], [2.2082e-4], ... *)
Definition literal_constants : Coefficients :=
  mkCoefficients (literal 54196 7) (literal 22082 8) (- literal 51952 11)%b64
                 (literal 72062 10) (- literal 19702 10)%b64 (- literal 98334 13)%b64
                 (literal 34201 13) (literal 49898 16) (- literal 17192 16)%b64.

(** The next binary64 number above. *)
Definition next_up : spec_float -> spec_float := SFsucc prec emax.

(** The literal constants, with [c1], [c4] and [c6] one unit in the last
    place higher. *)
Definition product_constants : Coefficients :=
  mkCoefficients (c0 literal_constants) (next_up (c1 literal_constants))
                 (c2 literal_constants) (c3 literal_constants)
                 (next_up (c4 literal_constants)) (c5 literal_constants)
                 (next_up (c6 literal_constants)) (c7 literal_constants)
                 (c8 literal_constants).

(** [pow] returns the binary64 number nearest to each of the six powers
    of ten the constants are written with. *)
Definition nearest_powers_of_ten (L : Libm) : Prop :=
  forall k : nat, In k [3; 4; 6; 7; 9; 12]%nat ->
    libm_pow L (of_int 10) (of_int (- Z.of_nat k)) = literal 1 k.

End CorrectSpec.

(* ================================================================== *)
(** * The date window, as the specification words it *)
(* ================================================================== *)

Module WindowSpec.

(** The timestamp range of the series covers the window. *)
Definition covers (data : DataFrame) (start stop : Z) : bool :=
  match df_index data with
  | [] => false
  | (first :: _) as idx => (first <=? start)%Z && (stop <=? last idx first)%Z
  end.

(** The half-open window [[start, stop)]. *)
Definition half_open (start stop t : Z) : bool :=
  (start <=? t)%Z && (t <? stop)%Z.

(** The closed window [[start, stop]]. *)
Definition closed (start stop t : Z) : bool :=
  (start <=? t)%Z && (t <=? stop)%Z.

(** The rows of the series whose timestamp lies in a window. *)
Definition restrict (window : Z -> bool) (data : DataFrame) : DataFrame :=
  mkDataFrame (df_columns data) (filter (fun r => window (fst r)) (df_rows data)).

End WindowSpec.

(* ================================================================== *)
(** * Outliers, as the specification words them *)
(* ================================================================== *)

Module OutlierSpec.

Definition is_finite (x : float) : bool :=
  match x with Fin _ => true | _ => false end.

Definition finite_or_missing (x : float) : bool := is_finite x || isnan x.

(** The value is not outside the bounds [[lo, hi]]. *)
Definition within (lo hi x : float) : bool := negb (fgt x hi || flt x lo).

End OutlierSpec.

(* ================================================================== *)
(** * The combined series of a field *)
(* ================================================================== *)

Module CombineSeries.
Import CombineSpec.

(** The mean at each of [n] timestamps. *)
Definition means (n : nat) (ensemble : list (list float)) : list float :=
  map (fun j => mean (column j ensemble)) (seq 0 n).

(** The Poisson percentage error at each of [n] timestamps. *)
Definition errors (n : nat) (ensemble : list (list float)) : list float :=
  map (fun j => poisson_percentage (column j ensemble)) (seq 0 n).

(** The number of dimensions of an array, and a dictionary all of whose
    arrays have a given shape. *)
Definition one_dimensional (a : ndarray) : Prop := exists v, a = Arr1 v.
Definition zero_dimensional (a : ndarray) : Prop := exists x, a = Scalar x.

Definition every_entry (shape : ndarray -> Prop) (d : dict ndarray) : Prop :=
  Forall (fun p => shape (snd p)) d.

End CombineSeries.

(* ================================================================== *)
(** * Quality flags, as the code applies them *)
(* ================================================================== *)

Module QualitySpec.

(** A value is kept where its flag is not above zero and is missing
    where it is. *)
Definition masked (values flags : list float) : list float :=
  map (fun p => if fgt (snd p) (Fin 0) then NaN else fst p) (combine values flags).

(** The ten columns the quality check reads. *)
Definition qc_columns : list string :=
  (dict_keys AverageData.get_qc_dict ++ map snd AverageData.get_qc_dict)%list.

End QualitySpec.

(* ================================================================== *)
(** * A small world for examples

    A folder with four stations of the COSMOS-UK network, none of which
    contributes to the window from [0] to two hours: one is excluded by
    name, one has too high a cutoff rigidity, the file of one starts
    after the window, and one has too few samples. *)
(* ================================================================== *)

Module Demo.

Definition hour : Z := 3600000000000.

Definition meta : MetaTable :=
  mkMetaTable
    [("SITE_ID", ["EXCL"; "HIGH"; "GAPS"; "LATE"])]
    [("CutoffRigidity", [Fin 3; Fin 25; Fin 3; Fin 3])].

Definition gaps_file : RawTable :=
  mkRawTable "DATE_TIME"
    (mkDataFrame ["CTS_MOD"] [((2 * hour)%Z, [Fin 510]); (hour, [Fin 500])]).

Definition short_file : RawTable :=
  mkRawTable "DATE_TIME"
    (mkDataFrame ["CTS_MOD"] [(0%Z, [Fin 500]); ((2 * hour)%Z, [Fin 510])]).

Definition short_frame : DataFrame := raw_frame short_file.

(** A file with one sample in the window of the first two hours and the
    next one after it. *)
Definition late_file : RawTable :=
  mkRawTable "DATE_TIME"
    (mkDataFrame ["CTS_MOD"] [(0%Z, [Fin 500]); ((3 * hour)%Z, [Fin 510])]).

Definition world : World :=
  mkWorld
    (fun _ path => String.eqb path "data" || String.eqb path "station_info.txt")
    (fun _ path => Ok path)
    (fun _ filename _ _ =>
       if String.eqb filename "GAPS.csv" then Ok gaps_file
       else if String.eqb filename "SHORT.csv" then Ok short_file
       else if String.eqb filename "LATE.csv" then Ok late_file
       else Err (OSError filename))
    (fun _ _ _ => Ok meta)
    (fun _ data => Ok data)
    (fun _ _ data => Ok data)
    (fun _ => Some "exit").

(** A world whose data files hold a header and no row. *)
Definition empty_file : RawTable :=
  mkRawTable "DATE_TIME" (mkDataFrame ["CTS_MOD"] []).

Definition empty_world : World :=
  mkWorld
    (fun _ _ => true)
    (fun _ path => Ok path)
    (fun _ _ _ _ => Ok empty_file)
    (fun _ _ _ => Ok meta)
    (fun _ data => Ok data)
    (fun _ _ data => Ok data)
    (fun _ => None).

(** The ensemble of the specification's example, for one field. *)
Definition ensemble : list (list float) :=
  [[Fin 10; Fin 20; Fin 30]; [Fin 30; Fin 40; Fin 50]].

(** Four hourly samples with one low and one high value. *)
Definition spiky : DataFrame :=
  mkDataFrame ["counts"]
    [(0%Z, [Fin 1]); (hour, [Fin 5]); ((2 * hour)%Z, [Fin 2]); ((3 * hour)%Z, [Fin 3])].

Definition spiky_once : DataFrame :=
  mkDataFrame ["counts"]
    [(0%Z, [Fin 2]); (hour, [Fin 2]); ((2 * hour)%Z, [Fin 2]); ((3 * hour)%Z, [Fin 3])].

Definition spiky_twice : DataFrame :=
  mkDataFrame ["counts"]
    [(0%Z, [Fin 2]); (hour, [Fin 2]); ((2 * hour)%Z, [Fin 2]); ((3 * hour)%Z, [Fin 2])].

(** Three hourly samples of a COSMOS-UK station with their quality
    flags; the second count and the third pressure are flagged. *)
Definition flagged : DataFrame :=
  mkDataFrame
    ["CTS_MOD"; "CTS_MOD2"; "CTS_BARE"; "PA"; "Q";
     "CTS_MOD_QCFLAG"; "CTS_MOD2_QCFLAG"; "CTS_BARE_QCFLAG"; "PA_QCFLAG"; "Q_QCFLAG"]
    [(0%Z, [Fin 500; Fin 480; Fin 900; Fin 1000; Fin 7;
            Fin 0; Fin 0; Fin 0; Fin 0; Fin 0]);
     (hour, [Fin 5; Fin 490; Fin 910; Fin 1001; Fin 7;
             Fin 2; Fin 0; Fin 0; Fin 0; Fin 0]);
     ((2 * hour)%Z, [Fin 510; Fin 495; Fin 905; Fin 0; Fin 7;
                     Fin 0; Fin 0; Fin 0; Fin 1; Fin 0])].

(** A world with one COSMOS-UK station, whose file holds the three
    flagged samples. *)
Definition flagged_meta : MetaTable :=
  mkMetaTable [("SITE_ID", ["FLAG"])] [("CutoffRigidity", [Fin 3])].

Definition flagged_world : World :=
  mkWorld
    (fun _ _ => true)
    (fun _ path => Ok path)
    (fun _ _ _ _ => Ok (mkRawTable "DATE_TIME" flagged))
    (fun _ _ _ => Ok flagged_meta)
    (fun _ data => Ok data)
    (fun _ _ data => Ok data)
    (fun _ => None).

(** Two hourly samples of a COSMOS-US station under constant pressure. *)
Definition steady : DataFrame :=
  mkDataFrame ["MOD"; "UNMO"; "PRESS"]
    [(0%Z, [Fin 100; Fin 40; Fin 1000]); (hour, [Fin 110; Fin 44; Fin 1000])].

(** A series with samples at [0], one and two hours. *)
Definition three_hours : DataFrame :=
  mkDataFrame ["counts"]
    [(0%Z, [Fin 100]); (hour, [Fin 110]); ((2 * hour)%Z, [Fin 120])].

End Demo.

(* ================================================================== *)
(** * Theorems *)
(* ================================================================== *)

Section NumberFacts.

Lemma fadd_zero_l (x : float) : (Fin 0 + x)%fl = x.
Proof. destruct x; simpl; try reflexivity. f_equal. lra. Qed.

Lemma fdiv_fin (a b : R) : b <> 0 -> (Fin a / Fin b)%fl = Fin (a / b).
Proof. intros Hb. simpl. destruct (Req_dec_T b 0); [contradiction | reflexivity]. Qed.

Lemma fadd_zero_r (x : float) : (x + Fin 0)%fl = x.
Proof. destruct x; simpl; try reflexivity. f_equal. lra. Qed.

End NumberFacts.

(** Decides a comparison between literal numbers. *)
Ltac real_arith := solve [lra | cbn [INR] in *; lra].

Ltac real_decide :=
  repeat match goal with
         | |- context [Rlt_dec ?a ?b] => destruct (Rlt_dec a b); try real_arith
         | |- context [Rle_dec ?a ?b] => destruct (Rle_dec a b); try real_arith
         | |- context [Req_dec_T ?a ?b] => destruct (Req_dec_T a b); try real_arith
         end.

Ltac float_compare :=
  unfold fge, fle, fgt, flt, feq, Rltb, Rleb, Reqb, of_nat, of_Z;
  cbn [fadd fsub fopp INR];
  real_decide; try reflexivity.

Module AverageDataFacts.
Import AverageData.

(** ** The path prompt *)

Section Prompt.

Variable w : World.
Variables cwd path : string.
Hypothesis missing : os_path_exists w cwd path = false.

Lemma check_path_step_missing (ret_path : string) (pos : nat) :
  check_path_step w cwd path ret_path pos =
  match stdin w pos with
  | None => Raised EOFError
  | Some line =>
      if String.eqb path "exit" then Raised (SystemExit 2)
      else Prompting line (S pos)
  end.
Proof. unfold check_path_step. now rewrite missing. Qed.

Lemma check_path_loop_never_returns (fuel : nat) :
  forall ret_path pos ret pos',
    check_path_loop fuel w cwd path ret_path pos <> Returned ret pos'.
Proof.
  induction fuel as [|fuel IH]; intros ret_path pos ret pos'; simpl.
  - discriminate.
  - rewrite check_path_step_missing.
    destruct (stdin w pos) as [line|]; [|discriminate].
    destruct (String.eqb path "exit"); [discriminate|].
    apply IH.
Qed.

Lemma check_path_loop_keeps_prompting (fuel : nat) :
  path <> "exit" ->
  (forall n, stdin w n <> None) ->
  forall ret_path pos,
    check_path_loop (S fuel) w cwd path ret_path pos =
    Prompting (match stdin w (pos + fuel) with Some l => l | None => ret_path end)
              (pos + S fuel).
Proof.
  intros Hexit Hendless.
  induction fuel as [|fuel IH]; intros ret_path pos.
  - simpl. rewrite check_path_step_missing.
    rewrite Nat.add_0_r, Nat.add_1_r.
    destruct (stdin w pos) as [line|] eqn:Hline; [|now apply Hendless in Hline].
    apply String.eqb_neq in Hexit. now rewrite Hexit.
  - change (check_path_loop (S (S fuel)) w cwd path ret_path pos)
      with (match check_path_step w cwd path ret_path pos with
            | Prompting r p => check_path_loop (S fuel) w cwd path r p
            | st => st
            end).
    rewrite check_path_step_missing.
    destruct (stdin w pos) as [line|] eqn:Hline; [|now apply Hendless in Hline].
    pose proof Hexit as Hneq. apply String.eqb_neq in Hneq. rewrite Hneq.
    rewrite IH.
    replace (S pos + fuel)%nat with (pos + S fuel)%nat by lia.
    replace (S pos + S fuel)%nat with (pos + S (S fuel))%nat by lia.
    destruct (stdin w (pos + S fuel)) as [l|] eqn:Hl; [reflexivity|].
    now apply Hendless in Hl.
Qed.

End Prompt.

(** C9. When the path does not exist, [check_path_exists] never leaves
    its loop through [break]: whatever is typed, no number of passes ends
    in a returned path.  The tests look at the argument [path] only, so
    with an endless console and a path other than the word exit the loop
    is still prompting after every number of passes, having stored the
    last line typed (also when that line is the word exit); when the path
    is itself the word exit, the first pass ends the program with exit
    status 2 whatever is typed. *)
Theorem check_path_exists_never_returns (w : World) (cwd path : string) :
  os_path_exists w cwd path = false ->
  (forall fuel pos ret pos',
      check_path_exists fuel w cwd path pos <> Returned ret pos')
  /\ (path <> "exit" -> (forall n, stdin w n <> None) ->
      forall fuel pos,
        check_path_exists (S fuel) w cwd path pos =
        Prompting (match stdin w (pos + fuel) with Some l => l | None => path end)
                  (pos + S fuel))
  /\ (path = "exit" ->
      forall fuel pos line, stdin w pos = Some line ->
        check_path_exists (S fuel) w cwd path pos = Raised (SystemExit 2)).
Proof.
  intros Hmissing. repeat split.
  - intros fuel pos ret pos'. apply check_path_loop_never_returns; assumption.
  - intros Hexit Hendless fuel pos.
    apply check_path_loop_keeps_prompting; assumption.
  - intros -> fuel pos line Hline. unfold check_path_exists. simpl.
    rewrite check_path_step_missing by assumption. now rewrite Hline.
Qed.

Lemma check_path_exists_never_returns_witness :
  os_path_exists Demo.world "." "nowhere" = false
  /\ (forall fuel pos ret pos',
        check_path_exists fuel Demo.world "." "nowhere" pos <> Returned ret pos').
Proof.
  split; [reflexivity|].
  apply (check_path_exists_never_returns Demo.world "." "nowhere"). reflexivity.
Defined.

(** ** Resampling *)

Lemma Timedelta_3600s : Timedelta "3600s" = Ok (3600 * 1000000000)%Z.
Proof. reflexivity. Qed.

Lemma Timedelta_10800s : Timedelta "10800s" = Ok (3 * (3600 * 1000000000))%Z.
Proof. reflexivity. Qed.

(** The branch [resample_data] takes, for frequencies that parse. *)
Lemma resample_data_branches (w : World) (data : DataFrame)
  (operator original_frequency new_frequency : string) (o n : Z) :
  Timedelta original_frequency = Ok o ->
  Timedelta new_frequency = Ok n ->
  o <> 0%Z ->
  resample_data w data operator original_frequency new_frequency =
  if (o =? n)%Z then pd_resample_nearest w new_frequency data
  else if str_gt new_frequency original_frequency then
    if (n mod o =? 0)%Z then
      resampler_dict <- get_resampler_dict operator ;;
      pd_resample_agg w new_frequency resampler_dict data
    else Err (ValueError "New frequency must be a multiple of the original frequency")
  else Err (ValueError "New frequency must be = n * original frequency for n an int > 0").
Proof.
  intros Ho Hn Hnz. unfold resample_data. rewrite Ho, Hn. simpl.
  destruct (o =? n)%Z; [reflexivity|].
  destruct (str_gt new_frequency original_frequency); [|reflexivity].
  unfold is_multiple. simpl.
  apply Z.eqb_neq in Hnz. rewrite Hnz. reflexivity.
Qed.

(** C2, at the input that fails.  Three hours is three times one hour,
    yet resampling hourly data to ['10800s'] raises the error of the last
    branch: the test [new_frequency > original_frequency] compares the two
    strings, and ['10800s'] sorts before ['3600s']. *)
Theorem resample_data_compares_strings (w : World) (data : DataFrame)
  (operator : string) :
  Timedelta "3600s" = Ok (3600 * 1000000000)%Z
  /\ Timedelta "10800s" = Ok (3 * (3600 * 1000000000))%Z
  /\ str_gt "10800s" "3600s" = false
  /\ resample_data w data operator "3600s" "10800s" =
     Err (ValueError "New frequency must be = n * original frequency for n an int > 0").
Proof. repeat split; reflexivity. Qed.

(** A duration beyond [2^63 - 1] nanoseconds does not parse, and a
    number beyond [2^53] is rounded on the way. *)
Example Timedelta_out_of_range :
  Timedelta "9223372037s" = Err OverflowError
  /\ Timedelta "9223372036s" = Ok 9223372036000000000%Z
  /\ Timedelta "9007199254740993ns" = Ok 9007199254740992%Z.
Proof. repeat split; vm_compute; reflexivity. Qed.

Example resample_data_two_hours (w : World) (data : DataFrame) :
  resample_data w data "COSMOS-UK" "3600s" "7200s" =
  pd_resample_agg w "7200s"
    [("CTS_MOD", "sum"); ("CTS_MOD2", "sum"); ("CTS_BARE", "sum");
     ("PA", "mean"); ("Q", "mean"); ("CTS_MOD_QCFLAG", "sum");
     ("CTS_MOD2_QCFLAG", "sum"); ("CTS_BARE_QCFLAG", "sum");
     ("PA_QCFLAG", "sum"); ("Q_QCFLAG", "sum")] data.
Proof. reflexivity. Qed.

(** ** The station loop when no station contributes *)

Section Skipping.

Variable w : World.
Variables cwd operator : string.
Variables start_date stop_date : Z.
Variable rigidity_range : dict float.
Variables original_frequency new_frequency : string.
Variable excluded_stations : list string.
Variable other_keys : dict pyval.
Variable length : float.
Variable data_keys : list string.
Variable names : list string.
Variable rigidity_list : list float.

Let step := station_step w cwd operator start_date stop_date rigidity_range
              original_frequency new_frequency excluded_stations other_keys
              length data_keys names rigidity_list.

Let skip := skipped w cwd operator start_date stop_date rigidity_range
              original_frequency new_frequency excluded_stations other_keys
              length names rigidity_list.

Lemma station_step_skipped (st : LoopState) (i : nat) :
  skip i -> step st i = Ok st.
Proof.
  unfold skip, step, station_step.
  intros [name Hname Hex
         | name ext r rmin rmax Hname Hex Hext Hr Hmin Hmax Hrange
         | name ext r rmin rmax d valid Hname Hex Hext Hr Hmin Hmax Hrange Himp Hval
         | name ext r rmin rmax d d' Hname Hex Hext Hr Hmin Hmax Hrange Himp Hne Hres Hlen];
    rewrite Hname; cbn [bind]; rewrite Hex; try reflexivity;
    rewrite Hext; cbn [bind as_str]; rewrite Hr; cbn [bind];
    rewrite Hmin; cbn [bind]; rewrite Hmax; cbn [bind]; rewrite Hrange;
    cbn [negb]; try reflexivity;
    rewrite Himp; cbn [bind].
  - now rewrite Hval.
  - rewrite Hne. cbn [andb negb]. rewrite Hres. cbn [bind]. now rewrite Hlen.
Qed.

Lemma station_loop_all_skipped (st : LoopState) (stations : list nat) :
  Forall skip stations -> for_each step stations st = Ok st.
Proof.
  induction 1 as [|i stations Hi _ IH]; [reflexivity|].
  cbn [for_each]. rewrite (station_step_skipped st i Hi). exact IH.
Qed.

End Skipping.

(** C3, as the code behaves.  In a run whose folder and metadata file
    exist, for an operator with data and error keys, when every station
    is passed over (excluded by name, outside the rigidity range, invalid
    or empty import, or resampled to the wrong length), the run does not
    return a table: the name [all_data], bound only when a first station
    is accepted, is read after the loop and the run ends with
    [UnboundLocalError]. *)
Theorem average_neutron_data_all_skipped
  (fuel : nat) (w : World) (cwd folder_path operator : string)
  (start_date stop_date : Z) (rigidity_range : dict float)
  (original_frequency new_frequency : string) (excluded_stations : list string)
  (data_cwd meta_sep name_column : string) (length_mod td : Z)
  (station_info : MetaTable) (names : list string) (rigidity_list : list float)
  (data_keys error_keys : list string) :
  os_path_exists w cwd folder_path = true ->
  os_chdir w cwd folder_path = Ok data_cwd ->
  os_path_exists w data_cwd "station_info.txt" = true ->
  dict_get "meta_sep" (get_other_keys operator) = Ok (PStr meta_sep) ->
  dict_get "name_column" (get_other_keys operator) = Ok (PStr name_column) ->
  dict_get "length_mod" (get_other_keys operator) = Ok (PInt length_mod) ->
  pd_read_meta w data_cwd "station_info.txt" meta_sep = Ok station_info ->
  dict_get name_column (meta_text station_info) = Ok names ->
  dict_get "CutoffRigidity" (meta_numbers station_info) = Ok rigidity_list ->
  get_data_keys operator = Ok data_keys ->
  get_error_keys operator = Ok error_keys ->
  Timedelta new_frequency = Ok td ->
  td <> 0%Z ->
  (forall i, (i < List.length names)%nat ->
     skipped w data_cwd operator start_date stop_date rigidity_range
       original_frequency new_frequency excluded_stations
       (get_other_keys operator)
       (Fin (IZR (stop_date - start_date) / IZR td) + of_Z length_mod)%fl
       names rigidity_list i) ->
  average_neutron_data (S fuel) w cwd folder_path operator start_date stop_date
    rigidity_range original_frequency new_frequency excluded_stations
  = Finished (Err (UnboundLocalError "all_data")).
Proof.
  intros Hfolder Hchdir Hmeta Hsep Hcol Hmod Hread Hnames Hrig Hdk Hek Htd Hnz Hskip.
  unfold average_neutron_data, check_path_exists.
  cbn [check_path_loop]. unfold check_path_step.
  rewrite Hfolder, Hchdir, Hmeta. f_equal.
  unfold average_after_checks.
  rewrite Hsep; cbn [bind as_str]. rewrite Hread; cbn [bind].
  rewrite Hcol; cbn [bind as_str]. rewrite Hnames; cbn [bind].
  rewrite Hrig; cbn [bind]. rewrite Hdk; cbn [bind]. rewrite Hek; cbn [bind].
  rewrite Htd; cbn [bind].
  apply Z.eqb_neq in Hnz. rewrite Hnz; cbn [bind].
  rewrite Hmod; cbn [bind as_int].
  rewrite station_loop_all_skipped.
  - reflexivity.
  - apply Forall_forall. intros i Hi. apply in_seq in Hi. apply Hskip. lia.
Qed.

Lemma average_neutron_data_all_skipped_witness :
  average_neutron_data 1 Demo.world "." "data" "COSMOS-UK" 0 (2 * Demo.hour)
    default_rigidity_range "3600s" "3600s" ["EXCL"]
  = Finished (Err (UnboundLocalError "all_data")).
Proof.
  apply (average_neutron_data_all_skipped 0 Demo.world "." "data" "COSMOS-UK"
           0 (2 * Demo.hour) default_rigidity_range "3600s" "3600s" ["EXCL"]
           "data" "," "SITE_ID" 1 Demo.hour Demo.meta
           ["EXCL"; "HIGH"; "GAPS"; "LATE"] [Fin 3; Fin 25; Fin 3; Fin 3]
           ["CTS_MOD"] ["E_CTS_MOD"]);
    try reflexivity.
  - discriminate.
  - intros i Hi.
    destruct i as [|[|[|[|i]]]]; [| | | |simpl in Hi; lia].
    + apply excluded_by_name with (name := "EXCL"); reflexivity.
    + apply outside_rigidity_range
        with (name := "HIGH") (extension := ".csv") (rigidity := Fin 25)
             (rmin := Fin 0) (rmax := Fin 20); try reflexivity.
      float_compare.
    + apply invalid_import
        with (name := "GAPS") (extension := ".csv") (rigidity := Fin 3)
             (rmin := Fin 0) (rmax := Fin 20)
             (station_data := mkDataFrame ["CTS_MOD"]
                                [(Demo.hour, [Fin 500]); ((2 * Demo.hour)%Z, [Fin 510])])
             (valid := false); try reflexivity.
      float_compare.
    + apply length_mismatch
        with (name := "LATE") (extension := ".csv") (rigidity := Fin 3)
             (rmin := Fin 0) (rmax := Fin 20)
             (station_data := mkDataFrame ["CTS_MOD"] [(0%Z, [Fin 500])])
             (resampled := mkDataFrame ["CTS_MOD"] [(0%Z, [Fin 500])]);
          try reflexivity.
      * float_compare.
      * change (List.length (df_index (mkDataFrame ["CTS_MOD"] [(0%Z, [Fin 500])])))
          with 1%nat.
        change (2 * Demo.hour - 0)%Z with 7200000000000%Z.
        unfold Demo.hour. float_compare.
Defined.

(** ** From the averages to the relative change *)

Lemma nd_map2_scalar_r (f : float -> float -> float) (a : ndarray) (y : float) :
  nd_map2 f a (Scalar y) = Ok (nd_map (fun x => f x y) a).
Proof. destruct a; reflexivity. Qed.

(** [convert_to_rel_change] fails only on a zero-dimensional value. *)
Lemma convert_to_rel_change_error (data : ndarray) (e : exn) :
  convert_to_rel_change data = Err e -> exists msg, e = IndexError msg.
Proof.
  unfold convert_to_rel_change.
  destruct data as [x|v|m]; cbn [nd_head bind].
  - intros [= <-]. eauto.
  - rewrite !nd_map2_scalar_r. cbn [bind]. rewrite nd_map2_scalar_r. discriminate.
  - rewrite !nd_map2_scalar_r. cbn [bind]. rewrite nd_map2_scalar_r. discriminate.
Qed.

(** Steps through the binds of the hypotheses that say a computation
    succeeded. *)
Ltac step_binds :=
  repeat match goal with
         | H : bind ?c _ = Ok _ |- _ =>
             let E := fresh "E" in
             destruct c eqn:E; cbn [bind] in H; [|discriminate H]
         | H : Ok _ = Ok ?a |- _ => is_var a; injection H as <-
         end.

(** The first key fails in [dict_to_rel_change] once the averages hold the
    entries [E_key] and [key] only. *)
Ltac first_key_fails :=
  unfold dict_to_rel_change; cbn [for_each];
  unfold dict_get at 1; cbn [dict_find String.eqb Ascii.eqb Bool.eqb bind];
  match goal with
  | |- context [convert_to_rel_change ?m] =>
      let Hrc := fresh "Hrc" in
      destruct (convert_to_rel_change m) as [rc|e] eqn:Hrc; cbn [bind];
      [ eexists; split; [reflexivity | left; reflexivity]
      | eexists; split;
        [reflexivity | right; eapply convert_to_rel_change_error; eassumption] ]
  end.

(** C1, as the code behaves.  For the data keys of every operator, the
    averages that [average_each_key] returns hold the error series of a
    field under the name [E_field]; [dict_to_rel_change] looks it up under
    [field_std], so instead of normalising the error it raises [KeyError]
    for the first field (or [IndexError] before that, when the average of
    the field is a single number). *)
Theorem dict_to_rel_change_key_error
  (operator : string) (keys : list string) (data_dict average : dict ndarray) :
  get_data_keys operator = Ok keys ->
  average_each_key data_dict keys = Ok average ->
  exists e,
    dict_to_rel_change average keys = Err e
    /\ (e = KeyError (hd "" keys ++ "_std") \/ exists msg, e = IndexError msg).
Proof.
  unfold get_data_keys. intros Hkeys Havg.
  destruct (String.eqb "COSMOS-US" operator);
    [|destruct (String.eqb "COSMOS-UK" operator);
      [|destruct (String.eqb "NMDB" operator); [|discriminate Hkeys]]];
    injection Hkeys as <-;
    unfold average_each_key in Havg; cbn [for_each] in Havg;
    step_binds;
    cbn [dict_set append String.eqb Ascii.eqb Bool.eqb hd].
  all: first_key_fails.
Qed.

Lemma dict_to_rel_change_key_error_witness :
  exists average,
    average_each_key [("CTS_MOD", Arr2 Demo.ensemble)] ["CTS_MOD"] = Ok average
    /\ exists e,
        dict_to_rel_change average ["CTS_MOD"] = Err e
        /\ (e = KeyError "CTS_MOD_std" \/ exists msg, e = IndexError msg).
Proof.
  eexists. split; [reflexivity|].
  apply (dict_to_rel_change_key_error "COSMOS-UK" ["CTS_MOD"]
           [("CTS_MOD", Arr2 Demo.ensemble)]); reflexivity.
Defined.

(** The averages of the example ensemble, passed on as the aggregator
    does. *)
Example dict_to_rel_change_example :
  bind (average_each_key [("CTS_MOD", Arr2 Demo.ensemble)] ["CTS_MOD"])
       (fun average => dict_to_rel_change average ["CTS_MOD"])
  = Err (KeyError "CTS_MOD_std").
Proof. reflexivity. Qed.

End AverageDataFacts.

Module CombineFacts.
Import AverageData CombineSpec.

Lemma row_add_length (acc row : list float) :
  List.length row = List.length acc ->
  List.length (row_add acc row) = List.length acc.
Proof.
  intros H. unfold row_add. rewrite length_map, length_combine. lia.
Qed.

Lemma row_count_length (acc : list nat) (row : list float) :
  List.length row = List.length acc ->
  List.length (row_count acc row) = List.length acc.
Proof.
  intros H. unfold row_count. rewrite length_map, length_combine. lia.
Qed.

Lemma nth_row_add (j : nat) :
  forall acc row,
    (j < List.length acc)%nat -> (j < List.length row)%nat ->
    nth j (row_add acc row) NaN = (nth j acc NaN + nth j row NaN)%fl.
Proof.
  induction j as [|j IH]; intros [|a acc] [|r row] Ha Hr; simpl in *; try lia.
  - reflexivity.
  - apply IH; lia.
Qed.

Lemma nth_row_count (j : nat) :
  forall acc row,
    (j < List.length acc)%nat -> (j < List.length row)%nat ->
    nth j (row_count acc row) O
    = (nth j acc O + (if isnan (nth j row NaN) then 0 else 1))%nat.
Proof.
  induction j as [|j IH]; intros [|a acc] [|r row] Ha Hr; simpl in *; try lia.
  apply IH; lia.
Qed.

Lemma nth_nan_to_zero (j : nat) (row : list float) :
  (j < List.length row)%nat ->
  nth j (map nan_to_zero row) NaN = nan_to_zero (nth j row NaN).
Proof.
  revert row. induction j as [|j IH]; intros [|r row] H; simpl in *; try lia.
  - reflexivity.
  - apply IH. lia.
Qed.

Section Columns.

Variable n : nat.
Variable j : nat.
Hypothesis j_in_range : (j < n)%nat.

(** Adding up the rows gives, at position [j], the sum of column [j]. *)
Lemma nansum_rows_column (m : list (list float)) :
  Forall (fun row => List.length row = n) m ->
  forall acc, List.length acc = n ->
    let total := fold_left (fun acc row => row_add acc (map nan_to_zero row)) m acc in
    List.length total = n
    /\ nth j total NaN
       = fold_left fadd (map nan_to_zero (column j m)) (nth j acc NaN).
Proof.
  induction 1 as [|row m Hrow _ IH]; intros acc Hacc; cbn [fold_left column map].
  - split; [assumption | reflexivity].
  - assert (Hlen : List.length (row_add acc (map nan_to_zero row)) = n).
    { rewrite row_add_length; rewrite ?length_map; congruence. }
    destruct (IH _ Hlen) as [IH1 IH2]. split; [exact IH1|].
    rewrite IH2. f_equal.
    rewrite nth_row_add by (rewrite ?length_map; lia).
    rewrite nth_nan_to_zero by lia. reflexivity.
Qed.

Lemma count_rows_column (m : list (list float)) :
  Forall (fun row => List.length row = n) m ->
  forall acc, List.length acc = n ->
    let total := fold_left row_count m acc in
    List.length total = n
    /\ nth j total O = (nth j acc O + contributors (column j m))%nat.
Proof.
  induction 1 as [|row m Hrow _ IH]; intros acc Hacc; cbn [fold_left column map].
  - split; [assumption | unfold contributors; simpl; lia].
  - assert (Hlen : List.length (row_count acc row) = n).
    { rewrite row_count_length; congruence. }
    destruct (IH _ Hlen) as [IH1 IH2]. split; [exact IH1|].
    rewrite IH2, nth_row_count by lia.
    unfold contributors, present, column. cbn [filter].
    destruct (isnan (nth j row NaN)); cbn [negb List.length]; lia.
Qed.

End Columns.

(** Replacing the missing values by zero and summing is summing the
    values that are present. *)
Lemma nansum_present (v : list float) (a : float) :
  fold_left fadd (map nan_to_zero v) a = fold_left fadd (present v) a.
Proof.
  revert a. induction v as [|x v IH]; intros a; [reflexivity|].
  cbn [map fold_left present filter].
  destruct (isnan x) eqn:Hx; cbn [negb fold_left].
  - replace (nan_to_zero x) with (Fin 0) by (unfold nan_to_zero; now rewrite Hx).
    rewrite fadd_zero_r. apply IH.
  - replace (nan_to_zero x) with x by (unfold nan_to_zero; now rewrite Hx).
    apply IH.
Qed.

Lemma nth_repeat_lt {A : Type} (x d : A) (k i : nat) :
  (i < k)%nat -> nth i (repeat x k) d = x.
Proof.
  revert i. induction k as [|k IH]; intros [|i] H; simpl; try lia; try reflexivity.
  apply IH. lia.
Qed.

Lemma ncols_rectangular (n : nat) (m : list (list float)) :
  rectangular n m -> ncols m = n.
Proof.
  intros [Hne Hall]. destruct m as [|row m]; [contradiction|].
  now inversion Hall.
Qed.

Lemma key_not_error_key (key : string) : String.eqb key ("E_" ++ key) = false.
Proof.
  apply String.eqb_neq. intros H.
  apply (f_equal String.length) in H. simpl in H. lia.
Qed.

Lemma zip_with_same_length {A B C : Type} (f : A -> B -> C) :
  forall (xs : list A) (ys : list B),
    List.length xs = List.length ys ->
    exists zs,
      zip_with f xs ys = Some zs
      /\ List.length zs = List.length xs
      /\ forall j dx dy dz, (j < List.length xs)%nat ->
           nth j zs dz = f (nth j xs dx) (nth j ys dy).
Proof.
  induction xs as [|x xs IH]; intros [|y ys] Hlen; simpl in Hlen; try lia.
  - exists []. repeat split. intros j dx dy dz Hj. simpl in Hj. lia.
  - destruct (IH ys) as (zs & Hz & Hl & Hn); [lia|].
    exists (f x y :: zs). cbn [zip_with]. rewrite Hz. repeat split.
    + simpl. now rewrite Hl.
    + intros [|j] dx dy dz Hj; simpl in *; [reflexivity|].
      apply Hn. lia.
Qed.

Lemma nth_map_lt {A B : Type} (g : A -> B) (l : list A) (j : nat) (da : A) (db : B) :
  (j < List.length l)%nat -> nth j (map g l) db = g (nth j l da).
Proof.
  revert j. induction l as [|x l IH]; intros [|j] H; simpl in *; try lia.
  - reflexivity.
  - apply IH. lia.
Qed.

(** The ensemble of the example, combined. *)
Lemma average_each_key_ensemble :
  average_each_key [("counts", Arr2 Demo.ensemble)] ["counts"]
  = Ok [("E_counts", Arr1 [Fin (sqrt 40 / 40 * 100);
                           Fin (sqrt 60 / 60 * 100);
                           Fin (sqrt 80 / 80 * 100)]);
        ("counts", Arr1 [Fin 20; Fin 30; Fin 40])].
Proof.
  unfold average_each_key, Demo.ensemble.
  cbn -[fdiv fmul fsqrt fadd INR].
  cbn [fadd INR].
  replace (0 + 10 + 30) with 40 by lra.
  replace (0 + 20 + 40) with 60 by lra.
  replace (0 + 30 + 50) with 80 by lra.
  unfold fsqrt, fdiv, fmul, of_nat. cbn [INR]. real_decide.
  repeat f_equal; lra.
Qed.

(** C4. For an ensemble of station rows of equal length, the combine step
    returns for every timestamp the mean as the sum of the values present
    over the number of stations that contribute them, and the Poisson
    percentage error [sqrt(sum) / sum * 100] of that sum (of the sum, not
    of the mean).  In particular the rows [10, 20, 30] and [30, 40, 50]
    give the means [20, 30, 40] and the errors of the sums [40, 60, 80]. *)
Theorem average_each_key_combine :
  (forall (data_dict : dict ndarray) (key : string)
          (ensemble : list (list float)) (n : nat),
      dict_get key data_dict = Ok (Arr2 ensemble) ->
      rectangular n ensemble ->
      exists errors means,
        average_each_key data_dict [key]
        = Ok [("E_" ++ key, Arr1 errors); (key, Arr1 means)]
        /\ List.length means = n
        /\ List.length errors = n
        /\ forall j, (j < n)%nat ->
             nth j means NaN = mean (column j ensemble)
             /\ nth j errors NaN = poisson_percentage (column j ensemble))
  /\ average_each_key [("counts", Arr2 Demo.ensemble)] ["counts"]
     = Ok [("E_counts", Arr1 [Fin (sqrt 40 / 40 * 100);
                              Fin (sqrt 60 / 60 * 100);
                              Fin (sqrt 80 / 80 * 100)]);
           ("counts", Arr1 [Fin 20; Fin 30; Fin 40])].
Proof.
  split; [|exact average_each_key_ensemble].
  intros data_dict key m n Hget Hrect.
  pose proof (ncols_rectangular n m Hrect) as Hcols.
  destruct Hrect as [_ Hall].
  unfold average_each_key. cbn [for_each]. rewrite Hget.
  cbn [bind nansum_axis0 count_not_nan_axis0 nd_map]. rewrite Hcols.
  set (total := fold_left (fun acc row => row_add acc (map nan_to_zero row)) m
                  (repeat (Fin 0) n)).
  set (counts := fold_left row_count m (repeat O n)).
  assert (Htotal : List.length total = n).
  { destruct n as [|k].
    - subst total. clear -Hall. induction Hall as [|row m Hrow _ IH]; [reflexivity|].
      cbn [fold_left repeat row_add combine map]. exact IH.
    - apply (nansum_rows_column (S k) O (Nat.lt_0_succ k) m Hall).
      apply repeat_length. }
  assert (Hcounts : List.length counts = n).
  { destruct n as [|k].
    - subst counts. clear -Hall. induction Hall as [|row m Hrow _ IH]; [reflexivity|].
      cbn [fold_left repeat row_count combine map]. exact IH.
    - apply (count_rows_column (S k) O (Nat.lt_0_succ k) m Hall).
      apply repeat_length. }
  destruct (zip_with_same_length fdiv (map fsqrt total) total)
    as (ratio & Hratio & Hratio_len & Hratio_nth);
    [now rewrite length_map|].
  destruct (zip_with_same_length fdiv total (map of_nat counts))
    as (means & Hmeans & Hmeans_len & Hmeans_nth);
    [rewrite length_map; congruence|].
  cbn [nd_map2]. rewrite Hratio. cbn [lift_shape bind nd_map].
  rewrite Hmeans. cbn [lift_shape bind dict_set].
  rewrite key_not_error_key.
  exists (map (fun x => (x * Fin 100)%fl) ratio), means.
  rewrite length_map in Hratio_len.
  split; [reflexivity|]. split; [congruence|].
  split; [rewrite length_map; congruence|].
  intros j Hj.
  destruct (nansum_rows_column n j Hj m Hall (repeat (Fin 0) n) (repeat_length _ _))
    as [_ Hsum].
  destruct (count_rows_column n j Hj m Hall (repeat O n) (repeat_length _ _))
    as [_ Hcount].
  fold total in Hsum. fold counts in Hcount.
  rewrite nth_repeat_lt in Hsum by exact Hj.
  rewrite nth_repeat_lt in Hcount by exact Hj.
  rewrite nansum_present in Hsum. simpl in Hcount.
  split.
  - rewrite (Hmeans_nth j NaN NaN NaN) by lia.
    rewrite (nth_map_lt of_nat counts j O NaN) by lia.
    rewrite Hsum, Hcount. reflexivity.
  - rewrite (nth_map_lt _ ratio j NaN NaN) by lia.
    rewrite (Hratio_nth j NaN NaN NaN) by (rewrite length_map; lia).
    rewrite (nth_map_lt fsqrt total j NaN NaN) by lia.
    rewrite Hsum. reflexivity.
Qed.

Lemma average_each_key_combine_witness :
  rectangular 3 Demo.ensemble
  /\ exists errors means,
       average_each_key [("counts", Arr2 Demo.ensemble)] ["counts"]
       = Ok [("E_counts", Arr1 errors); ("counts", Arr1 means)]
       /\ List.length means = 3%nat
       /\ List.length errors = 3%nat
       /\ forall j, (j < 3)%nat ->
            nth j means NaN = mean (column j Demo.ensemble)
            /\ nth j errors NaN = poisson_percentage (column j Demo.ensemble).
Proof.
  assert (Hrect : rectangular 3 Demo.ensemble).
  { split; [discriminate|]. repeat constructor. }
  split; [exact Hrect|].
  exact (proj1 average_each_key_combine
           [("counts", Arr2 Demo.ensemble)] "counts" Demo.ensemble 3%nat
           eq_refl Hrect).
Defined.

End CombineFacts.

Module ImportDataFacts.
Import ImportData WindowSpec.

Section SortedIndex.

Variables start stop : Z.

Let before_start (t : Z) : bool := (t <? start)%Z.
Let up_to_stop (t : Z) : bool := (t <=? stop)%Z.

(** After a timestamp beyond the window, a sorted series has no row in
    the window. *)
Lemma nothing_after_stop (t : Z) (rows : list (Z * list float)) :
  (stop < t)%Z ->
  Forall (fun t' => (t <= t')%Z) (map fst rows) ->
  filter (fun r => closed start stop (fst r)) rows = [].
Proof.
  intros Ht. induction rows as [|r rows IH]; intros Hall; [reflexivity|].
  inversion Hall as [|t' idx Hr Hrest]; subst. cbn [filter].
  unfold closed at 1.
  replace (fst r <=? stop)%Z with false by (symmetry; apply Z.leb_gt; lia).
  rewrite andb_false_r. now apply IH.
Qed.

(** Past the start of the window, the rows of a sorted series are
    selected up to the last one at or before [stop]. *)
Lemma firstn_up_to_stop (t : Z) (rows : list (Z * list float)) :
  (start <= t)%Z ->
  StronglySorted Z.le (map fst rows) ->
  Forall (fun t' => (t <= t')%Z) (map fst rows) ->
  firstn (count_while up_to_stop (map fst rows)) rows
  = filter (fun r => closed start stop (fst r)) rows.
Proof.
  intros Ht. induction rows as [|r rows IH]; intros Hsorted Hall; [reflexivity|].
  inversion Hsorted as [|t' idx Hsorted' Hle]; subst.
  inversion Hall as [|t' idx Hr Hrest]; subst.
  cbn [map count_while filter]. unfold up_to_stop at 1, closed at 1.
  replace (start <=? fst r)%Z with true by (symmetry; apply Z.leb_le; lia).
  cbn [andb].
  destruct (fst r <=? stop)%Z eqn:Hstop.
  - cbn [firstn]. f_equal. apply IH; assumption.
  - cbn [firstn]. symmetry. apply nothing_after_stop with (t := fst r).
    + apply Z.leb_gt in Hstop. lia.
    + exact Hle.
Qed.

(** Label slicing of a sorted series selects the rows of the closed
    window. *)
Lemma label_slice_sorted (rows : list (Z * list float)) :
  StronglySorted Z.le (map fst rows) ->
  skipn (count_while before_start (map fst rows))
        (firstn (count_while up_to_stop (map fst rows)) rows)
  = filter (fun r => closed start stop (fst r)) rows.
Proof.
  induction rows as [|r rows IH]; intros Hsorted; [reflexivity|].
  inversion Hsorted as [|t' idx Hsorted' Hle]; subst.
  cbn [map count_while]. unfold before_start at 1.
  destruct (fst r <? start)%Z eqn:Hstart.
  - unfold up_to_stop at 1. cbn [filter]. unfold closed at 1.
    replace (start <=? fst r)%Z with false
      by (symmetry; apply Z.leb_gt; apply Z.ltb_lt in Hstart; lia).
    cbn [andb].
    destruct (fst r <=? stop)%Z eqn:Hstop.
    + cbn [firstn skipn]. apply IH. assumption.
    + cbn [firstn skipn]. symmetry.
      apply nothing_after_stop with (t := fst r).
      * apply Z.leb_gt in Hstop. lia.
      * exact Hle.
  - cbn [skipn]. apply Z.ltb_ge in Hstart.
    change (firstn (count_while up_to_stop (map fst (r :: rows))) (r :: rows)
            = filter (fun r0 => closed start stop (fst r0)) (r :: rows)).
    apply firstn_up_to_stop with (t := fst r).
    + exact Hstart.
    + exact Hsorted.
    + constructor; [lia | exact Hle].
Qed.

End SortedIndex.

Lemma label_slice_closed_window (data : DataFrame) (start stop : Z) :
  Sorted Z.le (df_index data) ->
  label_slice data start stop = restrict (closed start stop) data.
Proof.
  intros Hsorted. unfold label_slice, restrict, df_index. f_equal.
  apply label_slice_sorted.
  apply Sorted_StronglySorted; [|exact Hsorted].
  intros x y z Hxy Hyz. lia.
Qed.

Lemma date_valid_covers (data : DataFrame) (start stop : Z) :
  df_rows data <> [] ->
  date_valid data start stop = Ok (covers data start stop).
Proof.
  intros Hne. unfold date_valid, covers, df_index.
  destruct (df_rows data) as [|r rows]; [contradiction|].
  cbn [map]. rewrite Z.geb_leb.
  match goal with
  | |- (if ?b then Ok true else Ok false) = _ => destruct b; reflexivity
  end.
Qed.

(** C5, as the code behaves.  For a non-empty series sorted by
    timestamp: when its timestamp range does not cover the window, the
    importer reports invalid and returns the table as it is; when it does,
    the importer returns the rows of the closed window [[start, stop]]
    (a row stamped exactly [stop] is kept) with validity true, unless no
    row lies in it, in which case it reports invalid and returns the table
    as it is. *)
Theorem slice_data_for_dates_closed_window (data : DataFrame) (start stop : Z) :
  df_rows data <> [] ->
  Sorted Z.le (df_index data) ->
  slice_data_for_dates data start stop =
  Ok (if covers data start stop
      then if df_empty (restrict (closed start stop) data)
           then (data, false)
           else (restrict (closed start stop) data, true)
      else (data, false)).
Proof.
  intros Hne Hsorted. unfold slice_data_for_dates.
  rewrite date_valid_covers by exact Hne. cbn [bind].
  rewrite label_slice_closed_window by exact Hsorted.
  destruct (covers data start stop); [|reflexivity].
  destruct (df_empty (restrict (closed start stop) data)); reflexivity.
Qed.

Lemma slice_data_for_dates_closed_window_witness :
  slice_data_for_dates Demo.three_hours 0 (2 * Demo.hour)
  = Ok (Demo.three_hours, true).
Proof.
  rewrite (slice_data_for_dates_closed_window Demo.three_hours 0 (2 * Demo.hour)).
  - reflexivity.
  - discriminate.
  - repeat constructor; discriminate.
Defined.

(** The specification's half-open window against the code: the series
    with samples at [0], one and two hours covers the window from [0] to
    two hours, and the importer returns all three rows, the one stamped
    two hours included, where the half-open window holds two. *)
Lemma slice_data_for_dates_keeps_stop :
  covers Demo.three_hours 0 (2 * Demo.hour) = true
  /\ slice_data_for_dates Demo.three_hours 0 (2 * Demo.hour)
     = Ok (Demo.three_hours, true)
  /\ df_index (restrict (half_open 0 (2 * Demo.hour)) Demo.three_hours)
     = [0%Z; Demo.hour]
  /\ slice_data_for_dates Demo.three_hours 0 (2 * Demo.hour)
     <> Ok (restrict (half_open 0 (2 * Demo.hour)) Demo.three_hours, true).
Proof.
  repeat split; try reflexivity.
  intros H. apply (f_equal (fun r => match r with
                                     | Ok (d, _) => List.length (df_rows d)
                                     | Err _ => O
                                     end)) in H.
  discriminate H.
Qed.

(** ** The importer hands a sorted series to the window check *)

Lemma insert_row_index (r : Z * list float) (rows : list (Z * list float)) :
  Sorted Z.le (map fst rows) -> Sorted Z.le (map fst (insert_row r rows)).
Proof.
  induction rows as [|r' rows IH]; intros Hsorted; cbn [insert_row map].
  - repeat constructor.
  - destruct (fst r <? fst r')%Z eqn:Hlt; cbn [map].
    + constructor; [exact Hsorted|]. constructor. apply Z.ltb_lt in Hlt. lia.
    + inversion Hsorted as [|t idx Hrest Hhd]; subst.
      constructor; [now apply IH|].
      apply Z.ltb_ge in Hlt.
      destruct rows as [|r'' rows]; cbn [insert_row map].
      * constructor. exact Hlt.
      * destruct (fst r <? fst r'')%Z; cbn [map]; constructor.
        -- exact Hlt.
        -- now inversion Hhd.
Qed.

Lemma sort_values_sorted (by_key : string) (t t' : RawTable) :
  sort_values by_key t = Ok t' -> Sorted Z.le (df_index (raw_frame t')).
Proof.
  unfold sort_values. destruct (String.eqb by_key (raw_date_key t)); [|discriminate].
  intros [= <-]. unfold df_index. cbn [raw_frame df_rows].
  assert (Hfold : forall rows acc,
             Sorted Z.le (map fst acc) ->
             Sorted Z.le (map fst (fold_left (fun acc r => insert_row r acc) rows acc))).
  { induction rows as [|r rows IH]; intros acc Hacc; cbn [fold_left].
    - exact Hacc.
    - apply IH. now apply insert_row_index. }
  apply Hfold. constructor.
Qed.

(** The window check of the importer, on the file as read. *)
Corollary import_neutron_data_window (w : World) (cwd filename operator : string)
  (start stop : Z) (keys : ImportKeys) (raw sorted : RawTable) :
  set_keys_and_parser operator = Ok keys ->
  pd_read_table w cwd filename (separator keys) (ind keys) = Ok raw ->
  sort_values (date_key keys) raw = Ok sorted ->
  df_rows (raw_frame sorted) <> [] ->
  import_neutron_data w cwd filename operator (Some start) (Some stop) =
  Ok (let data := raw_frame sorted in
      if covers data start stop
      then if df_empty (restrict (closed start stop) data)
           then (data, false)
           else (restrict (closed start stop) data, true)
      else (data, false)).
Proof.
  intros Hkeys Hread Hsort Hne. unfold import_neutron_data.
  rewrite Hkeys; cbn [bind]. rewrite Hread; cbn [bind]. rewrite Hsort; cbn [bind].
  destruct (df_rows (raw_frame sorted)) as [|r rows] eqn:Hrows; [contradiction|].
  unfold slice_data_for_dates.
  rewrite date_valid_covers by (rewrite Hrows; discriminate). cbn [bind].
  rewrite label_slice_closed_window by (eapply sort_values_sorted; exact Hsort).
  destruct (covers (raw_frame sorted) start stop); [|reflexivity].
  destruct (df_empty (restrict (closed start stop) (raw_frame sorted))); reflexivity.
Qed.

End ImportDataFacts.

Module OutlierFacts.
Import AverageData.

(** ** Gap filling *)

Lemma no_valid_position (data : list float) :
  forallb isnan data = true ->
  forall i, positions_from i (fun x => negb (isnan x)) data = [].
Proof.
  induction data as [|x data IH]; intros Hall i; [reflexivity|].
  cbn [forallb] in Hall. apply andb_prop in Hall as [Hx Hrest].
  cbn [positions_from]. rewrite Hx. cbn [negb]. now apply IH.
Qed.

(** C10. On a series in which every value is missing, the gap-filling
    interpolation raises an error: no sample point is left for
    [np.interp]. *)
Theorem interp_nans_all_missing (data : list float) :
  forallb isnan data = true ->
  interp_nans data = Err (ValueError "array of sample points is empty").
Proof.
  intros Hall. unfold interp_nans.
  rewrite (no_valid_position data Hall). reflexivity.
Qed.

Lemma interp_nans_all_missing_witness :
  interp_nans [NaN; NaN; NaN] = Err (ValueError "array of sample points is empty").
Proof. apply (interp_nans_all_missing [NaN; NaN; NaN]). reflexivity. Defined.

(** Masking a series whose every sample is flagged leaves no value. *)
Lemma mask_flagged_all (values flags masked : list float) :
  forallb (fun f => fgt f (Fin 0)) flags = true ->
  mask_flagged values flags = Ok masked ->
  forallb isnan masked = true.
Proof.
  unfold mask_flagged. revert flags masked.
  induction values as [|v values IH]; intros [|f flags] masked Hflags;
    cbn [zip_with lift_shape]; try discriminate.
  - now intros [= <-].
  - cbn [forallb] in Hflags. apply andb_prop in Hflags as [Hf Hflags].
    destruct (zip_with _ values flags) as [rest|] eqn:Hrest; [|discriminate].
    cbn [lift_shape]. intros [= <-].
    change (forallb isnan ((if fgt f (Fin 0) then NaN else v) :: rest) = true).
    rewrite Hf. cbn [forallb isnan].
    apply (IH flags rest Hflags). now rewrite Hrest.
Qed.

(** ** Evaluating percentiles *)

Lemma floor_nat_eq (r : R) (k : nat) : INR k <= r < INR k + 1 -> floor_nat r = k.
Proof.
  intros H. unfold floor_nat.
  replace (Int_part r) with (Z.of_nat k); [apply Nat2Z.id|].
  apply Int_part_spec. rewrite <- INR_IZR_INZ. lra.
Qed.

(** Evaluates comparisons, sorting and selection on literal numbers. *)
Ltac float_eval :=
  repeat (progress
            (cbn [bind negb andb orb existsb forallb isnan map nth Nat.min
                  List.length Nat.sub sort_floats fold_right insert_sorted
                  fle flt feq fgt fge fadd fsub fmul fopp
                  positions_from assign_nans filter of_nat interp_at
                  Nat.eqb np_interp lift_shape];
             unfold fle, fge, fgt, flt, feq, Rltb, Rleb, Reqb;
             real_decide)).

Example outliers_first_pass :
  outliers_to_nans [Fin 1; Fin 5; Fin 2; Fin 3] 1 97
  = Ok [NaN; NaN; Fin 2; Fin 3].
Proof.
  unfold outliers_to_nans, percentile. float_eval.
  rewrite (floor_nat_eq (INR 3 * (1 / 100)) 0) by (simpl; lra).
  rewrite (floor_nat_eq (INR 3 * (97 / 100)) 2) by (simpl; lra).
  float_eval. reflexivity.
Qed.

Example interp_first_pass :
  interp_nans [NaN; NaN; Fin 2; Fin 3] = Ok [Fin 2; Fin 2; Fin 2; Fin 3].
Proof. unfold interp_nans. float_eval. reflexivity. Qed.

Example outliers_second_pass :
  outliers_to_nans [Fin 2; Fin 2; Fin 2; Fin 3] 1 97
  = Ok [Fin 2; Fin 2; Fin 2; NaN].
Proof.
  unfold outliers_to_nans, percentile. float_eval.
  rewrite (floor_nat_eq (INR 3 * (1 / 100)) 0) by (simpl; lra).
  rewrite (floor_nat_eq (INR 3 * (97 / 100)) 2) by (simpl; lra).
  float_eval. reflexivity.
Qed.

Example interp_second_pass :
  interp_nans [Fin 2; Fin 2; Fin 2; NaN] = Ok [Fin 2; Fin 2; Fin 2; Fin 2].
Proof. unfold interp_nans. float_eval. reflexivity. Qed.

Lemma handle_outliers_interp_spiky :
  handle_outliers_interp Demo.spiky ["counts"] 1 97 = Ok Demo.spiky_once.
Proof.
  unfold handle_outliers_interp. cbn [for_each].
  change (df_col "counts" Demo.spiky) with (Ok [Fin 1; Fin 5; Fin 2; Fin 3]).
  cbn [bind]. rewrite outliers_first_pass. cbn [bind].
  change (df_set_col "counts" [NaN; NaN; Fin 2; Fin 3] Demo.spiky)
    with (Ok (mkDataFrame ["counts"]
                [(0%Z, [NaN]); (Demo.hour, [NaN]);
                 ((2 * Demo.hour)%Z, [Fin 2]); ((3 * Demo.hour)%Z, [Fin 3])])).
  cbn [bind].
  match goal with
  | |- context [df_col "counts" ?d] =>
      change (df_col "counts" d) with (Ok [NaN; NaN; Fin 2; Fin 3])
  end.
  cbn [bind]. rewrite interp_first_pass. reflexivity.
Qed.

Lemma handle_outliers_interp_spiky_once :
  handle_outliers_interp Demo.spiky_once ["counts"] 1 97 = Ok Demo.spiky_twice.
Proof.
  unfold handle_outliers_interp. cbn [for_each].
  change (df_col "counts" Demo.spiky_once) with (Ok [Fin 2; Fin 2; Fin 2; Fin 3]).
  cbn [bind]. rewrite outliers_second_pass. cbn [bind].
  change (df_set_col "counts" [Fin 2; Fin 2; Fin 2; NaN] Demo.spiky_once)
    with (Ok (mkDataFrame ["counts"]
                [(0%Z, [Fin 2]); (Demo.hour, [Fin 2]);
                 ((2 * Demo.hour)%Z, [Fin 2]); ((3 * Demo.hour)%Z, [NaN])])).
  cbn [bind].
  match goal with
  | |- context [df_col "counts" ?d] =>
      change (df_col "counts" d) with (Ok [Fin 2; Fin 2; Fin 2; NaN])
  end.
  cbn [bind]. rewrite interp_second_pass. reflexivity.
Qed.

(** The specification's idempotence against the code: on the samples
    [1, 5, 2, 3] with the bounds 1 and 97, one application gives
    [2, 2, 2, 3] and a second one gives [2, 2, 2, 2]. *)
Lemma handle_outliers_interp_not_idempotent :
  handle_outliers_interp Demo.spiky ["counts"] 1 97 = Ok Demo.spiky_once
  /\ handle_outliers_interp Demo.spiky_once ["counts"] 1 97 = Ok Demo.spiky_twice
  /\ Demo.spiky_twice <> Demo.spiky_once.
Proof.
  split; [exact handle_outliers_interp_spiky|].
  split; [exact handle_outliers_interp_spiky_once|].
  intros H. injection H as H. lra.
Qed.

(** ** One column of a data frame *)

Section Column.

Variable pos : nat.

Let set_rows (values : list float) (rows : list (Z * list float)) :=
  zip_with (fun (r : Z * list float) x => (fst r, set_nth pos x (snd r))) rows values.

Lemma set_nth_twice {A : Type} (x y : A) (l : list A) :
  forall n, set_nth n x (set_nth n y l) = set_nth n x l.
Proof.
  induction l as [|z l IH]; intros [|n]; cbn [set_nth]; try reflexivity.
  now rewrite IH.
Qed.

Lemma nth_set_nth {A : Type} (x d : A) (l : list A) :
  forall n, (n < List.length l)%nat -> nth n (set_nth n x l) d = x.
Proof.
  induction l as [|z l IH]; intros [|n] Hn; simpl in *; try lia; try reflexivity.
  apply IH. lia.
Qed.

Lemma set_rows_defined (rows : list (Z * list float)) :
  forall values, List.length values = List.length rows ->
    exists rows', set_rows values rows = Some rows'.
Proof.
  unfold set_rows.
  induction rows as [|r rows IH]; intros [|v values] Hlen; simpl in Hlen; try lia.
  - now exists [].
  - destruct (IH values) as [rows' Hrows]; [lia|].
    cbn [zip_with]. rewrite Hrows. eauto.
Qed.

Lemma set_rows_twice (rows : list (Z * list float)) :
  forall marked rows' values,
    set_rows marked rows = Some rows' ->
    set_rows values rows' = set_rows values rows.
Proof.
  unfold set_rows.
  induction rows as [|r rows IH]; intros [|m marked] rows' values;
    cbn [zip_with]; try discriminate.
  - now intros [= <-].
  - destruct (zip_with _ rows marked) as [tail|] eqn:Htail; [|discriminate].
    intros [= <-]. destruct values as [|v values]; [reflexivity|].
    cbn [zip_with fst snd]. rewrite set_nth_twice.
    now rewrite (IH marked tail values Htail).
Qed.

Lemma set_rows_read_back (rows : list (Z * list float)) :
  forall values rows',
    Forall (fun r => (pos < List.length (snd r))%nat) rows ->
    set_rows values rows = Some rows' ->
    map (fun r => nth pos (snd r) NaN) rows' = values.
Proof.
  unfold set_rows.
  induction rows as [|r rows IH]; intros [|v values] rows' Hrows;
    cbn [zip_with]; try discriminate.
  - now intros [= <-].
  - inversion Hrows as [|r0 rows0 Hr Hrest]; subst.
    destruct (zip_with _ rows values) as [tail|] eqn:Htail; [|discriminate].
    intros [= <-]. cbn [map fst snd].
    rewrite nth_set_nth by exact Hr. f_equal. now apply IH.
Qed.

End Column.

Lemma position_in_range (key : string) (columns : list string) :
  forall pos, position key columns = Some pos -> (pos < List.length columns)%nat.
Proof.
  induction columns as [|c columns IH]; intros pos; cbn [position]; [discriminate|].
  destruct (String.eqb key c).
  - intros [= <-]. simpl. lia.
  - destruct (position key columns) as [n|]; [|discriminate].
    intros [= <-]. simpl. specialize (IH n eq_refl). lia.
Qed.

Lemma outliers_to_nans_length (data marked : list float) (qmin qmax : R) :
  outliers_to_nans data qmin qmax = Ok marked ->
  List.length marked = List.length data.
Proof.
  unfold outliers_to_nans.
  destruct (percentile data qmin); [|discriminate].
  destruct (percentile data qmax); [|discriminate].
  cbn [bind]. intros [= <-]. apply length_map.
Qed.

(** What [handle_outliers_interp] does to the column of one key: the
    outliers of the column are marked, the gaps are filled, and the column
    is written back. *)
Lemma handle_outliers_interp_column
  (data : DataFrame) (key : string) (col : list float) (qmin qmax : R) :
  well_formed data ->
  df_col key data = Ok col ->
  handle_outliers_interp data [key] qmin qmax =
  (marked <- outliers_to_nans col qmin qmax ;;
   filled <- interp_nans marked ;;
   df_set_col key filled data).
Proof.
  intros Hwf Hcol. unfold handle_outliers_interp. cbn [for_each].
  rewrite Hcol. cbn [bind].
  destruct (outliers_to_nans col qmin qmax) as [marked|e] eqn:Hmarked;
    [|reflexivity].
  cbn [bind]. unfold df_col in Hcol.
  destruct (position key (df_columns data)) as [pos|] eqn:Hpos; [|discriminate].
  injection Hcol as Hcol.
  destruct (set_rows_defined pos (df_rows data) marked) as [rows' Hrows].
  { rewrite (outliers_to_nans_length _ _ _ _ Hmarked), <- Hcol. apply length_map. }
  assert (Hset : df_set_col key marked data
                 = Ok (mkDataFrame (df_columns data) rows')).
  { unfold df_set_col. now rewrite Hpos, Hrows. }
  assert (Hread : df_col key (mkDataFrame (df_columns data) rows') = Ok marked).
  { unfold df_col. cbn [df_columns df_rows]. rewrite Hpos. f_equal.
    apply (set_rows_read_back pos (df_rows data)); [|exact Hrows].
    apply position_in_range in Hpos. unfold well_formed in Hwf.
    eapply Forall_impl; [|exact Hwf]. intros r Hr. cbn beta in Hr. lia. }
  rewrite Hset. cbn [bind]. rewrite Hread. cbn [bind].
  destruct (interp_nans marked) as [filled|e]; [|reflexivity].
  cbn [bind]. unfold df_set_col. cbn [df_columns df_rows]. rewrite Hpos.
  rewrite (set_rows_twice pos (df_rows data) marked rows' filled Hrows).
  destruct (zip_with _ (df_rows data) filled); reflexivity.
Qed.

Lemma flt_nan_r (x : float) : flt x NaN = false.
Proof. now destruct x. Qed.

(** The same on a column of a data frame: when the column has rows and
    every value of it is missing, [handle_outliers_interp] raises the
    error of the gap filling. *)
Corollary handle_outliers_interp_all_missing
  (data : DataFrame) (key : string) (col : list float) (qmin qmax : R) :
  well_formed data ->
  df_col key data = Ok col ->
  col <> [] ->
  forallb isnan col = true ->
  0 <= qmin <= 100 ->
  0 <= qmax <= 100 ->
  handle_outliers_interp data [key] qmin qmax
  = Err (ValueError "array of sample points is empty").
Proof.
  intros Hwf Hcol Hrows Hall Hmin Hmax.
  rewrite (handle_outliers_interp_column data key col qmin qmax Hwf Hcol).
  assert (Hpercentile : forall q, 0 <= q <= 100 -> percentile col q = Ok NaN).
  { intros q Hq. unfold percentile, Rleb.
    destruct (Rle_dec 0 q); [|lra]. destruct (Rle_dec q 100); [|lra].
    cbn [andb negb].
    destruct col as [|x col]; [contradiction|].
    cbn [forallb] in Hall. apply andb_prop in Hall as [Hx _].
    cbn [existsb]. now rewrite Hx. }
  unfold outliers_to_nans.
  rewrite (Hpercentile qmin Hmin), (Hpercentile qmax Hmax). cbn [bind].
  replace (map (fun x => if fgt x NaN || flt x NaN then NaN else x) col) with col.
  - unfold interp_nans. rewrite (no_valid_position col Hall). reflexivity.
  - clear. induction col as [|x col IH]; [reflexivity|].
    cbn [map]. rewrite <- IH. unfold fgt. cbn [flt]. now rewrite flt_nan_r.
Qed.

(** ** When a second application changes nothing *)

Import OutlierSpec.

(** Between finite samples at increasing positions the interpolated
    value is finite. *)
Lemma interp_at_finite (a : R) :
  forall xp fp prev,
    forallb is_finite xp = true ->
    forallb is_finite fp = true ->
    List.length xp = List.length fp ->
    match prev with
    | None => xp <> []
    | Some (Fin x0, Fin _) => x0 < a
    | Some _ => False
    end ->
    is_finite (interp_at (Fin a) xp fp prev) = true.
Proof.
  induction xp as [|x1 xp IH]; intros [|f1 fp] prev Hxp Hfp Hlen Hprev;
    try discriminate Hlen.
  - cbn [interp_at]. destruct prev as [[[x0| | |] [f0| | |]]|]; try contradiction.
    reflexivity.
  - cbn [forallb] in Hxp, Hfp.
    apply andb_prop in Hxp as [Hx1 Hxp]. apply andb_prop in Hfp as [Hf1 Hfp].
    destruct x1 as [b| | |]; try discriminate Hx1.
    destruct f1 as [c| | |]; try discriminate Hf1.
    cbn [interp_at flt feq]. unfold Rltb, Reqb.
    destruct (Rlt_dec a b) as [Hab|Hab].
    + destruct prev as [[[x0| | |] [f0| | |]]|]; try contradiction; [|reflexivity].
      cbn [fsub fadd fopp]. rewrite fdiv_fin by lra. reflexivity.
    + destruct (Req_dec_T a b) as [Heq|Hneq]; [reflexivity|].
      apply IH; try assumption.
      * simpl in Hlen. lia.
      * lra.
Qed.

(** Filling the gaps of a series of finite and missing values with finite
    values leaves finite values only. *)
Lemma assign_nans_finite (g : nat -> float) :
  (forall k, is_finite (g k) = true) ->
  forall data i,
    forallb finite_or_missing data = true ->
    forallb is_finite (assign_nans data (map g (positions_from i isnan data))) = true.
Proof.
  intros Hg. induction data as [|x data IH]; intros i Hdata; [reflexivity|].
  cbn [forallb] in Hdata. apply andb_prop in Hdata as [Hx Hdata].
  cbn [positions_from assign_nans].
  destruct x as [r| | |]; try discriminate Hx; cbn [isnan map forallb is_finite].
  - now apply IH.
  - rewrite Hg. now apply IH.
Qed.

Lemma positions_length (p : float -> bool) (data : list float) :
  forall i, List.length (positions_from i p data) = List.length (filter p data).
Proof.
  induction data as [|x data IH]; intros i; [reflexivity|].
  cbn [positions_from filter]. destruct (p x); cbn [List.length]; now rewrite IH.
Qed.

Lemma filter_finite (data : list float) :
  forallb finite_or_missing data = true ->
  forallb is_finite (filter (fun x => negb (isnan x)) data) = true.
Proof.
  induction data as [|x data IH]; intros Hdata; [reflexivity|].
  cbn [forallb] in Hdata. apply andb_prop in Hdata as [Hx Hdata].
  cbn [filter]. destruct x; try discriminate Hx; cbn [isnan negb forallb is_finite];
    now apply IH.
Qed.

Lemma positions_finite (l : list nat) : forallb is_finite (map of_nat l) = true.
Proof. induction l as [|k l IH]; [reflexivity|]. exact IH. Qed.

(** After gap filling, a series of finite and missing values is finite. *)
Lemma interp_nans_finite (data filled : list float) :
  forallb finite_or_missing data = true ->
  interp_nans data = Ok filled ->
  forallb is_finite filled = true.
Proof.
  intros Hdata. unfold interp_nans, np_interp.
  destruct (map of_nat (positions_from 0 (fun x => negb (isnan x)) data))
    as [|x1 xp] eqn:Hxp; [discriminate|].
  destruct (Nat.eqb _ _) eqn:Hlen; [|discriminate].
  cbn [bind]. intros [= <-]. rewrite map_map.
  apply assign_nans_finite; [|exact Hdata].
  intros k.
  change (is_finite (interp_at (Fin (INR k)) (x1 :: xp)
                       (filter (fun x => negb (isnan x)) data) None) = true).
  apply interp_at_finite.
  - rewrite <- Hxp. apply positions_finite.
  - now apply filter_finite.
  - now apply Nat.eqb_eq.
  - discriminate.
Qed.

Lemma outliers_to_nans_marks (data marked : list float) (qmin qmax : R) :
  forallb finite_or_missing data = true ->
  outliers_to_nans data qmin qmax = Ok marked ->
  forallb finite_or_missing marked = true.
Proof.
  intros Hdata. unfold outliers_to_nans.
  destruct (percentile data qmin) as [lo|]; [|discriminate].
  destruct (percentile data qmax) as [hi|]; [|discriminate].
  cbn [bind]. intros [= <-].
  induction data as [|x data IH]; [reflexivity|].
  cbn [forallb] in Hdata. apply andb_prop in Hdata as [Hx Hdata].
  cbn [map forallb]. rewrite (IH Hdata), andb_true_r.
  destruct (fgt x hi || flt x lo); [reflexivity | exact Hx].
Qed.

(** Marking leaves a series alone when every value is within the bounds. *)
Lemma nothing_marked (lo hi : float) (data : list float) :
  forallb (within lo hi) data = true ->
  map (fun x => if fgt x hi || flt x lo then NaN else x) data = data.
Proof.
  induction data as [|x data IH]; intros Hin; [reflexivity|].
  cbn [forallb] in Hin. apply andb_prop in Hin as [Hx Hin].
  cbn [map]. rewrite (IH Hin). unfold within in Hx.
  apply negb_true_iff in Hx. now rewrite Hx.
Qed.

Lemma finite_not_missing (data : list float) :
  forallb is_finite data = true ->
  filter (fun x => negb (isnan x)) data = data
  /\ forall i, positions_from i isnan data = [].
Proof.
  induction data as [|x data IH]; intros Hdata; [split; reflexivity|].
  cbn [forallb] in Hdata. apply andb_prop in Hdata as [Hx Hdata].
  destruct (IH Hdata) as [IH1 IH2].
  destruct x; try discriminate Hx. cbn [filter positions_from isnan negb].
  split; [now rewrite IH1 | intros i; apply IH2].
Qed.

(** Gap filling returns a series without gaps as it is. *)
Lemma interp_nans_no_gap (data : list float) :
  data <> [] ->
  forallb is_finite data = true ->
  interp_nans data = Ok data.
Proof.
  intros Hne Hdata. unfold interp_nans.
  destruct (finite_not_missing data Hdata) as [Hvalid Hnan].
  rewrite Hnan, Hvalid. cbn [map]. unfold np_interp.
  destruct (map of_nat (positions_from 0 (fun x => negb (isnan x)) data))
    as [|x1 xp] eqn:Hxp.
  - apply (f_equal (@List.length float)) in Hxp.
    rewrite length_map, positions_length, Hvalid in Hxp.
    destruct data; [contradiction | discriminate Hxp].
  - rewrite <- Hxp, length_map, positions_length, Hvalid, Nat.eqb_refl.
    cbn [map bind]. f_equal.
    clear. induction data as [|x data IH]; [reflexivity|].
    cbn [assign_nans]. destruct (isnan x); now rewrite IH.
Qed.

Lemma interp_nans_not_empty (data filled : list float) :
  interp_nans data = Ok filled -> filled <> [].
Proof.
  unfold interp_nans, np_interp. destruct data as [|x data]; [discriminate|].
  destruct (map of_nat _) as [|x1 xp]; [discriminate|].
  destruct (Nat.eqb _ _); [|discriminate].
  cbn [bind]. intros [= <-]. cbn [assign_nans].
  destruct (isnan x); [|discriminate].
  destruct (map _ _); discriminate.
Qed.

(** C8, as the code behaves.  Take a series of finite or missing values
    and fixed percentile bounds, remove its outliers and fill the gaps.
    If every value of the result lies within the result's own two
    percentile values, a second application returns the result unchanged:
    nothing is marked and nothing is filled. *)
Theorem second_application_unchanged
  (data marked once : list float) (qmin qmax : R) (lo hi : float) :
  forallb finite_or_missing data = true ->
  outliers_to_nans data qmin qmax = Ok marked ->
  interp_nans marked = Ok once ->
  percentile once qmin = Ok lo ->
  percentile once qmax = Ok hi ->
  forallb (within lo hi) once = true ->
  outliers_to_nans once qmin qmax = Ok once /\ interp_nans once = Ok once.
Proof.
  intros Hdata Hmarked Honce Hlo Hhi Hwithin.
  assert (Hfinite : forallb is_finite once = true).
  { eapply interp_nans_finite; [|exact Honce].
    eapply outliers_to_nans_marks; eassumption. }
  split.
  - unfold outliers_to_nans. rewrite Hlo, Hhi. cbn [bind].
    now rewrite nothing_marked.
  - apply interp_nans_no_gap; [|exact Hfinite].
    eapply interp_nans_not_empty. exact Honce.
Qed.

Example outliers_ramp :
  outliers_to_nans [Fin 1; Fin 2; Fin 3] 1 97 = Ok [NaN; Fin 2; NaN].
Proof.
  unfold outliers_to_nans, percentile. float_eval.
  rewrite (floor_nat_eq (INR 2 * (1 / 100)) 0) by (simpl; lra).
  rewrite (floor_nat_eq (INR 2 * (97 / 100)) 1) by (simpl; lra).
  float_eval. reflexivity.
Qed.

Example interp_ramp :
  interp_nans [NaN; Fin 2; NaN] = Ok [Fin 2; Fin 2; Fin 2].
Proof. unfold interp_nans. float_eval. reflexivity. Qed.

Example percentile_flat (q : R) :
  0 <= q <= 100 -> percentile [Fin 2; Fin 2; Fin 2] q = Ok (Fin 2).
Proof.
  intros Hq. unfold percentile. float_eval.
  match goal with
  | |- context [floor_nat ?v] => generalize (floor_nat v)
  end.
  intros [|[|[|[|i]]]]; float_eval; do 2 f_equal; ring.
Qed.

Lemma second_application_unchanged_witness :
  outliers_to_nans [Fin 2; Fin 2; Fin 2] 1 97 = Ok [Fin 2; Fin 2; Fin 2]
  /\ interp_nans [Fin 2; Fin 2; Fin 2] = Ok [Fin 2; Fin 2; Fin 2].
Proof.
  apply (second_application_unchanged
           [Fin 1; Fin 2; Fin 3] [NaN; Fin 2; NaN] [Fin 2; Fin 2; Fin 2]
           1 97 (Fin 2) (Fin 2)).
  - reflexivity.
  - exact outliers_ramp.
  - exact interp_ramp.
  - apply percentile_flat. lra.
  - apply percentile_flat. lra.
  - unfold within. float_eval; reflexivity.
Defined.

End OutlierFacts.

(* ================================================================== *)
(** * Further properties of the correction engine *)
(* ================================================================== *)

Module CorrectionProperties.
Import CorrectData OutlierSpec.

(** X3. The corrections know the operators COSMOS-US and COSMOS-UK only:
    for every other operator, NMDB included although [get_data_keys]
    accepts it, [apply_corrections] raises [KeyError] whatever the data. *)
Theorem apply_corrections_unknown_operator
  (data : DataFrame) (operator : string) (rigidity : float) (data_keys : list string) :
  operator <> "COSMOS-US" ->
  operator <> "COSMOS-UK" ->
  apply_corrections data operator rigidity data_keys
  = Err (KeyError (operator ++ " is not a valid operator key")).
Proof.
  intros Hus Huk. unfold apply_corrections, set_corr_keys.
  assert (H1 : String.eqb "COSMOS-US" operator = false).
  { apply String.eqb_neq. congruence. }
  assert (H2 : String.eqb "COSMOS-UK" operator = false).
  { apply String.eqb_neq. congruence. }
  now rewrite H1, H2.
Qed.

Lemma apply_corrections_unknown_operator_witness :
  AverageData.get_data_keys "NMDB" = Ok ["counts"]
  /\ apply_corrections Demo.three_hours "NMDB" (Fin 3) ["counts"]
     = Err (KeyError "NMDB is not a valid operator key").
Proof.
  split; [reflexivity|].
  apply (apply_corrections_unknown_operator Demo.three_hours "NMDB" (Fin 3) ["counts"]);
    discriminate.
Defined.

(** ** Flat pressure and humidity leave the counts as they are *)

Lemma df_col_length (key : string) (data : DataFrame) (col : list float) :
  df_col key data = Ok col -> List.length col = df_len data.
Proof.
  unfold df_col, df_len. destruct (position key (df_columns data)); [|discriminate].
  intros [= <-]. apply length_map.
Qed.

End CorrectionProperties.

(* ================================================================== *)
(** * Further properties of the importer *)
(* ================================================================== *)

(** Steps through the binds of the hypotheses that say a computation
    succeeded, keeping the equation of every step. *)
Ltac ok_binds :=
  repeat match goal with
         | H : bind ?c _ = Ok _ |- _ =>
             let E := fresh "E" in
             destruct c eqn:E; cbn [bind] in H; [|discriminate H]
         end.

Module ImportProperties.
Import ImportData WindowSpec.

Lemma insert_row_permutation (r : Z * list float) (rows : list (Z * list float)) :
  Permutation (r :: rows) (insert_row r rows).
Proof.
  induction rows as [|r' rows IH]; cbn [insert_row]; [reflexivity|].
  destruct (fst r <? fst r')%Z; [reflexivity|].
  rewrite perm_swap. now apply perm_skip.
Qed.

Lemma sort_rows_permutation (rows : list (Z * list float)) :
  forall acc,
    Permutation (rows ++ acc) (fold_left (fun acc r => insert_row r acc) rows acc).
Proof.
  induction rows as [|r rows IH]; intros acc; cbn [fold_left app]; [reflexivity|].
  rewrite <- IH. rewrite <- insert_row_permutation. apply Permutation_middle.
Qed.

(** X5. Sorting by the date column keeps the column names and every row
    (the result is a permutation of the rows read) and leaves the rows in
    ascending order of their dates. *)
Theorem sort_values_reorders (t : RawTable) :
  exists t',
    sort_values (raw_date_key t) t = Ok t'
    /\ raw_date_key t' = raw_date_key t
    /\ df_columns (raw_frame t') = df_columns (raw_frame t)
    /\ Permutation (df_rows (raw_frame t)) (df_rows (raw_frame t'))
    /\ Sorted Z.le (df_index (raw_frame t')).
Proof.
  destruct (sort_values (raw_date_key t) t) as [t'|e] eqn:Hsort.
  - exists t'. split; [reflexivity|].
    pose proof (ImportDataFacts.sort_values_sorted _ _ _ Hsort) as Hsorted.
    unfold sort_values in Hsort. rewrite String.eqb_refl in Hsort.
    injection Hsort as <-. repeat split; try exact Hsorted.
    cbn [raw_frame df_rows].
    rewrite <- sort_rows_permutation. now rewrite app_nil_r.
  - unfold sort_values in Hsort. rewrite String.eqb_refl in Hsort. discriminate.
Qed.

(** ** The table the importer returns *)

Lemma sorted_firstn (l : list Z) :
  forall n, StronglySorted Z.le l -> StronglySorted Z.le (firstn n l).
Proof.
  induction l as [|x l IH]; intros [|n] Hs; cbn [firstn]; try constructor.
  - inversion Hs; subst. now apply IH.
  - inversion Hs as [|y l' Hl Hall]; subst.
    apply Forall_forall. intros z Hz.
    assert (Hin : In z l).
    { rewrite <- (firstn_skipn n l). apply in_or_app. now left. }
    rewrite Forall_forall in Hall. now apply Hall.
Qed.

Lemma sorted_skipn (l : list Z) :
  forall n, StronglySorted Z.le l -> StronglySorted Z.le (skipn n l).
Proof.
  induction l as [|x l IH]; intros [|n] Hs; cbn [skipn]; try assumption.
  inversion Hs; subst. now apply IH.
Qed.

Lemma label_slice_index_sorted (data : DataFrame) (start stop : Z) :
  Sorted Z.le (df_index data) ->
  Sorted Z.le (df_index (label_slice data start stop)).
Proof.
  intros Hs. unfold label_slice, df_index. cbn [df_rows].
  rewrite <- skipn_map, <- firstn_map.
  apply StronglySorted_Sorted. apply sorted_skipn, sorted_firstn.
  apply Sorted_StronglySorted; [|exact Hs]. intros x y z Hxy Hyz. lia.
Qed.

Lemma slice_data_for_dates_cases (data d : DataFrame) (v : bool) (start stop : Z) :
  slice_data_for_dates data start stop = Ok (d, v) ->
  (d = data /\ v = false)
  \/ (d = label_slice data start stop /\ v = true
      /\ df_empty (label_slice data start stop) = false).
Proof.
  unfold slice_data_for_dates. intros H.
  destruct (date_valid data start stop) as [[|]|]; cbn [bind] in H;
    try discriminate H.
  - destruct (df_empty (label_slice data start stop)) eqn:Hempty;
      injection H as <- <-; auto.
  - injection H as <- <-. auto.
Qed.

(** X6. Whatever window is asked for, a table the importer returns is in
    ascending order of its timestamps, be it reported valid or not. *)
Theorem import_neutron_data_sorted (w : World) (cwd filename operator : string)
  (start stop : option Z) (d : DataFrame) (v : bool) :
  import_neutron_data w cwd filename operator start stop = Ok (d, v) ->
  Sorted Z.le (df_index d).
Proof.
  unfold import_neutron_data. intros H. ok_binds.
  pose proof (ImportDataFacts.sort_values_sorted _ _ _ E1) as Hsorted.
  destruct (df_rows (raw_frame a1)) as [|r rows] eqn:Hrows.
  - injection H as <- _. exact Hsorted.
  - destruct start as [start|]; [|injection H as <- _; exact Hsorted].
    destruct stop as [stop|].
    + apply slice_data_for_dates_cases in H as [[-> _] | [-> _]];
        [exact Hsorted | now apply label_slice_index_sorted].
    + destruct (df_index (raw_frame a1)) as [|first idx] eqn:Hidx; [discriminate H|].
      rewrite <- Hidx in Hsorted.
      destruct (first <=? start)%Z; [discriminate H|].
      injection H as <- _. exact Hsorted.
Qed.

Lemma import_neutron_data_sorted_witness :
  Sorted Z.le (df_index (mkDataFrame ["CTS_MOD"]
                           [(Demo.hour, [Fin 500]); ((2 * Demo.hour)%Z, [Fin 510])])).
Proof.
  apply (import_neutron_data_sorted Demo.world "data" "GAPS.csv" "COSMOS-UK"
           (Some 0%Z) (Some (2 * Demo.hour)%Z) _ false).
  reflexivity.
Defined.

(** X7. A table the importer reports valid for a window is not empty, and
    every one of its timestamps lies in the closed window
    [[start, stop]]. *)
Theorem import_neutron_data_valid_window (w : World) (cwd filename operator : string)
  (start stop : Z) (d : DataFrame) :
  import_neutron_data w cwd filename operator (Some start) (Some stop) = Ok (d, true) ->
  df_rows d <> []
  /\ Forall (fun t => (start <= t <= stop)%Z) (df_index d).
Proof.
  unfold import_neutron_data. intros H. ok_binds.
  pose proof (ImportDataFacts.sort_values_sorted _ _ _ E1) as Hsorted.
  destruct (df_rows (raw_frame a1)) as [|r rows] eqn:Hrows; [discriminate H|].
  apply slice_data_for_dates_cases in H as [[_ Hv] | [-> [_ Hne]]];
    [discriminate Hv|].
  split.
  - intros Hnil. unfold df_empty in Hne. now rewrite Hnil in Hne.
  - rewrite ImportDataFacts.label_slice_closed_window by exact Hsorted.
    unfold restrict, df_index. cbn [df_rows].
    apply Forall_forall. intros t Ht. apply in_map_iff in Ht as [row [<- Hrow]].
    apply filter_In in Hrow as [_ Hwin]. unfold closed in Hwin.
    apply andb_prop in Hwin as [H1 H2]. apply Z.leb_le in H1, H2. lia.
Qed.

Lemma import_neutron_data_valid_window_witness :
  df_rows Demo.short_frame <> []
  /\ Forall (fun t => (0 <= t <= 2 * Demo.hour)%Z) (df_index Demo.short_frame).
Proof.
  apply (import_neutron_data_valid_window Demo.world "data" "SHORT.csv" "COSMOS-UK"
           0 (2 * Demo.hour) Demo.short_frame).
  reflexivity.
Defined.

(** X8. A table without rows makes the window check itself raise
    [IndexError] (it reads the first timestamp); the importer never gets
    there: a file without rows is returned as it is and reported
    invalid. *)
Theorem empty_table_is_invalid :
  (forall (data : DataFrame) (start stop : Z),
      df_rows data = [] ->
      slice_data_for_dates data start stop
      = Err (IndexError "index 0 is out of bounds for axis 0 with size 0"))
  /\ (forall (w : World) (cwd filename operator : string) (start stop : option Z)
             (keys : ImportKeys) (raw : RawTable),
         set_keys_and_parser operator = Ok keys ->
         pd_read_table w cwd filename (separator keys) (ind keys) = Ok raw ->
         raw_date_key raw = date_key keys ->
         df_rows (raw_frame raw) = [] ->
         import_neutron_data w cwd filename operator start stop
         = Ok (raw_frame raw, false)).
Proof.
  split.
  - intros data start stop Hrows.
    unfold slice_data_for_dates, date_valid, df_index. now rewrite Hrows.
  - intros w cwd filename operator start stop keys raw Hkeys Hread Hkey Hrows.
    unfold import_neutron_data. rewrite Hkeys. cbn [bind]. rewrite Hread. cbn [bind].
    unfold sort_values. rewrite Hkey, String.eqb_refl. cbn [bind raw_frame df_rows].
    rewrite Hrows. cbn [fold_left].
    destruct raw as [k [columns rows]]. cbn [raw_frame df_rows df_columns] in *.
    now subst rows.
Qed.

Lemma empty_table_is_invalid_witness :
  slice_data_for_dates (raw_frame Demo.empty_file) 0 Demo.hour
  = Err (IndexError "index 0 is out of bounds for axis 0 with size 0")
  /\ import_neutron_data Demo.empty_world "data" "ANY.csv" "COSMOS-UK"
       (Some 0%Z) (Some Demo.hour)
     = Ok (raw_frame Demo.empty_file, false).
Proof.
  split.
  - apply (proj1 empty_table_is_invalid). reflexivity.
  - apply (proj2 empty_table_is_invalid Demo.empty_world "data" "ANY.csv" "COSMOS-UK"
             (Some 0%Z) (Some Demo.hour) (mkImportKeys "DATE_TIME" [[2%nat]] ",")
             Demo.empty_file); reflexivity.
Defined.

Lemma count_while_le (p q : Z -> bool) (idx : list Z) :
  (forall t, p t = true -> q t = true) ->
  (count_while p idx <= count_while q idx)%nat.
Proof.
  intros Hpq. induction idx as [|t idx IH]; cbn [count_while]; [lia|].
  destruct (p t) eqn:Hp; [|lia]. rewrite (Hpq t Hp). lia.
Qed.

(** X9. On a table in ascending order of its timestamps, as the
    importer hands it over, a window whose start lies after its stop is
    never valid: when the window check returns at all, it returns the
    table as it is and reports invalid. *)
Theorem reversed_window_is_invalid (data d : DataFrame) (v : bool) (start stop : Z) :
  Sorted Z.le (df_index data) ->
  (stop < start)%Z ->
  slice_data_for_dates data start stop = Ok (d, v) ->
  d = data /\ v = false.
Proof.
  intros _ Hrev H.
  apply slice_data_for_dates_cases in H as [[-> ->] | [_ [_ Hne]]]; [auto|].
  exfalso. unfold label_slice, df_empty in Hne. cbn [df_rows df_columns] in Hne.
  rewrite skipn_all2 in Hne; [discriminate Hne|].
  rewrite length_firstn.
  pose proof (count_while_le (fun t => (t <=? stop)%Z) (fun t => (t <? start)%Z)
                (df_index data)) as Hle.
  specialize (Hle ltac:(intros t Ht; apply Z.leb_le in Ht; apply Z.ltb_lt; lia)).
  lia.
Qed.

Lemma reversed_window_is_invalid_witness :
  Sorted Z.le (df_index Demo.three_hours)
  /\ (0 < 2 * Demo.hour)%Z
  /\ slice_data_for_dates Demo.three_hours (2 * Demo.hour) 0
     = Ok (Demo.three_hours, false)
  /\ (Demo.three_hours = Demo.three_hours /\ false = false).
Proof.
  assert (Hsorted : Sorted Z.le (df_index Demo.three_hours))
    by (change (df_index Demo.three_hours) with [0; Demo.hour; 2 * Demo.hour]%Z;
        unfold Demo.hour; repeat constructor; lia).
  split; [exact Hsorted|]. split; [reflexivity|]. split; [reflexivity|].
  apply (reversed_window_is_invalid Demo.three_hours Demo.three_hours false
           (2 * Demo.hour) 0); [exact Hsorted | reflexivity | reflexivity].
Defined.

End ImportProperties.

(* ================================================================== *)
(** * Further properties of the path prompt and of the resampler *)
(* ================================================================== *)

Module ResampleProperties.
Import AverageData.

(** X10. [check_path_exists] returns exactly when the path exists, and
    then at once: it returns the path it was given and reads nothing from
    the console.  A line typed at the prompt is never returned. *)
Theorem check_path_exists_returns (w : World) (cwd path : string) (pos : nat) :
  (os_path_exists w cwd path = true ->
   forall fuel, check_path_exists (S fuel) w cwd path pos = Returned path pos)
  /\ (forall fuel ret pos',
        check_path_exists fuel w cwd path pos = Returned ret pos' ->
        os_path_exists w cwd path = true /\ ret = path /\ pos' = pos).
Proof.
  split.
  - intros Hexists fuel. unfold check_path_exists. cbn [check_path_loop].
    unfold check_path_step. now rewrite Hexists.
  - intros fuel ret pos' H.
    destruct (os_path_exists w cwd path) eqn:Hexists.
    + destruct fuel as [|fuel]; [discriminate H|].
      unfold check_path_exists in H. cbn [check_path_loop] in H.
      unfold check_path_step in H. rewrite Hexists in H.
      injection H as <- <-. auto.
    + exfalso.
      exact (AverageDataFacts.check_path_loop_never_returns
               w cwd path Hexists fuel path pos ret pos' H).
Qed.

Lemma check_path_exists_returns_witness :
  check_path_exists 3 Demo.world "." "data" 0 = Returned "data" 0%nat.
Proof.
  apply (proj1 (check_path_exists_returns Demo.world "." "data" 0) eq_refl 2%nat).
Defined.

(** X11. [is_multiple] answers whether the large duration is an integer
    multiple of the small one (zero and negative multiples included); a
    small duration of zero raises [ZeroDivisionError]. *)
Theorem is_multiple_divides (large_td small_td : Z) :
  (small_td <> 0%Z ->
   exists b, is_multiple large_td small_td = Ok b
             /\ (b = true <-> exists k, large_td = (k * small_td)%Z))
  /\ (small_td = 0%Z -> is_multiple large_td small_td = Err ZeroDivisionError).
Proof.
  split.
  - intros Hnz. unfold is_multiple. cbn [bind].
    change (Timedelta "0T") with (Ok 0%Z). cbn [bind].
    apply Z.eqb_neq in Hnz as Hnzb. rewrite Hnzb.
    eexists. split; [reflexivity|].
    rewrite Z.eqb_eq. rewrite Z.mod_divide by exact Hnz. reflexivity.
  - intros ->. reflexivity.
Qed.

Lemma is_multiple_divides_witness :
  exists b, is_multiple 7200 3600 = Ok b
            /\ (b = true <-> exists k, 7200%Z = (k * 3600)%Z).
Proof.
  apply (proj1 (is_multiple_divides 7200 3600)). discriminate.
Defined.



(** X13. For two frequencies written as a whole number and a unit, both
    within the range of [pd.Timedelta]: when they are equal the operator
    is not looked at and the data go to the nearest-point resampler.
    With a longer target that passes the order test and the multiple
    test, an operator without resampling instructions (any but NMDB,
    COSMOS-US and COSMOS-UK) raises [UnboundLocalError]:
    [get_resampler_dict] has no branch for it. *)
Theorem resample_data_unknown_operator (w : World) (data : DataFrame)
  (operator original_frequency new_frequency : string) (o n : Z) :
  Timedelta original_frequency = Ok o ->
  Timedelta new_frequency = Ok n ->
  o <> 0%Z ->
  (o = n ->
   resample_data w data operator original_frequency new_frequency
   = pd_resample_nearest w new_frequency data)
  /\ (o <> n ->
      str_gt new_frequency original_frequency = true ->
      (n mod o)%Z = 0%Z ->
      operator <> "NMDB" -> operator <> "COSMOS-US" -> operator <> "COSMOS-UK" ->
      resample_data w data operator original_frequency new_frequency
      = Err (UnboundLocalError "ret_dict")).
Proof.
  intros Ho Hn Hnz.
  rewrite (AverageDataFacts.resample_data_branches w data operator _ _ o n Ho Hn Hnz).
  split.
  - intros ->. now rewrite Z.eqb_refl.
  - intros Hneq Hgt Hmod H1 H2 H3.
    apply Z.eqb_neq in Hneq. rewrite Hneq, Hgt, Hmod. cbn [Z.eqb].
    unfold get_resampler_dict.
    apply String.eqb_neq in H1, H2, H3. now rewrite H1, H2, H3.
Qed.

Lemma resample_data_unknown_operator_witness :
  resample_data Demo.world Demo.three_hours "COSMOS-Av" "3600s" "7200s"
  = Err (UnboundLocalError "ret_dict").
Proof.
  apply (proj2 (resample_data_unknown_operator Demo.world Demo.three_hours
                  "COSMOS-Av" "3600s" "7200s" 3600000000000 7200000000000
                  eq_refl eq_refl ltac:(discriminate)));
    try reflexivity; discriminate.
Defined.

End ResampleProperties.

(* ================================================================== *)
(** * Columns of a data frame *)
(* ================================================================== *)

Module FrameFacts.

Lemma set_nth_length {A : Type} (x : A) (l : list A) :
  forall n, List.length (set_nth n x l) = List.length l.
Proof.
  induction l as [|y l IH]; intros [|n]; cbn [set_nth List.length]; try reflexivity.
  now rewrite IH.
Qed.

Lemma nth_set_nth_other {A : Type} (x d : A) (l : list A) :
  forall n m, n <> m -> nth m (set_nth n x l) d = nth m l d.
Proof.
  induction l as [|y l IH]; intros [|n] [|m] Hnm; cbn [set_nth nth];
    try reflexivity; try contradiction.
  apply IH. congruence.
Qed.

Lemma position_same (columns : list string) (k k' : string) :
  forall pos, position k columns = Some pos -> position k' columns = Some pos -> k = k'.
Proof.
  induction columns as [|c columns IH]; intros pos; cbn [position]; [discriminate|].
  destruct (String.eqb_spec k c) as [->|Hk]; destruct (String.eqb_spec k' c) as [->|Hk'].
  - reflexivity.
  - intros [= <-]. destruct (position k' columns); discriminate.
  - destruct (position k columns); [|discriminate]. intros [= <-]. discriminate.
  - destruct (position k columns) as [n|]; [|discriminate].
    destruct (position k' columns) as [n'|]; [|discriminate].
    intros [= <-] [= ->]. now apply (IH n).
Qed.

Section SetColumn.

Variable pos : nat.

(** Writing the values into position [pos] of the rows. *)
Lemma put_rows (rows : list (Z * list float)) :
  forall values, List.length values = List.length rows ->
    exists rows',
      zip_with (fun (r : Z * list float) x => (fst r, set_nth pos x (snd r))) rows values
      = Some rows'
      /\ map fst rows' = map fst rows
      /\ (forall n, Forall (fun r => List.length (snd r) = n) rows ->
                    Forall (fun r => List.length (snd r) = n) rows')
      /\ (Forall (fun r => (pos < List.length (snd r))%nat) rows ->
          map (fun r => nth pos (snd r) NaN) rows' = values)
      /\ (forall pos', pos <> pos' ->
            map (fun r => nth pos' (snd r) NaN) rows'
            = map (fun r => nth pos' (snd r) NaN) rows).
Proof.
  induction rows as [|r rows IH]; intros [|v values] Hlen; simpl in Hlen; try lia.
  - exists []. repeat split; auto.
  - destruct (IH values) as (rows' & Hz & Hidx & Hwf & Hread & Hother); [lia|].
    exists ((fst r, set_nth pos v (snd r)) :: rows'). cbn [zip_with]. rewrite Hz.
    repeat split.
    + cbn [map fst]. now rewrite Hidx.
    + intros n Hall. inversion Hall; subst. constructor.
      * cbn [snd]. now rewrite set_nth_length.
      * now apply Hwf.
    + intros Hall. inversion Hall; subst. cbn [map snd].
      rewrite OutlierFacts.nth_set_nth by assumption. f_equal. now apply Hread.
    + intros pos' Hne. cbn [map snd].
      rewrite nth_set_nth_other by exact Hne. f_equal. now apply Hother.
Qed.

End SetColumn.

(** Overwriting an existing column of a well-formed frame: the frame
    keeps its shape, the column reads back as written and every other
    column reads as before. *)
Lemma df_set_col_existing (key : string) (values old : list float) (data : DataFrame) :
  well_formed data ->
  df_col key data = Ok old ->
  List.length values = df_len data ->
  exists data',
    df_set_col key values data = Ok data'
    /\ df_columns data' = df_columns data
    /\ df_index data' = df_index data
    /\ well_formed data'
    /\ df_col key data' = Ok values
    /\ (forall k, k <> key -> df_col k data' = df_col k data).
Proof.
  intros Hwf Hold Hlen. unfold df_col in Hold.
  destruct (position key (df_columns data)) as [pos|] eqn:Hpos; [|discriminate].
  destruct (put_rows pos (df_rows data) values Hlen)
    as (rows' & Hz & Hidx & Hshape & Hread & Hother).
  exists (mkDataFrame (df_columns data) rows').
  unfold df_set_col. rewrite Hpos, Hz. cbn [bind].
  split; [reflexivity|]. split; [reflexivity|]. split; [exact Hidx|].
  split; [|split].
  - unfold well_formed. cbn [df_columns df_rows]. apply Hshape. exact Hwf.
  - unfold df_col. cbn [df_columns df_rows]. rewrite Hpos. f_equal. apply Hread.
    apply OutlierFacts.position_in_range in Hpos.
    eapply Forall_impl; [|exact Hwf]. intros r Hr. cbn beta in Hr. lia.
  - intros k Hk. unfold df_col. cbn [df_columns df_rows].
    destruct (position k (df_columns data)) as [pos'|] eqn:Hpos'; [|reflexivity].
    f_equal. apply Hother. intros ->. apply Hk.
    symmetry. exact (position_same (df_columns data) key k pos' Hpos Hpos').
Qed.

End FrameFacts.

(* ================================================================== *)
(** * Further properties of the quality filter *)
(* ================================================================== *)

Module QualityProperties.
Import AverageData OutlierSpec QualitySpec FrameFacts.

Lemma mask_flagged_masked (values flags : list float) :
  List.length values = List.length flags ->
  mask_flagged values flags = Ok (masked values flags).
Proof.
  unfold mask_flagged, masked. revert flags.
  induction values as [|v values IH]; intros [|f flags] Hlen; simpl in Hlen; try lia.
  - reflexivity.
  - cbn [zip_with combine map fst snd].
    specialize (IH flags ltac:(lia)).
    destruct (zip_with _ values flags) as [rest|]; [|discriminate IH].
    cbn [lift_shape] in IH. injection IH as ->. reflexivity.
Qed.

Lemma masked_length (values flags : list float) :
  List.length values = List.length flags ->
  List.length (masked values flags) = List.length values.
Proof.
  intros H. unfold masked. rewrite length_map, length_combine. lia.
Qed.

Lemma df_col_present (key : string) (data : DataFrame) :
  (exists col, df_col key data = Ok col) <-> position key (df_columns data) <> None.
Proof.
  unfold df_col. destruct (position key (df_columns data)); split.
  - discriminate.
  - eauto.
  - intros [col H]. discriminate H.
  - contradiction.
Qed.

Section QcLoop.

Variable qc : dict string.

Let body (data : DataFrame) (key : string) : result DataFrame :=
  flag_key <- dict_get key qc ;;
  flags <- df_col flag_key data ;;
  values <- df_col key data ;;
  masked <- mask_flagged values flags ;;
  df_set_col key masked data.

(** One pass of the loop over well-formed data. *)
Lemma qc_step (data : DataFrame) (key flag : string) (values flags : list float) :
  well_formed data ->
  dict_get key qc = Ok flag ->
  df_col key data = Ok values ->
  df_col flag data = Ok flags ->
  exists data',
    body data key = Ok data'
    /\ df_columns data' = df_columns data
    /\ df_index data' = df_index data
    /\ well_formed data'
    /\ df_col key data' = Ok (masked values flags)
    /\ (forall k, k <> key -> df_col k data' = df_col k data).
Proof.
  intros Hwf Hflag Hvalues Hflags. unfold body.
  rewrite Hflag. cbn [bind]. rewrite Hflags. cbn [bind]. rewrite Hvalues. cbn [bind].
  pose proof (CorrectionProperties.df_col_length _ _ _ Hvalues) as Hlv.
  pose proof (CorrectionProperties.df_col_length _ _ _ Hflags) as Hlf.
  rewrite mask_flagged_masked by congruence. cbn [bind].
  apply (df_set_col_existing key (masked values flags) values data Hwf Hvalues).
  rewrite masked_length by congruence. exact Hlv.
Qed.

Lemma qc_loop (keys : list string) :
  NoDup keys ->
  (forall k f, In k keys -> dict_get k qc = Ok f -> ~ In f keys) ->
  forall data,
    well_formed data ->
    (forall k, In k keys ->
       exists f values flags,
         dict_get k qc = Ok f /\ df_col k data = Ok values /\ df_col f data = Ok flags) ->
    exists result,
      for_each body keys data = Ok result
      /\ df_columns result = df_columns data
      /\ df_index result = df_index data
      /\ (forall k f values flags,
            In k keys -> dict_get k qc = Ok f ->
            df_col k data = Ok values -> df_col f data = Ok flags ->
            df_col k result = Ok (masked values flags))
      /\ (forall k, ~ In k keys -> df_col k result = df_col k data).
Proof.
  induction 1 as [|key keys Hnotin Hnodup IH]; intros Hflags data Hwf Hcols.
  - exists data. cbn [for_each]. repeat split; auto. intros k f v fl [].
  - destruct (Hcols key (or_introl eq_refl)) as (flag & values & flags & Hf & Hv & Hfl).
    destruct (qc_step data key flag values flags Hwf Hf Hv Hfl)
      as (d1 & Hstep & Hc1 & Hi1 & Hwf1 & Hread1 & Hother1).
    assert (Hflag_ne : forall k f, In k (key :: keys) -> dict_get k qc = Ok f -> f <> key).
    { intros k f Hk Hkf ->. apply (Hflags k key Hk Hkf). now left. }
    destruct (IH (fun k f Hk Hkf Hin => Hflags k f (or_intror Hk) Hkf (or_intror Hin))
                 d1 Hwf1) as (result & Hloop & Hc & Hi & Hmask & Hrest).
    { intros k Hk.
      destruct (Hcols k (or_intror Hk)) as (f & v & fl & Hkf & Hkv & Hkfl).
      exists f, v, fl. split; [exact Hkf|]. split.
      - rewrite Hother1; [exact Hkv|]. intros ->. contradiction.
      - rewrite Hother1; [exact Hkfl|]. apply (Hflag_ne k f (or_intror Hk) Hkf). }
    exists result. cbn [for_each]. rewrite Hstep. cbn [bind].
    split; [exact Hloop|]. split; [congruence|]. split; [congruence|]. split.
    + intros k f v fl [<-|Hk] Hkf Hkv Hkfl.
      * rewrite Hrest by exact Hnotin.
        rewrite Hf in Hkf. injection Hkf as <-.
        rewrite Hv in Hkv. injection Hkv as <-.
        rewrite Hfl in Hkfl. injection Hkfl as <-. exact Hread1.
      * apply (Hmask k f v fl Hk Hkf).
        -- rewrite Hother1; [exact Hkv|]. intros ->. contradiction.
        -- rewrite Hother1; [exact Hkfl|]. apply (Hflag_ne k f (or_intror Hk) Hkf).
    + intros k Hk. rewrite Hrest by (intros Hin; apply Hk; now right).
      apply Hother1. intros ->. apply Hk. now left.
Qed.

(** A successful loop has found every key and its flag among the
    columns. *)
Lemma qc_loop_columns (keys : list string) :
  forall data result,
    for_each body keys data = Ok result ->
    df_columns result = df_columns data
    /\ forall k, In k keys ->
         exists f, dict_get k qc = Ok f
                   /\ position k (df_columns data) <> None
                   /\ position f (df_columns data) <> None.
Proof.
  induction keys as [|key keys IH]; intros data result H; cbn [for_each] in H.
  - injection H as <-. split; [reflexivity|]. intros k [].
  - destruct (body data key) as [d1|e] eqn:Hstep; cbn [bind] in H; [|discriminate H].
    destruct (IH d1 result H) as [Hc Hrest].
    unfold body in Hstep.
    destruct (dict_get key qc) as [flag|] eqn:Hflag; cbn [bind] in Hstep;
      [|discriminate Hstep].
    destruct (df_col flag data) as [flags|] eqn:Hflags; cbn [bind] in Hstep;
      [|discriminate Hstep].
    destruct (df_col key data) as [values|] eqn:Hvalues; cbn [bind] in Hstep;
      [|discriminate Hstep].
    destruct (mask_flagged values flags) as [m|]; cbn [bind] in Hstep;
      [|discriminate Hstep].
    assert (Hkey : position key (df_columns data) <> None).
    { apply df_col_present. eauto. }
    assert (Hc1 : df_columns d1 = df_columns data).
    { unfold df_set_col in Hstep.
      destruct (position key (df_columns data)); [|contradiction].
      destruct (zip_with _ (df_rows data) m); cbn [bind] in Hstep;
        [|discriminate Hstep].
      now injection Hstep as <-. }
    split; [congruence|].
    intros k [<-|Hk].
    + exists flag. split; [exact Hflag|]. split; [exact Hkey|].
      apply df_col_present. eauto.
    + rewrite <- Hc1. now apply Hrest.
Qed.

End QcLoop.

Lemma qc_dict_entry (key flag : string) :
  In (key, flag) get_qc_dict ->
  In key (dict_keys get_qc_dict) /\ dict_get key get_qc_dict = Ok flag.
Proof.
  unfold get_qc_dict. cbn [In].
  intros [H|[H|[H|[H|[H|[]]]]]]; injection H as <- <-;
    (split; [cbn; tauto | reflexivity]).
Qed.

Lemma qc_dict_key (key : string) :
  In key (dict_keys get_qc_dict) ->
  exists flag, In (key, flag) get_qc_dict /\ ~ In flag (dict_keys get_qc_dict).
Proof.
  unfold get_qc_dict. cbn [dict_keys map fst In].
  intros [<-|[<-|[<-|[<-|[<-|[]]]]]]; eexists;
    (split; [cbn [In]; eauto 10 |
             cbn [In]; intros H; repeat destruct H as [H|H]; try discriminate H; exact H]).
Qed.

(** X14. On a well-formed frame that has the five measured columns and
    their five flag columns, the quality check succeeds; it keeps the
    column names and the timestamps, replaces each measured column by
    its values masked where its own flag is above zero, and leaves every
    other column, the flags included, as it was. *)
Theorem qc_check_data_masks (data : DataFrame) :
  well_formed data ->
  Forall (fun c => exists col, df_col c data = Ok col) qc_columns ->
  exists result,
    qc_check_data data = Ok result
    /\ df_columns result = df_columns data
    /\ df_index result = df_index data
    /\ (forall key flag values flags,
          In (key, flag) get_qc_dict ->
          df_col key data = Ok values -> df_col flag data = Ok flags ->
          df_col key result = Ok (masked values flags))
    /\ (forall k, ~ In k (dict_keys get_qc_dict) -> df_col k result = df_col k data).
Proof.
  intros Hwf Hcols. rewrite Forall_forall in Hcols.
  destruct (qc_loop get_qc_dict (dict_keys get_qc_dict)) with (data := data)
    as (result & Hloop & Hc & Hi & Hmask & Hrest).
  - unfold get_qc_dict. cbn [dict_keys map fst].
    repeat constructor; cbn [In]; intros H;
      repeat destruct H as [H|H]; try discriminate H; exact H.
  - intros k f Hk Hkf.
    destruct (qc_dict_key k Hk) as (flag & Hin & Hnot).
    destruct (qc_dict_entry k flag Hin) as [_ Hget].
    rewrite Hget in Hkf. now injection Hkf as <-.
  - exact Hwf.
  - intros k Hk. destruct (qc_dict_key k Hk) as (flag & Hin & _).
    destruct (qc_dict_entry k flag Hin) as [_ Hget].
    destruct (Hcols k) as [values Hv].
    { unfold qc_columns. apply in_or_app. now left. }
    destruct (Hcols flag) as [flags Hfl].
    { unfold qc_columns. apply in_or_app. right.
      apply in_map_iff. now exists (k, flag). }
    exists flag, values, flags. auto.
  - exists result. split; [exact Hloop|]. split; [exact Hc|]. split; [exact Hi|].
    split; [|exact Hrest].
    intros key flag values flags Hin Hv Hfl.
    destruct (qc_dict_entry key flag Hin) as [Hk Hget].
    exact (Hmask key flag values flags Hk Hget Hv Hfl).
Qed.

Lemma qc_check_data_masks_witness :
  exists result,
    qc_check_data Demo.flagged = Ok result
    /\ df_columns result = df_columns Demo.flagged
    /\ df_index result = df_index Demo.flagged
    /\ (forall key flag values flags,
          In (key, flag) get_qc_dict ->
          df_col key Demo.flagged = Ok values -> df_col flag Demo.flagged = Ok flags ->
          df_col key result = Ok (masked values flags))
    /\ (forall k, ~ In k (dict_keys get_qc_dict) ->
                  df_col k result = df_col k Demo.flagged).
Proof.
  apply (qc_check_data_masks Demo.flagged).
  - repeat constructor.
  - repeat constructor; eexists; reflexivity.
Defined.

(** X15. The quality check succeeds only on a frame that has all ten
    columns: when a measured column or a flag column is missing it raises
    an error instead of returning. *)
Theorem qc_check_data_needs_columns (data result : DataFrame) :
  qc_check_data data = Ok result ->
  Forall (fun c => exists col, df_col c data = Ok col) qc_columns.
Proof.
  intros H. unfold qc_check_data in H. cbv zeta in H.
  destruct (qc_loop_columns get_qc_dict _ _ _ H) as [_ Hkeys].
  apply Forall_forall. intros c Hc. unfold qc_columns in Hc.
  apply in_app_or in Hc as [Hc|Hc].
  - destruct (Hkeys c Hc) as (f & _ & Hpos & _). now apply df_col_present.
  - apply in_map_iff in Hc as [[key flag] [<- Hin]].
    destruct (qc_dict_entry key flag Hin) as [Hk Hget].
    destruct (Hkeys key Hk) as (f & Hf & _ & Hpos).
    rewrite Hget in Hf. injection Hf as <-. now apply df_col_present.
Qed.

Lemma qc_check_data_needs_columns_witness :
  Forall (fun c => exists col, df_col c Demo.flagged = Ok col) qc_columns.
Proof.
  eapply (qc_check_data_needs_columns Demo.flagged). reflexivity.
Defined.

End QualityProperties.

(* ================================================================== *)
(** * Further properties of outlier marking and gap filling *)
(* ================================================================== *)

Module GapProperties.
Import AverageData OutlierSpec.

(** ** Outlier marking *)

Lemma compare_with_nan (data : list float) :
  map (fun x => if fgt x NaN || flt x NaN then NaN else x) data = data.
Proof.
  induction data as [|x data IH]; [reflexivity|].
  cbn [map]. rewrite IH. unfold fgt. cbn [flt].
  now rewrite OutlierFacts.flt_nan_r.
Qed.

Lemma percentile_in_range (data : list float) (q : R) :
  0 <= q <= 100 ->
  percentile data q
  = if existsb isnan data then Ok NaN
    else match sort_floats data with
         | [] => Err (IndexError "index -1 is out of bounds for axis 0 with size 0")
         | (x0 :: _) as sorted =>
             let n := List.length sorted in
             let virtual := INR (n - 1) * (q / 100) in
             let i := floor_nat virtual in
             let gamma := virtual - INR i in
             let below := nth i sorted x0 in
             let above := nth (Nat.min (S i) (n - 1)) sorted x0 in
             Ok (fadd below (fmul (fsub above below) (Fin gamma)))
         end.
Proof.
  intros Hq. unfold percentile, Rleb.
  destruct (Rle_dec 0 q); [|lra]. destruct (Rle_dec q 100); [|lra]. reflexivity.
Qed.

Lemma insert_sorted_not_empty (x : float) (l : list float) : insert_sorted x l <> [].
Proof. destruct l as [|y l]; cbn [insert_sorted]; [|destruct (fle x y)]; discriminate. Qed.

Lemma percentile_defined (data : list float) (q : R) :
  data <> [] -> 0 <= q <= 100 -> exists v, percentile data q = Ok v.
Proof.
  intros Hdata Hq. rewrite (percentile_in_range data q Hq).
  destruct (existsb isnan data); [eauto|].
  destruct data as [|x data]; [contradiction|].
  unfold sort_floats. cbn [fold_right].
  destruct (insert_sorted x _) eqn:Hsorted; [|eauto].
  now apply insert_sorted_not_empty in Hsorted.
Qed.

Lemma percentile_empty (q : R) :
  0 <= q <= 100 ->
  percentile [] q = Err (IndexError "index -1 is out of bounds for axis 0 with size 0").
Proof. intros Hq. now rewrite (percentile_in_range [] q Hq). Qed.

Lemma percentile_out_of_range (data : list float) (q : R) :
  ~ 0 <= q <= 100 ->
  percentile data q = Err (ValueError "Percentiles must be in the range [0, 100]").
Proof.
  intros Hq. unfold percentile, Rleb.
  destruct (Rle_dec 0 q); [|reflexivity]. destruct (Rle_dec q 100); [lra | reflexivity].
Qed.

(** X16. A series that already has a missing value passes the outlier
    marking unchanged, whatever the (valid) percentile bounds: both
    percentile values are then missing and no comparison with them
    holds. *)
Theorem outliers_to_nans_with_gap (data : list float) (qmin qmax : R) :
  0 <= qmin <= 100 ->
  0 <= qmax <= 100 ->
  existsb isnan data = true ->
  outliers_to_nans data qmin qmax = Ok data.
Proof.
  intros Hmin Hmax Hgap. unfold outliers_to_nans.
  rewrite (percentile_in_range data qmin Hmin), (percentile_in_range data qmax Hmax).
  rewrite Hgap. cbn [bind]. now rewrite compare_with_nan.
Qed.

Lemma outliers_to_nans_with_gap_witness :
  outliers_to_nans [Fin 1; NaN; Fin 1000] 1 97 = Ok [Fin 1; NaN; Fin 1000].
Proof.
  apply (outliers_to_nans_with_gap [Fin 1; NaN; Fin 1000] 1 97); try lra.
  reflexivity.
Defined.

(** X17. On a series that is not empty, with both percentiles in
    [[0, 100]], the outlier marking succeeds, keeps the length of the
    series and only marks: every entry of the result is the entry of the
    input or a missing value.  On the empty series it raises
    [IndexError].  With the lower percentile outside [[0, 100]], or with
    the upper one outside on a series that is not empty, it raises
    [ValueError]. *)
Theorem outliers_to_nans_only_marks (data : list float) (qmin qmax : R) :
  (data <> [] -> 0 <= qmin <= 100 -> 0 <= qmax <= 100 ->
   exists marked,
     outliers_to_nans data qmin qmax = Ok marked
     /\ List.length marked = List.length data
     /\ Forall2 (fun x y => y = x \/ y = NaN) data marked)
  /\ (data = [] -> 0 <= qmin <= 100 ->
      outliers_to_nans data qmin qmax
      = Err (IndexError "index -1 is out of bounds for axis 0 with size 0"))
  /\ (~ 0 <= qmin <= 100 \/ (data <> [] /\ ~ 0 <= qmax <= 100) ->
      outliers_to_nans data qmin qmax
      = Err (ValueError "Percentiles must be in the range [0, 100]")).
Proof.
  split; [|split].
  - intros Hdata Hmin Hmax. unfold outliers_to_nans.
    destruct (percentile_defined data qmin Hdata Hmin) as [lo ->].
    destruct (percentile_defined data qmax Hdata Hmax) as [hi ->].
    cbn [bind]. eexists. split; [reflexivity|]. split; [apply length_map|].
    clear Hdata. induction data as [|x data IH]; cbn [map]; constructor; [|exact IH].
    destruct (fgt x hi || flt x lo); auto.
  - intros -> Hmin. unfold outliers_to_nans.
    now rewrite (percentile_empty qmin Hmin).
  - intros Hout. unfold outliers_to_nans.
    destruct (Rle_dec 0 qmin) as [H1|H1]; [destruct (Rle_dec qmin 100) as [H2|H2]|].
    + destruct Hout as [Hout|[Hdata Hout]]; [exfalso; apply Hout; split; assumption|].
      destruct (percentile_defined data qmin Hdata (conj H1 H2)) as [lo ->].
      cbn [bind]. now rewrite (percentile_out_of_range data qmax Hout).
    + rewrite percentile_out_of_range by lra. reflexivity.
    + rewrite percentile_out_of_range by lra. reflexivity.
Qed.

Lemma outliers_to_nans_only_marks_witness :
  (exists marked,
     outliers_to_nans [Fin 1; Fin 5; Fin 2; Fin 3] 1 97 = Ok marked
     /\ List.length marked = 4%nat
     /\ Forall2 (fun x y => y = x \/ y = NaN) [Fin 1; Fin 5; Fin 2; Fin 3] marked)
  /\ outliers_to_nans [] 1 97
     = Err (IndexError "index -1 is out of bounds for axis 0 with size 0")
  /\ outliers_to_nans [Fin 1; Fin 5] 1 101
     = Err (ValueError "Percentiles must be in the range [0, 100]").
Proof.
  split; [|split].
  - apply (proj1 (outliers_to_nans_only_marks [Fin 1; Fin 5; Fin 2; Fin 3] 1 97));
      [discriminate | lra | lra].
  - apply (proj1 (proj2 (outliers_to_nans_only_marks [] 1 97))); [reflexivity | lra].
  - apply (proj2 (proj2 (outliers_to_nans_only_marks [Fin 1; Fin 5] 1 101))).
    right. split; [discriminate | lra].
Defined.

(** ** Gap filling *)

(** The values [interp_nans] writes: one interpolated value per missing
    position. *)
Lemma interp_nans_values (data filled : list float) :
  interp_nans data = Ok filled ->
  let xp := map of_nat (positions_from 0 (fun x => negb (isnan x)) data) in
  let fp := filter (fun x => negb (isnan x)) data in
  xp <> []
  /\ filled = assign_nans data
               (map (fun i => interp_at (of_nat i) xp fp None)
                    (positions_from 0 isnan data)).
Proof.
  unfold interp_nans, np_interp. intros H.
  destruct (map of_nat (positions_from 0 (fun x => negb (isnan x)) data))
    as [|x1 xp] eqn:Hxp; [discriminate H|].
  destruct (Nat.eqb _ _); [|discriminate H].
  cbn [bind] in H. injection H as <-. cbv zeta. rewrite map_map.
  split; [discriminate | reflexivity].
Qed.

Lemma assign_nans_length (data : list float) :
  forall values, List.length (assign_nans data values) = List.length data.
Proof.
  induction data as [|x data IH]; intros values; [reflexivity|].
  cbn [assign_nans]. destruct (isnan x); [destruct values|]; cbn [List.length];
    now rewrite IH.
Qed.

Lemma assign_nans_keeps (data : list float) :
  forall values,
    Forall2 (fun x y => isnan x = false -> y = x) data (assign_nans data values).
Proof.
  induction data as [|x data IH]; intros values; [constructor|].
  cbn [assign_nans]. destruct (isnan x) eqn:Hx.
  - destruct values; constructor; try apply IH; intros H; congruence.
  - constructor; [intros _; reflexivity | apply IH].
Qed.

(** X18. Gap filling changes missing values only: the result has the
    length of the input, and every value that was present is still there,
    in its place. *)
Theorem interp_nans_keeps_values (data filled : list float) :
  interp_nans data = Ok filled ->
  List.length filled = List.length data
  /\ Forall2 (fun x y => isnan x = false -> y = x) data filled.
Proof.
  intros H. destruct (interp_nans_values data filled H) as [_ ->].
  split; [apply assign_nans_length | apply assign_nans_keeps].
Qed.

Lemma interp_nans_keeps_values_witness :
  List.length [Fin 2; Fin 2; Fin 2; Fin 3] = List.length [NaN; NaN; Fin 2; Fin 3]
  /\ Forall2 (fun x y => isnan x = false -> y = x)
             [NaN; NaN; Fin 2; Fin 3] [Fin 2; Fin 2; Fin 2; Fin 3].
Proof.
  apply (interp_nans_keeps_values [NaN; NaN; Fin 2; Fin 3] [Fin 2; Fin 2; Fin 2; Fin 3]).
  exact OutlierFacts.interp_first_pass.
Defined.



Lemma present_not_missing (data : list float) :
  existsb isnan data = false ->
  filter (fun x => negb (isnan x)) data = data
  /\ forall i, positions_from i isnan data = [].
Proof.
  induction data as [|x data IH]; intros Hdata; [split; reflexivity|].
  cbn [existsb] in Hdata. apply orb_false_elim in Hdata as [Hx Hdata].
  destruct (IH Hdata) as [IH1 IH2].
  cbn [filter positions_from]. rewrite Hx. cbn [negb].
  split; [now rewrite IH1 | intros i; apply IH2].
Qed.

(** X20. A series without missing values is returned unchanged by the
    gap filling, provided it is not empty; on the empty series the gap
    filling raises [ValueError]. *)
Theorem interp_nans_without_gap (data : list float) :
  existsb isnan data = false ->
  (data <> [] -> interp_nans data = Ok data)
  /\ (data = [] ->
      interp_nans data = Err (ValueError "array of sample points is empty")).
Proof.
  intros Hdata. split; [|intros ->; reflexivity].
  intros Hne. unfold interp_nans.
  destruct (present_not_missing data Hdata) as [Hvalid Hnan].
  rewrite Hnan, Hvalid. cbn [map]. unfold np_interp.
  destruct (map of_nat (positions_from 0 (fun x => negb (isnan x)) data))
    as [|x1 xp] eqn:Hxp.
  - apply (f_equal (@List.length float)) in Hxp.
    rewrite length_map, OutlierFacts.positions_length, Hvalid in Hxp.
    destruct data; [contradiction | discriminate Hxp].
  - rewrite <- Hxp, length_map, OutlierFacts.positions_length, Hvalid, Nat.eqb_refl.
    cbn [map bind]. f_equal.
    clear. induction data as [|x data IH]; [reflexivity|].
    cbn [assign_nans]. destruct (isnan x); now rewrite IH.
Qed.

Lemma interp_nans_without_gap_witness :
  interp_nans [Fin 2; PInf; Fin 3] = Ok [Fin 2; PInf; Fin 3].
Proof.
  apply (proj1 (interp_nans_without_gap [Fin 2; PInf; Fin 3] eq_refl)). discriminate.
Defined.

(** ** Gaps at the two ends of a series *)

Lemma positions_from_app (p : float -> bool) (l1 l2 : list float) :
  forall i,
    positions_from i p (l1 ++ l2)
    = (positions_from i p l1 ++ positions_from (i + List.length l1) p l2)%list.
Proof.
  induction l1 as [|x l1 IH]; intros i; cbn [positions_from app List.length].
  - now rewrite Nat.add_0_r.
  - rewrite IH. replace (S i + List.length l1)%nat with (i + S (List.length l1))%nat by lia.
    destruct (p x); reflexivity.
Qed.

Lemma positions_of_gap (k : nat) :
  forall i,
    positions_from i isnan (repeat NaN k) = seq i k
    /\ positions_from i (fun x => negb (isnan x)) (repeat NaN k) = [].
Proof.
  induction k as [|k IH]; intros i; [split; reflexivity|].
  cbn [repeat positions_from isnan negb seq]. destruct (IH (S i)) as [-> ->].
  split; reflexivity.
Qed.

Lemma positions_bounded (p : float -> bool) (l : list float) :
  forall i, Forall (fun j => (j < i + List.length l)%nat) (positions_from i p l).
Proof.
  induction l as [|x l IH]; intros i; cbn [positions_from List.length]; [constructor|].
  specialize (IH (S i)).
  assert (H : Forall (fun j => (j < i + S (List.length l))%nat) (positions_from (S i) p l)).
  { eapply Forall_impl; [|exact IH]. intros j Hj. cbn beta in Hj. lia. }
  destruct (p x); [constructor; [lia | exact H] | exact H].
Qed.

Lemma filter_gap (k : nat) :
  filter (fun x => negb (isnan x)) (repeat NaN k) = [].
Proof. induction k as [|k IH]; [reflexivity | exact IH]. Qed.

Lemma assign_nans_gap (k : nat) :
  forall values, List.length values = k -> assign_nans (repeat NaN k) values = values.
Proof.
  induction k as [|k IH]; intros [|v values] Hlen; simpl in Hlen; try lia; [reflexivity|].
  cbn [repeat assign_nans isnan]. rewrite IH by lia. reflexivity.
Qed.

Lemma assign_nans_app (l1 l2 : list float) :
  forall v1 v2,
    List.length v1 = List.length (filter isnan l1) ->
    assign_nans (l1 ++ l2) (v1 ++ v2) = (assign_nans l1 v1 ++ assign_nans l2 v2)%list.
Proof.
  induction l1 as [|x l1 IH]; intros v1 v2 Hlen; cbn [filter] in Hlen.
  - destruct v1; [reflexivity | discriminate Hlen].
  - cbn [app assign_nans]. destruct (isnan x).
    + destruct v1 as [|v v1]; [discriminate Hlen|].
      cbn [app]. rewrite IH by (simpl in Hlen; lia). reflexivity.
    + rewrite IH by exact Hlen. reflexivity.
Qed.

Lemma assign_nans_none (l : list float) : assign_nans l [] = l.
Proof.
  induction l as [|x l IH]; [reflexivity|].
  cbn [assign_nans]. destruct (isnan x); now rewrite IH.
Qed.

Lemma map_constant {A B : Type} (g : A -> B) (x : B) (l : list A) :
  (forall i, In i l -> g i = x) -> map g l = repeat x (List.length l).
Proof.
  induction l as [|i l IH]; intros Hall; [reflexivity|].
  cbn [map List.length repeat]. rewrite (Hall i (or_introl eq_refl)). f_equal.
  apply IH. intros j Hj. apply Hall. now right.
Qed.

Lemma last_cons_default {A : Type} (l : list A) :
  forall a d, last (a :: l) d = last l a.
Proof.
  induction l as [|b l IH]; intros a d; [reflexivity|].
  change (last (a :: b :: l) d) with (last (b :: l) d).
  rewrite (IH b d), (IH b a). reflexivity.
Qed.

(** Right of every sample point, [np.interp] returns the last value. *)
Lemma interp_at_beyond (a : R) :
  forall xp fp prev,
    List.length xp = List.length fp ->
    Forall (fun c => exists b, c = Fin b /\ b < a) xp ->
    interp_at (Fin a) xp fp prev
    = match fp with
      | [] => match prev with Some (_, f0) => f0 | None => NaN end
      | f :: fp' => last fp' f
      end.
Proof.
  induction xp as [|x1 xp IH]; intros [|f1 fp] prev Hlen Hall; try discriminate Hlen.
  - reflexivity.
  - inversion Hall as [|c l [b [-> Hb]] Hrest]; subst.
    cbn [interp_at flt feq]. unfold Rltb, Reqb.
    destruct (Rlt_dec a b); [lra|]. destruct (Req_dec_T a b); [lra|].
    rewrite IH; [|simpl in Hlen; lia | exact Hrest].
    destruct fp as [|f fp]; [reflexivity | symmetry; apply last_cons_default].
Qed.

(** X21. The rule for the two ends of a series (the note in the
    docstring): missing values before the first present value are all
    replaced by that value, and missing values after the last present
    value are all replaced by that one. *)
Theorem interp_nans_at_the_ends (x : float) (k : nat) (rest before : list float) :
  isnan x = false ->
  (forall filled,
      interp_nans (repeat NaN k ++ x :: rest) = Ok filled ->
      firstn k filled = repeat x k)
  /\ (forall filled,
        interp_nans (before ++ x :: repeat NaN k) = Ok filled ->
        skipn (S (List.length before)) filled = repeat x k).
Proof.
  intros Hx. split; intros filled H.
  - destruct (interp_nans_values _ _ H) as [_ ->].
    rewrite !positions_from_app. cbn [Nat.add positions_from].
    rewrite Hx. cbn [negb].
    destruct (positions_of_gap k 0) as [-> ->]. cbn [app].
    rewrite filter_app, filter_gap. cbn [app filter]. rewrite Hx. cbn [negb].
    rewrite repeat_length. cbn [map]. rewrite map_app.
    rewrite assign_nans_app
      by (rewrite length_map, length_seq;
          clear; induction k as [|k IH]; [reflexivity | cbn; now rewrite <- IH]).
    rewrite firstn_app, assign_nans_length, repeat_length, Nat.sub_diag.
    cbn [firstn]. rewrite app_nil_r.
    rewrite firstn_all2 by (rewrite assign_nans_length, repeat_length; lia).
    rewrite assign_nans_gap by (rewrite length_map; apply length_seq).
    clear H. generalize (map of_nat (positions_from (S k)
                                       (fun x0 => negb (isnan x0)) rest)) as xp.
    generalize (filter (fun x0 => negb (isnan x0)) rest) as fp. intros fp xp.
    assert (Hall : forall i, In i (seq 0 k) ->
                     interp_at (of_nat i) (of_nat k :: xp) (x :: fp) None = x).
    { intros i Hi. apply in_seq in Hi. unfold of_nat. cbn [interp_at flt]. unfold Rltb.
      destruct (Rlt_dec (INR i) (INR k)) as [_|Hn]; [reflexivity|].
      exfalso. apply Hn. apply lt_INR. lia. }
    rewrite (map_constant _ x (seq 0 k) Hall). now rewrite length_seq.
  - destruct (interp_nans_values _ _ H) as [_ ->].
    rewrite !positions_from_app. cbn [Nat.add positions_from].
    rewrite Hx. cbn [negb].
    destruct (positions_of_gap k (S (List.length before))) as [-> ->].
    rewrite filter_app. cbn [filter]. rewrite Hx. cbn [negb]. rewrite filter_gap.
    rewrite map_app.
    rewrite assign_nans_app by (rewrite length_map; apply OutlierFacts.positions_length).
    rewrite skipn_app, assign_nans_length.
    replace (S (List.length before) - List.length before)%nat with 1%nat by lia.
    rewrite skipn_all2 by (rewrite assign_nans_length; lia).
    cbn [app assign_nans]. rewrite Hx. cbn [skipn].
    rewrite assign_nans_gap by (rewrite length_map; apply length_seq).
    set (valid := positions_from 0 (fun x0 => negb (isnan x0)) before).
    assert (Hall : forall i, In i (seq (S (List.length before)) k) ->
                     interp_at (of_nat i)
                       (map of_nat (valid ++ [List.length before]))
                       (filter (fun x0 => negb (isnan x0)) before ++ [x]) None = x).
    { intros i Hi. apply in_seq in Hi. unfold of_nat at 1.
      rewrite interp_at_beyond.
      - destruct (filter (fun x0 => negb (isnan x0)) before) as [|f fp];
          [reflexivity|]. cbn [app]. apply last_last.
      - rewrite length_map, !length_app. cbn [List.length].
        unfold valid. now rewrite OutlierFacts.positions_length.
      - apply Forall_forall. intros c Hc. apply in_map_iff in Hc as [j [<- Hj]].
        exists (INR j). split; [reflexivity|]. apply lt_INR.
        apply in_app_or in Hj as [Hj|[<-|[]]]; [|lia].
        pose proof (positions_bounded (fun x0 => negb (isnan x0)) before 0) as Hb.
        rewrite Forall_forall in Hb. specialize (Hb j Hj). cbn beta in Hb. lia. }
    rewrite (map_constant _ x (seq (S (List.length before)) k) Hall).
    now rewrite length_seq.
Qed.

Lemma interp_nans_at_the_ends_witness :
  firstn 2 [Fin 2; Fin 2; Fin 2; Fin 3] = repeat (Fin 2) 2.
Proof.
  apply (proj1 (interp_nans_at_the_ends (Fin 2) 2 [Fin 3] [] eq_refl)).
  exact OutlierFacts.interp_first_pass.
Defined.

End GapProperties.

(* ================================================================== *)
(** * Further properties of the combine step *)
(* ================================================================== *)

Module CombineProperties.
Import AverageData CombineSpec CombineSeries.

(** ** Dictionaries *)

Lemma dict_get_set_same {A : Type} (k : string) (v : A) (d : dict A) :
  dict_get k (dict_set k v d) = Ok v.
Proof.
  unfold dict_get. induction d as [|[k' v'] d IH]; cbn [dict_set dict_find].
  - now rewrite String.eqb_refl.
  - destruct (String.eqb k k') eqn:Hk; cbn [dict_find]; rewrite Hk; [reflexivity|].
    exact IH.
Qed.

Lemma dict_get_set_other {A : Type} (k k' : string) (v : A) (d : dict A) :
  k <> k' -> dict_get k (dict_set k' v d) = dict_get k d.
Proof.
  intros Hne. unfold dict_get. apply String.eqb_neq in Hne.
  induction d as [|[k0 v0] d IH]; cbn [dict_set dict_find].
  - now rewrite Hne.
  - destruct (String.eqb k' k0) eqn:Hk'; cbn [dict_find].
    + apply String.eqb_eq in Hk' as <-. now rewrite Hne.
    + destruct (String.eqb k k0); [reflexivity | exact IH].
Qed.

(** ** The arrays of one field *)

(** A list is the list of its entries. *)
Lemma list_from_nth (F : nat -> float) (l : list float) :
  forall n, List.length l = n ->
    (forall j, (j < n)%nat -> nth j l NaN = F j) ->
    l = map F (seq 0 n).
Proof.
  assert (H : forall n i, List.length l = n ->
            (forall j, (j < n)%nat -> nth j l NaN = F (i + j)%nat) ->
            l = map F (seq i n)).
  { induction l as [|x l IH]; intros n i Hlen Hnth; subst n; [reflexivity|].
    cbn [List.length seq map]. f_equal.
    - specialize (Hnth O ltac:(simpl; lia)). now rewrite Nat.add_0_r in Hnth.
    - apply IH; [reflexivity|]. intros j Hj.
      specialize (Hnth (S j) ltac:(simpl; lia)).
      now replace (S i + j)%nat with (i + S j)%nat by lia. }
  intros n Hlen Hnth. apply H; [exact Hlen|]. intros j Hj. now apply Hnth.
Qed.

Lemma nth_means (n j : nat) (m : list (list float)) (d : float) :
  (j < n)%nat -> nth j (means n m) d = mean (column j m).
Proof.
  intros Hj. unfold means.
  rewrite (nth_indep _ d (mean (column 0 m))) by (rewrite length_map, length_seq; lia).
  rewrite (map_nth (fun j => mean (column j m)) (seq 0 n) 0%nat j).
  now rewrite seq_nth.
Qed.

Lemma nth_errors (n j : nat) (m : list (list float)) (d : float) :
  (j < n)%nat -> nth j (errors n m) d = poisson_percentage (column j m).
Proof.
  intros Hj. unfold errors.
  rewrite (nth_indep _ d (poisson_percentage (column 0 m)))
    by (rewrite length_map, length_seq; lia).
  rewrite (map_nth (fun j => poisson_percentage (column j m)) (seq 0 n) 0%nat j).
  now rewrite seq_nth.
Qed.

(** What one pass of the loop of [average_each_key] adds to the
    averages. *)
Lemma average_step (data_dict average : dict ndarray) (key : string)
  (m : list (list float)) (n : nat) :
  dict_get key data_dict = Ok (Arr2 m) ->
  rectangular n m ->
  (a <- dict_get key data_dict ;;
   summed <- nansum_axis0 a ;;
   a <- dict_get key data_dict ;;
   num_not_nan <- count_not_nan_axis0 a ;;
   ratio <- nd_map2 fdiv (nd_map fsqrt summed) summed ;;
   err <- nd_map2 fmul ratio (Scalar (Fin 100)) ;;
   mean <- nd_map2 fdiv summed num_not_nan ;;
   Ok (dict_set key mean (dict_set ("E_" ++ key) err average)))
  = Ok (dict_set key (Arr1 (means n m))
          (dict_set ("E_" ++ key) (Arr1 (errors n m)) average)).
Proof.
  intros Hget Hrect.
  pose proof (CombineFacts.ncols_rectangular n m Hrect) as Hcols.
  destruct Hrect as [_ Hall].
  rewrite Hget. cbn [bind nansum_axis0 count_not_nan_axis0 nd_map]. rewrite Hcols.
  set (total := fold_left (fun acc row => row_add acc (map nan_to_zero row)) m
                  (repeat (Fin 0) n)).
  set (counts := fold_left row_count m (repeat O n)).
  assert (Htotal : List.length total = n).
  { destruct n as [|k].
    - subst total. clear -Hall. induction Hall as [|row m Hrow _ IH]; [reflexivity|].
      cbn [fold_left repeat row_add combine map]. exact IH.
    - apply (CombineFacts.nansum_rows_column (S k) O (Nat.lt_0_succ k) m Hall).
      apply repeat_length. }
  assert (Hcounts : List.length counts = n).
  { destruct n as [|k].
    - subst counts. clear -Hall. induction Hall as [|row m Hrow _ IH]; [reflexivity|].
      cbn [fold_left repeat row_count combine map]. exact IH.
    - apply (CombineFacts.count_rows_column (S k) O (Nat.lt_0_succ k) m Hall).
      apply repeat_length. }
  assert (Hsum : forall j, (j < n)%nat -> nth j total NaN = summed_counts (column j m)).
  { intros j Hj.
    destruct (CombineFacts.nansum_rows_column n j Hj m Hall (repeat (Fin 0) n)
                (repeat_length _ _)) as [_ Hs].
    fold total in Hs. rewrite CombineFacts.nth_repeat_lt in Hs by exact Hj.
    now rewrite CombineFacts.nansum_present in Hs. }
  assert (Hcount : forall j, (j < n)%nat -> nth j counts O = contributors (column j m)).
  { intros j Hj.
    destruct (CombineFacts.count_rows_column n j Hj m Hall (repeat O n)
                (repeat_length _ _)) as [_ Hc].
    fold counts in Hc. now rewrite CombineFacts.nth_repeat_lt in Hc by exact Hj. }
  destruct (CombineFacts.zip_with_same_length fdiv (map fsqrt total) total)
    as (ratio & Hratio & Hratio_len & Hratio_nth);
    [now rewrite length_map|].
  destruct (CombineFacts.zip_with_same_length fdiv total (map of_nat counts))
    as (mean_values & Hmeans & Hmeans_len & Hmeans_nth);
    [rewrite length_map; congruence|].
  rewrite length_map in Hratio_len.
  cbn [nd_map2]. rewrite Hratio. cbn [lift_shape bind nd_map nd_map2].
  rewrite Hmeans. cbn [lift_shape bind].
  assert (Hm : mean_values = means n m).
  { apply list_from_nth; [congruence|]. intros j Hj.
    rewrite (Hmeans_nth j NaN NaN NaN) by lia.
    rewrite (CombineFacts.nth_map_lt of_nat counts j O NaN) by lia.
    now rewrite Hsum, Hcount by exact Hj. }
  assert (He : map (fun x => (x * Fin 100)%fl) ratio = errors n m).
  { apply list_from_nth; [rewrite length_map; congruence|]. intros j Hj.
    rewrite (CombineFacts.nth_map_lt _ ratio j NaN NaN) by lia.
    rewrite (Hratio_nth j NaN NaN NaN) by (rewrite length_map; lia).
    rewrite (CombineFacts.nth_map_lt fsqrt total j NaN NaN) by lia.
    now rewrite Hsum by exact Hj. }
  now rewrite Hm, He.
Qed.

Lemma error_key_injective (k k' : string) : "E_" ++ k = "E_" ++ k' -> k = k'.
Proof. cbn [append]. now intros [= ->]. Qed.

Section Fields.

Variable data_dict : dict ndarray.
Variable n : nat.
Variable ensemble_of : string -> list (list float).

Lemma average_loop (keys : list string) :
  (forall k, In k keys ->
     dict_get k data_dict = Ok (Arr2 (ensemble_of k))
     /\ rectangular n (ensemble_of k)) ->
  (forall k k', In k keys -> In k' keys -> k <> "E_" ++ k') ->
  forall acc,
    exists average,
      for_each (fun average key =>
                  a <- dict_get key data_dict ;;
                  summed <- nansum_axis0 a ;;
                  a <- dict_get key data_dict ;;
                  num_not_nan <- count_not_nan_axis0 a ;;
                  ratio <- nd_map2 fdiv (nd_map fsqrt summed) summed ;;
                  err <- nd_map2 fmul ratio (Scalar (Fin 100)) ;;
                  let average := dict_set ("E_" ++ key) err average in
                  mean <- nd_map2 fdiv summed num_not_nan ;;
                  Ok (dict_set key mean average))
               keys acc = Ok average
      /\ (forall k, In k keys ->
            dict_get k average = Ok (Arr1 (means n (ensemble_of k)))
            /\ dict_get ("E_" ++ k) average = Ok (Arr1 (errors n (ensemble_of k))))
      /\ (forall k', ~ In k' keys -> (forall k, In k keys -> k' <> "E_" ++ k) ->
            dict_get k' average = dict_get k' acc).
Proof.
  induction keys as [|key keys IH]; intros Hfields Hclash acc.
  - exists acc. cbn [for_each]. split; [reflexivity|]. split; [intros k []|]. reflexivity.
  - destruct (Hfields key (or_introl eq_refl)) as [Hget Hrect].
    cbn [for_each]. cbv zeta.
    rewrite (average_step data_dict acc key (ensemble_of key) n Hget Hrect).
    cbn [bind].
    set (acc1 := dict_set key (Arr1 (means n (ensemble_of key)))
                   (dict_set ("E_" ++ key) (Arr1 (errors n (ensemble_of key))) acc)).
    destruct (IH (fun k Hk => Hfields k (or_intror Hk))
                 (fun k k' Hk Hk' => Hclash k k' (or_intror Hk) (or_intror Hk'))
                 acc1) as (average & Hloop & Hgood & Hkeep).
    assert (Hself : key <> "E_" ++ key).
    { apply Hclash; now left. }
    exists average. split; [exact Hloop|]. split.
    + intros k Hk. destruct (in_dec string_dec k keys) as [Hin|Hnotin];
        [now apply Hgood|].
      destruct Hk as [<-|Hk]; [|contradiction]. split.
      * rewrite Hkeep; [apply dict_get_set_same | exact Hnotin |].
        intros k' Hk'. apply Hclash; [now left | now right].
      * rewrite Hkeep.
        -- unfold acc1. rewrite dict_get_set_other by congruence.
           apply dict_get_set_same.
        -- intros Hin. apply (Hclash ("E_" ++ key) key); [now right | now left | reflexivity].
        -- intros k' Hk' Heq. apply error_key_injective in Heq. now subst k'.
    + intros k' Hnotin Hnoerr.
      rewrite Hkeep.
      * unfold acc1. rewrite !dict_get_set_other; [reflexivity | |].
        -- apply Hnoerr. now left.
        -- intros ->. apply Hnotin. now left.
      * intros Hin. apply Hnotin. now right.
      * intros k Hk. apply Hnoerr. now right.
Qed.

End Fields.

(** X22. For any list of fields, each with a rectangular ensemble of the
    same number of timestamps, and no field named like the error series
    of a field ([E_] followed by a field name), the combine step returns
    for every field its series of means under the field's name and its
    series of Poisson percentage errors under [E_] and the field's
    name. *)
Theorem average_each_key_fields (data_dict : dict ndarray) (keys : list string)
  (n : nat) (ensemble_of : string -> list (list float)) :
  (forall k, In k keys ->
     dict_get k data_dict = Ok (Arr2 (ensemble_of k))
     /\ rectangular n (ensemble_of k)) ->
  (forall k k', In k keys -> In k' keys -> k <> "E_" ++ k') ->
  exists average,
    average_each_key data_dict keys = Ok average
    /\ forall k, In k keys ->
         dict_get k average = Ok (Arr1 (means n (ensemble_of k)))
         /\ dict_get ("E_" ++ k) average = Ok (Arr1 (errors n (ensemble_of k))).
Proof.
  intros Hfields Hclash.
  destruct (average_loop data_dict n ensemble_of keys Hfields Hclash [])
    as (average & Hloop & Hgood & _).
  exists average. split; [exact Hloop | exact Hgood].
Qed.

Lemma average_each_key_fields_witness :
  exists average,
    average_each_key [("MOD", Arr2 Demo.ensemble); ("UNMO", Arr2 Demo.ensemble)]
                     ["MOD"; "UNMO"] = Ok average
    /\ forall k, In k ["MOD"; "UNMO"] ->
         dict_get k average = Ok (Arr1 (means 3 Demo.ensemble))
         /\ dict_get ("E_" ++ k) average = Ok (Arr1 (errors 3 Demo.ensemble)).
Proof.
  apply (average_each_key_fields
           [("MOD", Arr2 Demo.ensemble); ("UNMO", Arr2 Demo.ensemble)]
           ["MOD"; "UNMO"] 3 (fun _ => Demo.ensemble)).
  - intros k [<-|[<-|[]]]; (split; [reflexivity|]);
      (split; [discriminate | repeat constructor]).
  - intros k k' [<-|[<-|[]]] [<-|[<-|[]]]; discriminate.
Defined.

(** The averages of a single field. *)
Lemma average_one_field (data_dict : dict ndarray) (key : string)
  (m : list (list float)) (n : nat) :
  dict_get key data_dict = Ok (Arr2 m) ->
  rectangular n m ->
  average_each_key data_dict [key]
  = Ok [("E_" ++ key, Arr1 (errors n m)); (key, Arr1 (means n m))].
Proof.
  intros Hget Hrect. unfold average_each_key. cbn [for_each]. cbv zeta.
  rewrite (average_step data_dict [] key m n Hget Hrect).
  cbn [bind dict_set]. now rewrite CombineFacts.key_not_error_key.
Qed.

Lemma Rsgn_zero : Rsgn 0 = Eq.
Proof. unfold Rsgn. destruct (Rlt_dec 0 0); [lra | reflexivity]. Qed.

Lemma fdiv_zero_zero : (Fin 0 / Fin 0)%fl = NaN.
Proof.
  unfold fdiv. destruct (Req_dec_T 0 0) as [_|H]; [|contradiction].
  now rewrite Rsgn_zero.
Qed.

Lemma column_of_gaps (j : nat) (m : list (list float)) :
  (forall row, In row m -> nth j row NaN = NaN) -> present (column j m) = [].
Proof.
  induction m as [|row m IH]; intros Hall; [reflexivity|].
  unfold present, column. cbn [map filter].
  rewrite (Hall row (or_introl eq_refl)). cbn [isnan negb].
  apply IH. intros r Hr. apply Hall. now right.
Qed.

(** X23. At a timestamp at which no station has a value, the combine step
    raises nothing: the mean and the Poisson error of the field are both
    missing there (zero over zero). *)
Theorem average_each_key_no_station (data_dict : dict ndarray) (key : string)
  (m : list (list float)) (n j : nat) :
  dict_get key data_dict = Ok (Arr2 m) ->
  rectangular n m ->
  (j < n)%nat ->
  (forall row, In row m -> nth j row NaN = NaN) ->
  exists mean_series error_series,
    average_each_key data_dict [key]
    = Ok [("E_" ++ key, Arr1 error_series); (key, Arr1 mean_series)]
    /\ nth j mean_series (Fin 0) = NaN
    /\ nth j error_series (Fin 0) = NaN.
Proof.
  intros Hget Hrect Hj Hgap.
  exists (means n m), (errors n m).
  split; [exact (average_one_field data_dict key m n Hget Hrect)|].
  rewrite nth_means, nth_errors by exact Hj.
  unfold mean, poisson_percentage, summed_counts, contributors.
  rewrite (column_of_gaps j m Hgap).
  change (fold_left fadd [] (Fin 0)) with (Fin 0).
  change (of_nat (List.length (@nil float))) with (Fin 0).
  unfold fsqrt. destruct (Rlt_dec 0 0); [lra|].
  rewrite sqrt_0, fdiv_zero_zero. split; reflexivity.
Qed.

Lemma average_each_key_no_station_witness :
  exists mean_series error_series,
    average_each_key [("counts", Arr2 [[Fin 10; NaN]; [Fin 30; NaN]])] ["counts"]
    = Ok [("E_counts", Arr1 error_series); ("counts", Arr1 mean_series)]
    /\ nth 1 mean_series (Fin 0) = NaN
    /\ nth 1 error_series (Fin 0) = NaN.
Proof.
  apply (average_each_key_no_station
           [("counts", Arr2 [[Fin 10; NaN]; [Fin 30; NaN]])] "counts"
           [[Fin 10; NaN]; [Fin 30; NaN]] 2 1).
  - reflexivity.
  - split; [discriminate | repeat constructor].
  - lia.
  - intros row [<-|[<-|[]]]; reflexivity.
Defined.

Lemma mean_of_one (x : float) : mean [x] = x.
Proof.
  destruct x as [a| | |].
  - change (mean [Fin a]) with (Fin (0 + a) / Fin 1)%fl.
    rewrite fdiv_fin by lra. f_equal. field.
  - change (mean [PInf]) with (PInf / Fin 1)%fl.
    unfold fdiv, fsign. destruct (Rlt_dec 1 0); [lra | reflexivity].
  - change (mean [NInf]) with (NInf / Fin 1)%fl.
    unfold fdiv, fsign. destruct (Rlt_dec 1 0); [lra | reflexivity].
  - exact fdiv_zero_zero.
Qed.

(** X24. An ensemble of a single station row is its own mean: the combine
    step returns the row itself as the series of means, missing values
    included. *)
Theorem average_each_key_one_row (data_dict : dict ndarray) (key : string)
  (row : list float) :
  dict_get key data_dict = Ok (Arr2 [row]) ->
  exists error_series,
    average_each_key data_dict [key]
    = Ok [("E_" ++ key, Arr1 error_series); (key, Arr1 row)].
Proof.
  intros Hget. exists (errors (List.length row) [row]).
  rewrite (average_one_field data_dict key [row] (List.length row) Hget)
    by (split; [discriminate | repeat constructor]).
  assert (Hrow : row = means (List.length row) [row]).
  { apply list_from_nth; [reflexivity|].
    intros j Hj. unfold column. cbn [map]. symmetry. apply mean_of_one. }
  now rewrite <- Hrow.
Qed.

Lemma average_each_key_one_row_witness :
  exists error_series,
    average_each_key [("counts", Arr2 [[Fin 10; NaN; Fin 30]])] ["counts"]
    = Ok [("E_counts", Arr1 error_series); ("counts", Arr1 [Fin 10; NaN; Fin 30])].
Proof.
  apply (average_each_key_one_row [("counts", Arr2 [[Fin 10; NaN; Fin 30]])] "counts").
  reflexivity.
Defined.

(** The error series alone, as both [average_each_key] and
    [calculate_poisson_percentage] compute it. *)
Lemma poisson_series (m : list (list float)) (n : nat) :
  rectangular n m ->
  (summed_data <- nansum_axis0 (Arr2 m) ;;
   ratio <- nd_map2 fdiv (nd_map fsqrt summed_data) summed_data ;;
   nd_map2 fmul ratio (Scalar (Fin 100)))
  = Ok (Arr1 (errors n m)).
Proof.
  intros Hrect.
  pose proof (average_step [("k", Arr2 m)] [] "k" m n eq_refl Hrect) as H.
  change (dict_get "k" [("k", Arr2 m)]) with (Ok (Arr2 m)) in H.
  cbn [bind] in H.
  destruct (nansum_axis0 (Arr2 m)) as [summed|]; cbn [bind] in *; [|discriminate H].
  destruct (count_not_nan_axis0 (Arr2 m)) as [counts|]; cbn [bind] in H;
    [|discriminate H].
  destruct (nd_map2 fdiv (nd_map fsqrt summed) summed) as [ratio|]; cbn [bind] in *;
    [|discriminate H].
  destruct (nd_map2 fmul ratio (Scalar (Fin 100))) as [err|]; cbn [bind] in H;
    [|discriminate H].
  destruct (nd_map2 fdiv summed counts) as [mean_values|]; cbn [bind] in H;
    [|discriminate H].
  cbn [dict_set append String.eqb Ascii.eqb Bool.eqb] in H.
  injection H as Herr _. now rewrite Herr.
Qed.

(** X26. On a rectangular ensemble, [calculate_poisson_percentage] files
    under the error key the series of Poisson percentage errors of the
    data key: the series that the combine step stores as the error of the
    field. *)
Theorem calculate_poisson_percentage_series (data_dict : dict ndarray)
  (error_key data_key : string) (m : list (list float)) (n : nat) :
  dict_get data_key data_dict = Ok (Arr2 m) ->
  rectangular n m ->
  calculate_poisson_percentage data_dict [error_key] [data_key]
  = Ok [(error_key, Arr1 (errors n m))].
Proof.
  intros Hget Hrect. unfold calculate_poisson_percentage.
  cbn [List.length seq for_each item nth_error bind]. rewrite Hget. cbn [bind].
  pose proof (poisson_series m n Hrect) as H.
  destruct (nansum_axis0 (Arr2 m)) as [summed|]; cbn [bind] in *; [|discriminate H].
  destruct (nd_map2 fdiv (nd_map fsqrt summed) summed) as [ratio|]; cbn [bind] in *;
    [|discriminate H].
  rewrite H. reflexivity.
Qed.

Lemma calculate_poisson_percentage_series_witness :
  calculate_poisson_percentage [("CTS_MOD", Arr2 Demo.ensemble)]
    ["E_CTS_MOD"] ["CTS_MOD"]
  = Ok [("E_CTS_MOD", Arr1 (errors 3 Demo.ensemble))].
Proof.
  apply (calculate_poisson_percentage_series
           [("CTS_MOD", Arr2 Demo.ensemble)] "E_CTS_MOD" "CTS_MOD" Demo.ensemble 3).
  - reflexivity.
  - split; [discriminate | repeat constructor].
Defined.

(** ** A single station *)

Section Shapes.

Variable shape : ndarray -> Prop.

Lemma dict_set_every_entry (k : string) (v : ndarray) (d : dict ndarray) :
  shape v -> every_entry shape d -> every_entry shape (dict_set k v d).
Proof.
  intros Hv. induction 1 as [|[k' v'] d Hp Hd IH]; cbn [dict_set].
  - repeat constructor. exact Hv.
  - destruct (String.eqb k k'); constructor; assumption.
Qed.

Lemma dict_set_has_key (k : string) (v : ndarray) (d : dict ndarray) :
  In k (dict_keys (dict_set k v d)).
Proof.
  induction d as [|[k' v'] d IH]; cbn [dict_set]; [now left|].
  destruct (String.eqb k k') eqn:Hk; cbn [dict_keys map fst].
  - apply String.eqb_eq in Hk. now left.
  - right. exact IH.
Qed.

Lemma dict_set_keeps_keys (k k' : string) (v : ndarray) (d : dict ndarray) :
  In k' (dict_keys d) -> In k' (dict_keys (dict_set k v d)).
Proof.
  induction d as [|[k0 v0] d IH]; [intros []|].
  cbn [dict_set]. unfold dict_keys in *.
  destruct (String.eqb k k0); cbn [map fst]; intros [H|H];
    [now left | now right | now left | right; now apply IH].
Qed.

Lemma dict_get_entry (k : string) (d : dict ndarray) :
  every_entry shape d -> In k (dict_keys d) ->
  exists v, dict_get k d = Ok v /\ shape v.
Proof.
  unfold dict_get.
  induction 1 as [|[k' v'] d Hp Hd IH]; cbn [dict_keys map fst dict_find]; [intros []|].
  intros Hin. destruct (String.eqb k k') eqn:Hk; [now exists v'|].
  destruct Hin as [Heq|Hin]; [|now apply IH].
  subst k'. now rewrite String.eqb_refl in Hk.
Qed.

End Shapes.

Lemma make_data_dict_loop (data : DataFrame) (keys : list string) :
  (forall k, In k keys -> exists col, df_col k data = Ok col) ->
  forall acc, every_entry one_dimensional acc ->
    exists data_dict,
      for_each (fun data_dict key =>
                  col <- df_col key data ;;
                  Ok (dict_set key (Arr1 col) data_dict)) keys acc = Ok data_dict
      /\ every_entry one_dimensional data_dict
      /\ (forall k, In k keys \/ In k (dict_keys acc) -> In k (dict_keys data_dict)).
Proof.
  induction keys as [|key keys IH]; intros Hcols acc Hacc.
  - exists acc. cbn [for_each]. repeat split; [exact Hacc|]. now intros k [[]|Hk].
  - destruct (Hcols key (or_introl eq_refl)) as [col Hcol].
    cbn [for_each]. rewrite Hcol. cbn [bind].
    destruct (IH (fun k Hk => Hcols k (or_intror Hk)) (dict_set key (Arr1 col) acc))
      as (data_dict & Hloop & Hshape & Hkeys).
    { apply dict_set_every_entry; [now exists col | exact Hacc]. }
    exists data_dict. repeat split; [exact Hloop | exact Hshape|].
    intros k [[<-|Hk]|Hk]; apply Hkeys; auto.
    + right. apply dict_set_has_key.
    + right. now apply dict_set_keeps_keys.
Qed.

Lemma average_loop_one_station (data_dict : dict ndarray) (keys : list string) :
  every_entry one_dimensional data_dict ->
  (forall k, In k keys -> In k (dict_keys data_dict)) ->
  forall acc, every_entry zero_dimensional acc ->
    exists average,
      for_each (fun average key =>
                  a <- dict_get key data_dict ;;
                  summed <- nansum_axis0 a ;;
                  a <- dict_get key data_dict ;;
                  num_not_nan <- count_not_nan_axis0 a ;;
                  ratio <- nd_map2 fdiv (nd_map fsqrt summed) summed ;;
                  err <- nd_map2 fmul ratio (Scalar (Fin 100)) ;;
                  let average := dict_set ("E_" ++ key) err average in
                  mean <- nd_map2 fdiv summed num_not_nan ;;
                  Ok (dict_set key mean average))
               keys acc = Ok average
      /\ every_entry zero_dimensional average
      /\ (forall k, In k keys \/ In k (dict_keys acc) -> In k (dict_keys average)).
Proof.
  intros Hshape. induction keys as [|key keys IH]; intros Hkeys acc Hacc.
  - exists acc. cbn [for_each]. repeat split; [exact Hacc|]. now intros k [[]|Hk].
  - destruct (dict_get_entry one_dimensional key data_dict Hshape
                (Hkeys key (or_introl eq_refl))) as (a & Hget & v & ->).
    cbn [for_each]. cbv zeta. rewrite Hget.
    cbn [bind nansum_axis0 count_not_nan_axis0 nd_map nd_map2].
    destruct (IH (fun k Hk => Hkeys k (or_intror Hk))
                 (dict_set key (Scalar (nansum1 v / of_nat (count_not_nan1 v))%fl)
                    (dict_set ("E_" ++ key)
                       (Scalar (fsqrt (nansum1 v) / nansum1 v * Fin 100)%fl) acc)))
      as (average & Hloop & Hzero & Hin).
    { apply dict_set_every_entry; [eexists; reflexivity|].
      apply dict_set_every_entry; [eexists; reflexivity | exact Hacc]. }
    exists average. repeat split; [exact Hloop | exact Hzero|].
    intros k [[<-|Hk]|Hk]; apply Hin; auto.
    + right. apply dict_set_has_key.
    + right. now do 2 apply dict_set_keeps_keys.
Qed.

(** X27. With the arrays of a single station, as [make_data_dict] builds
    them for the first station accepted, the combine step averages every
    field down to a single number, and [dict_to_rel_change] then raises
    [IndexError] when it takes the first 48 entries of the first field. *)
Theorem single_station_index_error (data : DataFrame) (keys : list string) :
  keys <> [] ->
  (forall k, In k keys -> exists col, df_col k data = Ok col) ->
  exists all_data average,
    make_data_dict data keys = Ok all_data
    /\ average_each_key all_data keys = Ok average
    /\ dict_to_rel_change average keys
       = Err (IndexError "invalid index to scalar variable.").
Proof.
  intros Hne Hcols.
  destruct (make_data_dict_loop data keys Hcols [] (Forall_nil _))
    as (all_data & Hmake & Hone & Hkeys).
  destruct (average_loop_one_station all_data keys Hone (fun k Hk => Hkeys k (or_introl Hk))
              [] (Forall_nil _)) as (average & Havg & Hzero & Hin).
  exists all_data, average. repeat split; [exact Hmake | exact Havg|].
  destruct keys as [|key keys]; [contradiction|].
  destruct (dict_get_entry zero_dimensional key average Hzero
              (Hin key (or_introl (or_introl eq_refl)))) as (a & Hget & x & ->).
  unfold dict_to_rel_change. cbn [for_each]. rewrite Hget. reflexivity.
Qed.

Lemma single_station_index_error_witness :
  exists all_data average,
    make_data_dict Demo.steady ["MOD"; "UNMO"] = Ok all_data
    /\ average_each_key all_data ["MOD"; "UNMO"] = Ok average
    /\ dict_to_rel_change average ["MOD"; "UNMO"]
       = Err (IndexError "invalid index to scalar variable.").
Proof.
  apply (single_station_index_error Demo.steady ["MOD"; "UNMO"]).
  - discriminate.
  - intros k [<-|[<-|[]]]; eexists; reflexivity.
Defined.

(** ** Stacking the stations *)

Lemma row_lengths (row : list float) (m : list (list float)) :
  forallb (fun r => Nat.eqb (List.length r) (List.length row)) m = true
  <-> Forall (fun r => List.length r = List.length row) m.
Proof.
  rewrite forallb_forall, Forall_forall.
  split; intros H r Hr; specialize (H r Hr); now apply Nat.eqb_eq.
Qed.

(** X28. Stacking the row of a further station on a rectangular ensemble
    of [n] timestamps appends it as the last row and keeps the ensemble
    rectangular when the row has [n] values, and raises [ValueError]
    when it has not. *)
Theorem vstack_station_row (m : list (list float)) (row : list float) (n : nat) :
  rectangular n m ->
  (List.length row = n ->
     vstack (Arr2 m) row = Ok (Arr2 (m ++ [row])) /\ rectangular n (m ++ [row]))
  /\ (List.length row <> n -> exists msg, vstack (Arr2 m) row = Err (ValueError msg)).
Proof.
  intros [Hne Hall]. unfold vstack. split.
  - intros Hlen.
    assert (Hrows : forallb (fun r => Nat.eqb (List.length r) (List.length row)) m = true).
    { apply row_lengths. rewrite Hlen. exact Hall. }
    rewrite Hrows. split; [reflexivity|]. split.
    + destruct m; discriminate.
    + apply Forall_app. split; [exact Hall | now repeat constructor].
  - intros Hlen.
    destruct (forallb (fun r => Nat.eqb (List.length r) (List.length row)) m) eqn:Hrows.
    + apply row_lengths in Hrows. destruct m as [|r m]; [contradiction|].
      inversion Hall as [|? ? Hr _]; subst. inversion Hrows as [|? ? Hr' _]; subst.
      congruence.
    + eexists. reflexivity.
Qed.

Lemma vstack_station_row_witness :
  (vstack (Arr2 Demo.ensemble) [Fin 50; NaN; Fin 70]
   = Ok (Arr2 (Demo.ensemble ++ [[Fin 50; NaN; Fin 70]]))
   /\ rectangular 3 (Demo.ensemble ++ [[Fin 50; NaN; Fin 70]]))
  /\ exists msg, vstack (Arr2 Demo.ensemble) [Fin 50; NaN] = Err (ValueError msg).
Proof.
  assert (Hrect : rectangular 3 Demo.ensemble)
    by (split; [discriminate | repeat constructor]).
  split.
  - apply (proj1 (vstack_station_row Demo.ensemble [Fin 50; NaN; Fin 70] 3 Hrect)).
    reflexivity.
  - apply (proj2 (vstack_station_row Demo.ensemble [Fin 50; NaN] 3 Hrect)).
    discriminate.
Defined.

End CombineProperties.

(* ================================================================== *)
(** * The aggregator as a whole *)
(* ================================================================== *)

Module PipelineProperties.

Import AverageData.

Section StationLoop.

Variable w : World.
Variables cwd operator : string.
Variables start_date stop_date : Z.
Variable rigidity_range : dict float.
Variables original_frequency new_frequency : string.
Variable excluded_stations : list string.
Variable other_keys : dict pyval.
Variable length : float.
Variable data_keys : list string.
Variable names : list string.
Variable rigidity_list : list float.

Let step := station_step w cwd operator start_date stop_date rigidity_range
              original_frequency new_frequency excluded_stations other_keys
              length data_keys names rigidity_list.

(** A pass of the station loop that raises nothing leaves every local
    variable as it was: the only branch that updates them looks up the
    unbound name [coscal] first. *)
Lemma station_step_keeps (st st' : LoopState) (i : nat) :
  step st i = Ok st' -> st' = st.
Proof.
  unfold step, station_step, coscal_apply_corrections. intros H.
  repeat match goal with
         | H : Err _ = Ok _ |- _ => discriminate H
         | H : Ok _ = Ok _ |- _ => injection H as <-; reflexivity
         | H : bind ?c _ = Ok _ |- _ =>
             destruct c eqn:?; cbn [bind] in H
         | H : (if ?b then _ else _) = Ok _ |- _ => destruct b eqn:?
         | H : (let (_, _) := ?p in _) = Ok _ |- _ => destruct p
         end.
Qed.

Lemma station_loop_keeps (stations : list nat) (st st' : LoopState) :
  for_each step stations st = Ok st' -> st' = st.
Proof.
  revert st. induction stations as [|i stations IH]; intros st H.
  - cbn [for_each] in H. now injection H as <-.
  - cbn [for_each] in H.
    destruct (step st i) as [st1|e] eqn:Hstep; [|discriminate H].
    apply station_step_keeps in Hstep. subst st1. now apply IH.
Qed.

Lemma for_each_app {A S : Type} (body : S -> A -> result S) (xs ys : list A) (s : S) :
  for_each body (xs ++ ys) s = (s' <- for_each body xs s ;; for_each body ys s').
Proof.
  revert s. induction xs as [|x xs IH]; intros s; [reflexivity|].
  cbn [app for_each]. destruct (body s x); cbn [bind]; [apply IH | reflexivity].
Qed.

(** A station that passes every filter reaches the unbound name. *)
Lemma station_step_accepted (st : LoopState) (i : nat)
  (name extension : string) (rigidity rmin rmax : float)
  (station_data resampled checked : DataFrame) :
  item names i = Ok name ->
  existsb (String.eqb name) excluded_stations = false ->
  dict_get "extension" other_keys = Ok (PStr extension) ->
  item rigidity_list i = Ok rigidity ->
  dict_get "min" rigidity_range = Ok rmin ->
  dict_get "max" rigidity_range = Ok rmax ->
  fge rigidity rmin && fle rigidity rmax = true ->
  ImportData.import_neutron_data w cwd (name ++ extension) operator
    (Some start_date) (Some stop_date) = Ok (station_data, true) ->
  df_empty station_data = false ->
  resample_data w station_data operator original_frequency new_frequency
    = Ok resampled ->
  feq (of_nat (List.length (df_index resampled))) length = true ->
  (if String.eqb "COSMOS-UK" operator then qc_check_data resampled
   else Ok resampled) = Ok checked ->
  step st i = Err (NameError "coscal").
Proof.
  intros Hname Hex Hext Hr Hmin Hmax Hrange Himp Hne Hres Hlen Hqc.
  unfold step, station_step.
  rewrite Hname; cbn [bind]. rewrite Hex.
  rewrite Hext; cbn [bind as_str]. rewrite Hr; cbn [bind].
  rewrite Hmin; cbn [bind]. rewrite Hmax; cbn [bind]. rewrite Hrange; cbn [negb].
  rewrite Himp; cbn [bind]. rewrite Hne; cbn [andb negb].
  rewrite Hres; cbn [bind]. rewrite Hlen; cbn [negb].
  rewrite Hqc; cbn [bind]. reflexivity.
Qed.

End StationLoop.

(** After the two path checks the run always ends with an exception. *)
Lemma average_after_checks_raises (w : World) (cwd operator metafile_name : string)
  (other_keys : dict pyval) (start_date stop_date : Z) (rigidity_range : dict float)
  (original_frequency new_frequency : string) (excluded_stations : list string) :
  exists e,
    average_after_checks w cwd operator metafile_name other_keys start_date stop_date
      rigidity_range original_frequency new_frequency excluded_stations = Err e.
Proof.
  unfold average_after_checks.
  repeat match goal with
         | |- exists e, Err ?x = Err e => exists x; reflexivity
         | |- exists e, bind (for_each ?body ?xs ?s) _ = Err e =>
             let Hloop := fresh "Hloop" in
             destruct (for_each body xs s) as [st|?] eqn:Hloop; cbn [bind];
             [apply station_loop_keeps in Hloop; subst st;
              cbn [initial_state all_data local bind]|]
         | |- exists e, bind ?c _ = Err e => destruct c; cbn [bind]
         end.
Qed.

(** X29. Whatever the files, the console and the arguments are, a run of
    [average_neutron_data] never returns its table: it either ends with an
    exception or is still asking for a path. *)
Theorem average_neutron_data_never_returns
  (fuel : nat) (w : World) (cwd folder_path operator : string)
  (start_date stop_date : Z) (rigidity_range : dict float)
  (original_frequency new_frequency : string) (excluded_stations : list string)
  (table : FinalTable * Contributing) :
  average_neutron_data fuel w cwd folder_path operator start_date stop_date
    rigidity_range original_frequency new_frequency excluded_stations
  <> Finished (Ok table).
Proof.
  unfold average_neutron_data.
  destruct (check_path_exists fuel w cwd folder_path 0); try discriminate.
  destruct (os_chdir w cwd ret_path) as [data_cwd|]; try discriminate.
  destruct (check_path_exists fuel w data_cwd "station_info.txt" pos) as [| metafile ? |];
    try discriminate.
  destruct (average_after_checks_raises w data_cwd operator metafile
              (get_other_keys operator) start_date stop_date rigidity_range
              original_frequency new_frequency excluded_stations) as [e ->].
  discriminate.
Qed.

(** X30. When the folder and the metadata file exist, the stations listed
    before station [i] are all passed over and station [i] passes every
    filter (name, rigidity range, valid non-empty import, resampled
    length and, for COSMOS-UK, the quality check), the run ends with
    [NameError]: the corrections are reached through the name [coscal],
    which the module never binds. *)
Theorem average_neutron_data_name_error
  (fuel : nat) (w : World) (cwd folder_path operator : string)
  (start_date stop_date : Z) (rigidity_range : dict float)
  (original_frequency new_frequency : string) (excluded_stations : list string)
  (data_cwd meta_sep name_column : string) (length_mod td : Z)
  (station_info : MetaTable) (names : list string) (rigidity_list : list float)
  (data_keys error_keys : list string)
  (i : nat) (name extension : string) (rigidity rmin rmax : float)
  (station_data resampled checked : DataFrame) :
  os_path_exists w cwd folder_path = true ->
  os_chdir w cwd folder_path = Ok data_cwd ->
  os_path_exists w data_cwd "station_info.txt" = true ->
  dict_get "meta_sep" (get_other_keys operator) = Ok (PStr meta_sep) ->
  dict_get "name_column" (get_other_keys operator) = Ok (PStr name_column) ->
  dict_get "length_mod" (get_other_keys operator) = Ok (PInt length_mod) ->
  pd_read_meta w data_cwd "station_info.txt" meta_sep = Ok station_info ->
  dict_get name_column (meta_text station_info) = Ok names ->
  dict_get "CutoffRigidity" (meta_numbers station_info) = Ok rigidity_list ->
  get_data_keys operator = Ok data_keys ->
  get_error_keys operator = Ok error_keys ->
  Timedelta new_frequency = Ok td ->
  td <> 0%Z ->
  (forall j, (j < i)%nat ->
     skipped w data_cwd operator start_date stop_date rigidity_range
       original_frequency new_frequency excluded_stations
       (get_other_keys operator)
       (Fin (IZR (stop_date - start_date) / IZR td) + of_Z length_mod)%fl
       names rigidity_list j) ->
  item names i = Ok name ->
  existsb (String.eqb name) excluded_stations = false ->
  dict_get "extension" (get_other_keys operator) = Ok (PStr extension) ->
  item rigidity_list i = Ok rigidity ->
  dict_get "min" rigidity_range = Ok rmin ->
  dict_get "max" rigidity_range = Ok rmax ->
  fge rigidity rmin && fle rigidity rmax = true ->
  ImportData.import_neutron_data w data_cwd (name ++ extension) operator
    (Some start_date) (Some stop_date) = Ok (station_data, true) ->
  df_empty station_data = false ->
  resample_data w station_data operator original_frequency new_frequency
    = Ok resampled ->
  feq (of_nat (List.length (df_index resampled)))
      (Fin (IZR (stop_date - start_date) / IZR td) + of_Z length_mod)%fl = true ->
  (if String.eqb "COSMOS-UK" operator then qc_check_data resampled
   else Ok resampled) = Ok checked ->
  average_neutron_data (S fuel) w cwd folder_path operator start_date stop_date
    rigidity_range original_frequency new_frequency excluded_stations
  = Finished (Err (NameError "coscal")).
Proof.
  intros Hfolder Hchdir Hmeta Hsep Hcol Hmod Hread Hnames Hrig Hdk Hek Htd Hnz Hskip
         Hname Hex Hext Hr Hmin Hmax Hrange Himp Hne Hres Hlen Hqc.
  unfold average_neutron_data, check_path_exists.
  cbn [check_path_loop]. unfold check_path_step.
  rewrite Hfolder, Hchdir, Hmeta. f_equal.
  unfold average_after_checks.
  rewrite Hsep; cbn [bind as_str]. rewrite Hread; cbn [bind].
  rewrite Hcol; cbn [bind as_str]. rewrite Hnames; cbn [bind].
  rewrite Hrig; cbn [bind]. rewrite Hdk; cbn [bind]. rewrite Hek; cbn [bind].
  rewrite Htd; cbn [bind].
  apply Z.eqb_neq in Hnz. rewrite Hnz; cbn [bind].
  rewrite Hmod; cbn [bind as_int].
  assert (Hi : (i < List.length names)%nat).
  { unfold item in Hname. destruct (nth_error names i) eqn:Hnth; [|discriminate].
    apply nth_error_Some. congruence. }
  replace (seq 0 (List.length names))
    with (seq 0 i ++ i :: seq (S i) (List.length names - S i))%list.
  2:{ change (i :: seq (S i) (List.length names - S i))
        with (seq i (S (List.length names - S i))).
      rewrite <- (Nat.add_0_l i) at 2. rewrite <- seq_app. f_equal. lia. }
  rewrite for_each_app.
  rewrite AverageDataFacts.station_loop_all_skipped.
  2:{ apply Forall_forall. intros j Hj. apply in_seq in Hj. apply Hskip. lia. }
  cbn [bind for_each].
  rewrite (station_step_accepted w data_cwd operator start_date stop_date
             rigidity_range original_frequency new_frequency excluded_stations
             (get_other_keys operator) _ data_keys names rigidity_list
             initial_state i name extension rigidity rmin rmax
             station_data resampled checked); try assumption.
  reflexivity.
Qed.

Lemma average_neutron_data_name_error_witness :
  average_neutron_data 1 Demo.flagged_world "." "data" "COSMOS-UK" 0 (2 * Demo.hour)
    default_rigidity_range "3600s" "3600s" []
  = Finished (Err (NameError "coscal")).
Proof.
  eapply (average_neutron_data_name_error 0 Demo.flagged_world "." "data" "COSMOS-UK"
           0 (2 * Demo.hour) default_rigidity_range "3600s" "3600s" []
           "data" "," "SITE_ID" 1 Demo.hour Demo.flagged_meta
           ["FLAG"] [Fin 3] ["CTS_MOD"] ["E_CTS_MOD"]
           0 "FLAG" ".csv" (Fin 3) (Fin 0) (Fin 20)
           Demo.flagged Demo.flagged _);
    try reflexivity.
  - discriminate.
  - intros j Hj. lia.
  - float_compare.
  - change (List.length (df_index Demo.flagged)) with 3%nat.
    change (2 * Demo.hour - 0)%Z with 7200000000000%Z.
    unfold Demo.hour. float_compare.
Defined.

End PipelineProperties.

(* ================================================================== *)
(** * The correction formulas in binary64: what they return *)
(* ================================================================== *)

Module Binary64Facts.

Import Binary64 CorrectSpec.

(** A finite number minus itself is zero. *)
Lemma sub_same (p : spec_float) : is_finite p = true -> (p - p)%b64 = S754_zero false.
Proof.
  destruct p as [s|s| |s m e]; try discriminate; intros _.
  - now destruct s.
  - unfold b64_sub, SFsub. cbv zeta. now rewrite Z.sub_diag.
Qed.

(** Zero times a finite number is a zero, whose exponential is one. *)
Lemma np_exp_zero_times (L : Libm) (b : spec_float) :
  is_finite b = true -> np_exp L (S754_zero false * b)%b64 = of_int 1.
Proof. destruct b; try discriminate; reflexivity. Qed.

Lemma map_repeat {A B : Type} (f : A -> B) (x : A) (n : nat) :
  map f (repeat x n) = repeat (f x) n.
Proof. induction n as [|n IH]; [reflexivity|]. cbn [repeat map]. now rewrite IH. Qed.

(** ** The attenuation length *)

(** The nine products the code forms, with each power of ten the nearest
    binary64 number. *)
Lemma product_constants_values :
  product_constants
  = mkCoefficients (literal 54196 4 * literal 1 3)%b64
                   (literal 22082 4 * literal 1 4)%b64
                   (- literal 51952 4 * literal 1 7)%b64
                   (literal 72062 4 * literal 1 6)%b64
                   (- literal 19702 4 * literal 1 6)%b64
                   (- literal 98334 4 * literal 1 9)%b64
                   (literal 34201 4 * literal 1 9)%b64
                   (literal 49898 4 * literal 1 12)%b64
                   (- literal 17192 4 * literal 1 12)%b64.
Proof. vm_compute. reflexivity. Qed.

(** The three constants that are not the literal ones:
    [0.00022082000000000002], [-1.9701999999999998e-06] and
    [3.4201000000000002e-09]. *)
Example product_constants_off :
  c1 product_constants = S754_finite false 8146820052713087 (-65)
  /\ c1 literal_constants = S754_finite false 8146820052713086 (-65)
  /\ c4 product_constants = S754_finite true 4652003222274887 (-71)
  /\ c4 literal_constants = S754_finite true 4652003222274888 (-71)
  /\ c6 product_constants = S754_finite false 8269294391327987 (-81)
  /\ c6 literal_constants = S754_finite false 8269294391327986 (-81).
Proof. repeat split; vm_compute; reflexivity. Qed.

Lemma reference_powers_of_ten : nearest_powers_of_ten reference.
Proof.
  intros k Hk. cbn [In] in Hk.
  repeat destruct Hk as [<-|Hk]; [vm_compute; reflexivity ..|contradiction].
Qed.

(** C6 fails as stated.  At pressure [1000] and rigidity [10] the depth
    and every power are whole numbers that binary64 holds exactly.  The
    code returns [0.007248090215889803]; the polynomial with the literal
    constants, evaluated in the same order, is [0.007248090215889793],
    twelve units in the last place lower. *)
Lemma attenuation_length_not_literal :
  attenuation_length reference (of_int 1000) (of_int 10)
  = S754_finite false 8356479077229838 (-60)
  /\ polynomial reference literal_constants (of_int 1000) (of_int 10)
     = S754_finite false 8356479077229826 (-60)
  /\ attenuation_length reference (of_int 1000) (of_int 10)
     <> polynomial reference literal_constants (of_int 1000) (of_int 10).
Proof.
  split; [vm_compute; reflexivity|]. split; [vm_compute; reflexivity|].
  vm_compute. discriminate.
Qed.

(** C6, as the code behaves.  Whenever [pow] returns the nearest binary64
    number for the six powers of ten, the attenuation length is, for
    every pressure and every rigidity, the nine-term polynomial
    [c0 + c1 R + c2 R^2 + (c3 + c4 R) D + (c5 + c6 R) D^2 + (c7 + c8 R) D^3]
    in the depth [D = P0 * 0.981], evaluated in binary64 in this order,
    with the literal constants for [c0], [c2], [c3], [c5], [c7] and [c8]
    and the next binary64 number above the literal constant for [c1],
    [c4] and [c6]: the products of mantissa and power of ten that the
    code forms. *)
Theorem attenuation_length_product_constants (L : Libm) (P0 R : spec_float) :
  nearest_powers_of_ten L ->
  attenuation_length L P0 R = polynomial L product_constants P0 R.
Proof.
  intros Hpow. rewrite product_constants_values.
  unfold attenuation_length, polynomial. cbv zeta. cbn [c0 c1 c2 c3 c4 c5 c6 c7 c8].
  pose proof (Hpow 3%nat ltac:(cbn [In]; tauto)) as H3.
  pose proof (Hpow 4%nat ltac:(cbn [In]; tauto)) as H4.
  pose proof (Hpow 6%nat ltac:(cbn [In]; tauto)) as H6.
  pose proof (Hpow 7%nat ltac:(cbn [In]; tauto)) as H7.
  pose proof (Hpow 9%nat ltac:(cbn [In]; tauto)) as H9.
  pose proof (Hpow 12%nat ltac:(cbn [In]; tauto)) as H12.
  cbn [Z.of_nat Pos.of_succ_nat Pos.succ Z.opp] in H3, H4, H6, H7, H9, H12.
  now rewrite H3, H4, H6, H7, H9, H12.
Qed.

Lemma attenuation_length_product_constants_witness :
  attenuation_length reference (of_int 1000) (of_int 10)
  = polynomial reference product_constants (of_int 1000) (of_int 10).
Proof.
  apply (attenuation_length_product_constants reference (of_int 1000) (of_int 10)).
  intros k Hk. cbn [In] in Hk.
  repeat destruct Hk as [<-|Hk]; [vm_compute; reflexivity ..|contradiction].
Defined.

(** ** The pressure and humidity factors *)

(** The mean of three samples of [1000.2] is [1000.2000000000002], one
    unit in the last place above the samples. *)
Example mean_in_order_rounds :
  literal 10002 1 = S754_finite false 8797852240812442 (-43)
  /\ np_nanmean reference (repeat (literal 10002 1) 3)
     = S754_finite false 8797852240812443 (-43).
Proof. split; vm_compute; reflexivity. Qed.

(** C7 fails as stated.  For three samples of [1000.2] and rigidity [10]
    the mean is not the common value, the exponent is [-8.24e-16] and the
    factor is [0.9999999999999992] at every sample; for three samples of
    [1000] and a rigidity that is not a number the attenuation length, the
    exponent and the factor are not numbers either. *)
Lemma pressure_correction_not_one :
  pressure_correction reference (repeat (literal 10002 1) 3) (of_int 10)
  = repeat (S754_finite false 9007199254740985 (-53)) 3
  /\ pressure_correction reference (repeat (of_int 1000) 3) S754_nan
     = repeat S754_nan 3
  /\ pressure_correction reference (repeat (literal 10002 1) 3) (of_int 10)
     <> repeat (of_int 1) 3
  /\ pressure_correction reference (repeat (of_int 1000) 3) S754_nan
     <> repeat (of_int 1) 3.
Proof.
  split; [vm_compute; reflexivity|]. split; [vm_compute; reflexivity|].
  split; vm_compute; discriminate.
Qed.

(** C7, as the code behaves.  For a flat series of a finite pressure
    whose mean, as [np.nanmean] returns it, is the common value itself,
    and a rigidity for which the attenuation length is finite, the
    pressure correction factor is exactly [1] at every sample: every
    difference from the mean is zero, and so is every exponent. *)
Theorem pressure_correction_exact_mean (L : Libm) (p rigidity : spec_float) (n : nat) :
  is_finite p = true ->
  np_nanmean L (repeat p n) = p ->
  is_finite (attenuation_length L p rigidity) = true ->
  pressure_correction L (repeat p n) rigidity = repeat (of_int 1) n.
Proof.
  intros Hp Hmean Hbeta. unfold pressure_correction. cbv zeta.
  rewrite Hmean, !map_repeat, (sub_same p Hp).
  now rewrite (np_exp_zero_times L _ Hbeta).
Qed.

Lemma pressure_correction_exact_mean_witness :
  pressure_correction reference (repeat (of_int 1000) 3) (of_int 10)
  = repeat (of_int 1) 3.
Proof.
  apply (pressure_correction_exact_mean reference (of_int 1000) (of_int 10) 3);
    vm_compute; reflexivity.
Defined.

(** X1. For a flat series of a finite humidity whose mean, as
    [np.nanmean] returns it, is the common value itself, the humidity
    correction factor is exactly [1] at every sample. *)
Theorem humidity_correction_exact_mean (L : Libm) (h : spec_float) (n : nat) :
  is_finite h = true ->
  np_nanmean L (repeat h n) = h ->
  humidity_correction L (repeat h n) = repeat (of_int 1) n.
Proof.
  intros Hh Hmean. unfold humidity_correction. cbv zeta.
  rewrite Hmean, !map_repeat, (sub_same h Hh). reflexivity.
Qed.

Lemma humidity_correction_exact_mean_witness :
  humidity_correction reference (repeat (literal 285 1) 3) = repeat (of_int 1) 3.
Proof.
  apply (humidity_correction_exact_mean reference (literal 285 1) 3);
    vm_compute; reflexivity.
Defined.

(** Where the mean is rounded, the factor is not one: three samples of
    [1000.2] give [0.9999999999999993]. *)
Example humidity_correction_rounds :
  humidity_correction reference (repeat (literal 10002 1) 3)
  = repeat (S754_finite false 9007199254740986 (-53)) 3.
Proof. vm_compute. reflexivity. Qed.

End Binary64Facts.
